(** * WeatherWarnDesktop: the fetcher, the field mapper, the forecast
      aggregator and the unit toggle, embedded from [src/api_client.py],
      [src/main.py] and [src/config.py]. *)

From Stdlib Require Import ZArith QArith List String Ascii Bool Lia Lqa.
From Stdlib Require Import SpecFloat DecimalString Sorted Permutation.
Import ListNotations.

Local Open Scope Z_scope.

(** ** Python runtime: exceptions *)

Module Py.

(** The built-in exceptions the aggregator can raise.  [EmptySequence] is the
    [ValueError] of [max()]/[min()] on an empty iterable; [NonFinite] is the
    [ValueError]/[OverflowError] of [round(x)] on a NaN or an infinity. *)
Inductive exn : Type :=
| ZeroDivisionError
| IndexError
| UnboundLocalError
| EmptySequence
| NonFinite.

Definition M (A : Type) : Type := (exn + A)%type.

Definition ret {A} (a : A) : M A := inr a.
Definition raise {A} (e : exn) : M A := inl e.
Definition bind {A B} (c : M A) (k : A -> M B) : M B :=
  match c with
  | inl e => inl e
  | inr a => k a
  end.

(** [[f(x) for x in l]] where [f] may raise: left to right, first failure wins. *)
Fixpoint mapM {A B} (f : A -> M B) (l : list A) : M (list B) :=
  match l with
  | [] => ret []
  | x :: l' =>
      bind (f x) (fun y => bind (mapM f l') (fun ys => ret (y :: ys)))
  end.

End Py.

Declare Scope py_scope.
Delimit Scope py_scope with py.
Notation "x <- c ;; k" := (Py.bind c (fun x => k))
  (at level 61, c at next level, right associativity) : py_scope.
Local Open Scope py_scope.

(** ** Python numbers

    The JSON numbers of a payload and the arithmetic the code performs on them
    ([+] inside [sum], true division [/], [<] inside [min]/[max], [round(x, 1)]
    and [round(x)]).  The code is duck-typed over the number type; it runs on
    CPython's [float] (instance [Binary64]) and equally on exact rationals such
    as [fractions.Fraction] (instance [Exact]). *)

Class Number (num : Type) : Type := {
  of_int : Z -> num;              (* an [int] operand, e.g. [len(...)] or [1000] *)
  add : num -> num -> num;        (* [x + y] *)
  true_div : num -> num -> num;   (* [x / y], divisor known to be non-zero *)
  lt : num -> num -> bool;        (* [x < y] *)
  round1 : num -> num;            (* [round(x, 1)] *)
  round0 : num -> option Z        (* [round(x)]; [None] when Python raises *)
}.

(** Nearest integer to [a / b] for [0 < b], ties to the even integer. *)
Definition rne_div (a b : Z) : Z :=
  let q := a / b in
  match 2 * (a mod b) ?= b with
  | Lt => q
  | Gt => q + 1
  | Eq => if Z.even q then q else q + 1
  end.

(** *** IEEE-754 binary64, as CPython's [float]

    Values are the standard library's [spec_float] at precision 53, and the
    operations are its [SFadd], [SFdiv] and [SFltb].  A JSON integer is taken
    as the float of the same value, which is exact below 2^53. *)

Module Binary64.

Definition prec : Z := 53.
Definition emax : Z := 1024.

Definition float : Type := spec_float.

(** The binary64 nearest to [(-1)^s * a / b] (ties to even), for [0 <= a]:
    how CPython converts a decimal literal and an [int / int] quotient. *)
Definition of_ratio (s : bool) (a : Z) (b : positive) : float :=
  match a with
  | Z0 => S754_zero s
  | _ =>
      let '(q, e, l) := SFdiv_core_binary prec emax a 0 (Zpos b) 0 in
      binary_round_aux prec emax s q e l
  end.

Definition of_Z (z : Z) : float := of_ratio (z <? 0) (Z.abs z) 1.

(** [round(x, 1)]: the exact value of [x] is rounded half-even to one decimal,
    and the decimal is converted back to the nearest binary64.  Floats with a
    non-negative exponent are integers and are returned as they are, as are
    zeros, infinities and NaN. *)
Definition round1 (x : float) : float :=
  match x with
  | S754_finite s m e =>
      if 0 <=? e then x
      else of_ratio s (rne_div (10 * Zpos m) (2 ^ (- e))) 10
  | _ => x
  end.

(** [round(x)]: half-even to an [int]; raises on NaN and infinities. *)
Definition round0 (x : float) : option Z :=
  match x with
  | S754_zero _ => Some 0
  | S754_finite s m e =>
      Some (cond_Zopp s (if 0 <=? e then Zpos m * 2 ^ e
                         else rne_div (Zpos m) (2 ^ (- e))))
  | _ => None
  end.

#[global] Instance number : Number float := {
  of_int := of_Z;
  add := SFadd prec emax;
  true_div := SFdiv prec emax;
  lt := SFltb;
  round1 := round1;
  round0 := round0
}.

(** The decimal literal [a / 10^k], e.g. [dec 5 2] is [0.05]. *)
Definition dec (a : Z) (k : nat) : float :=
  of_ratio (a <? 0) (Z.abs a) (Pos.pow 10 (Pos.of_nat k)).

(** [math.isfinite(x)], on a well-formed float: a zero, a subnormal or a
    normal number. *)
Definition is_finite (x : float) : bool :=
  match x with
  | S754_zero _ => true
  | S754_finite _ m e => bounded prec emax m e
  | _ => false
  end.

(** The value of a finite float in units of 2^-1074, the least positive
    binary64: an integer. *)
Definition scaled (x : float) : Z :=
  match x with
  | S754_finite s m e => cond_Zopp s (Zpos m * 2 ^ (e + 1074))
  | _ => 0
  end.

End Binary64.

(** *** Exact rationals *)

Module Exact.

Definition lt (x y : Q) : bool :=
  match (x ?= y)%Q with
  | Lt => true
  | _ => false
  end.

Definition round1 (x : Q) : Q := rne_div (10 * Qnum x) (Zpos (Qden x)) # 10.

Definition round0 (x : Q) : option Z := Some (rne_div (Qnum x) (Zpos (Qden x))).

#[global] Instance number : Number Q := {
  of_int := inject_Z;
  add := Qplus;
  true_div := Qdiv;
  lt := lt;
  round1 := round1;
  round0 := round0
}.

End Exact.

(** ** Python built-ins used by the client *)

(** [len(l)] as a Python [int]. *)
Definition len {A} (l : list A) : Z := Z.of_nat (List.length l).

Section Builtins.

Context {num : Type} {N : Number num}.

(** [sum(l)]: starts from the [int] 0 and adds the items left to right.
    (CPython 3.12 and later add a compensation term to this loop.) *)
Definition py_sum (l : list num) : num := fold_left add l (of_int 0).

(** [x / n] for an [int] divisor [n]. *)
Definition py_truediv (x : num) (n : Z) : Py.M num :=
  if n =? 0 then Py.raise Py.ZeroDivisionError
  else Py.ret (true_div x (of_int n)).

(** [round(x)]. *)
Definition py_round (x : num) : Py.M Z :=
  match round0 x with
  | Some z => Py.ret z
  | None => Py.raise Py.NonFinite
  end.

(** [min(l)]: the first item is kept until a strictly smaller one is met. *)
Fixpoint py_min_from (cur : num) (l : list num) : num :=
  match l with
  | [] => cur
  | x :: l' => py_min_from (if lt x cur then x else cur) l'
  end.

Definition py_min (l : list num) : Py.M num :=
  match l with
  | [] => Py.raise Py.EmptySequence
  | x :: l' => Py.ret (py_min_from x l')
  end.

(** [max(l)]: the first item is kept until a strictly greater one is met. *)
Fixpoint py_max_from (cur : num) (l : list num) : num :=
  match l with
  | [] => cur
  | x :: l' => py_max_from (if lt cur x then x else cur) l'
  end.

Definition py_max (l : list num) : Py.M num :=
  match l with
  | [] => Py.raise Py.EmptySequence
  | x :: l' => Py.ret (py_max_from x l')
  end.

(** [sum(l) / len(l)], when [l] is known to be non-empty. *)
Definition mean (l : list num) : num := true_div (py_sum l) (of_int (len l)).

End Builtins.

(** [max(l, key=key)] for an [int]-valued key. *)
Fixpoint py_max_key_from {A} (key : A -> nat) (cur : A) (l : list A) : A :=
  match l with
  | [] => cur
  | x :: l' => py_max_key_from key (if (key cur <? key x)%nat then x else cur) l'
  end.

Definition py_max_key {A} (key : A -> nat) (l : list A) : Py.M A :=
  match l with
  | [] => Py.raise Py.EmptySequence
  | x :: l' => Py.ret (py_max_key_from key x l')
  end.

(** [l[0]]. *)
Definition py_first {A} (l : list A) : Py.M A :=
  match l with
  | [] => Py.raise Py.IndexError
  | x :: _ => Py.ret x
  end.

(** [l[:n]]: a negative [n] counts from the end. *)
Definition py_slice_to {A} (l : list A) (n : Z) : list A :=
  if 0 <=? n then firstn (Z.to_nat n) l
  else firstn (Z.to_nat (len l + n)) l.

(** [l.count(x)] on strings. *)
Definition py_count (l : list string) (x : string) : nat :=
  count_occ string_dec l x.

(** [str(n)] for an [int]. *)
Definition str_of_int (n : Z) : string := NilZero.string_of_int (Z.to_int n).

(** [s.title()] on ASCII text: a letter that follows a letter is lowered,
    any other letter is raised; bytes outside [A-Za-z] are uncased. *)
Definition is_upper (c : ascii) : bool :=
  let n := nat_of_ascii c in ((65 <=? n) && (n <=? 90))%nat.
Definition is_lower (c : ascii) : bool :=
  let n := nat_of_ascii c in ((97 <=? n) && (n <=? 122))%nat.
Definition to_upper (c : ascii) : ascii :=
  if is_lower c then ascii_of_nat (nat_of_ascii c - 32) else c.
Definition to_lower (c : ascii) : ascii :=
  if is_upper c then ascii_of_nat (nat_of_ascii c + 32) else c.

Fixpoint title_from (previous_is_cased : bool) (s : string) : string :=
  match s with
  | EmptyString => EmptyString
  | String c s' =>
      if is_upper c || is_lower c
      then String (if previous_is_cased then to_lower c else to_upper c)
                  (title_from true s')
      else String c (title_from false s')
  end.

Definition title (s : string) : string := title_from false s.

(** *** Iteration order of [set(l)]

    CPython iterates a set of strings in hash-table order, and string hashes
    are salted per process: the order is some enumeration without repetition
    of the distinct items of [l], fixed within one run of the program. *)
Definition SetOrder (set_iter : list string -> list string) : Prop :=
  forall l, NoDup (set_iter l) /\ forall x, In x (set_iter l) <-> In x l.

(** Two admissible orders: first-seen order, and its reverse. *)
Fixpoint first_seen (l : list string) : list string :=
  match l with
  | [] => []
  | x :: l' => x :: filter (fun y => negb (String.eqb x y)) (first_seen l')
  end.

Definition last_seen_first (l : list string) : list string := rev (first_seen l).

(** ** Data model *)

(** The first entry of an item's ['weather'] list. *)
Record Weather : Type := {
  w_main : string;
  w_description : string;
  w_icon : string
}.

Section Aggregator.

Context {num : Type} {N : Number num}.

(** One 3-hour item of the forecast payload's ['list']:
    [item['dt']], [item['main']['temp']], [item['main']['humidity']],
    [item['wind']['speed']], [item['weather'][0]]. *)
Record Sample : Type := {
  dt : Z;
  temp : num;
  humidity : num;
  wind_speed : num;
  weather : Weather
}.

(** The dictionary built by [_aggregate_day_forecast]; [fd_date] is the
    ordinal of the calendar date. *)
Record ForecastDay : Type := {
  fd_date : Z;
  fd_temp_min : num;
  fd_temp_max : num;
  fd_temp_avg : num;
  fd_description : string;
  fd_main : string;
  fd_icon : string;
  fd_humidity : Z;
  fd_wind_speed : num
}.

(** [set(...)] iteration order of the running interpreter. *)
Variable set_iter : list string -> list string.

(** [datetime.fromtimestamp(ts).date()]: the local calendar date of an epoch
    time, as a day ordinal; it depends on the machine's time zone. *)
Variable local_date : Z -> Z.

Definition sample_date (item : Sample) : Z := local_date (dt item).

Definition conditions_of (day_data : list Sample) : list string :=
  map (fun item => w_main (weather item)) day_data.

(** [max(set(conditions), key=conditions.count)]. *)
Definition main_condition_of (conditions : list string) : Py.M string :=
  py_max_key (py_count conditions) (set_iter conditions).

(** The [for ... break] search: [description] and [icon] stay unbound when
    no item matches. *)
Definition first_matching (main_condition : string) (day_data : list Sample)
  : option Sample :=
  find (fun item => String.eqb (w_main (weather item)) main_condition) day_data.

Definition _aggregate_day_forecast (day_data : list Sample) : Py.M ForecastDay :=
  let temps := map temp day_data in
  let conditions := conditions_of day_data in
  main_condition <- main_condition_of conditions ;;
  let found := first_matching main_condition day_data in
  first <- py_first day_data ;;
  tmin <- py_min temps ;;
  tmax <- py_max temps ;;
  tavg <- py_truediv (py_sum temps) (len temps) ;;
  match found with
  | None => Py.raise Py.UnboundLocalError
  | Some item =>
      hmean <- py_truediv (py_sum (map humidity day_data)) (len day_data) ;;
      hum <- py_round hmean ;;
      wmean <- py_truediv (py_sum (map wind_speed day_data)) (len day_data) ;;
      Py.ret {| fd_date := sample_date first;
                fd_temp_min := round1 tmin;
                fd_temp_max := round1 tmax;
                fd_temp_avg := round1 tavg;
                fd_description := title (w_description (weather item));
                fd_main := main_condition;
                fd_icon := w_icon (weather item);
                fd_humidity := hum;
                fd_wind_speed := round1 wmean |}
  end.

(** *** [_process_forecast], generic in the per-day reduction *)

Section ProcessWith.

Variable R : Type.
Variable aggregate : list Sample -> Py.M R.
Variable days : Z.

(** The three locals of the loop. *)
Record Locals : Type := {
  daily_forecasts : list R;
  current_date : option Z;
  day_data : list Sample
}.

Definition is_nonempty {A} (l : list A) : bool :=
  match l with
  | [] => false
  | _ => true
  end.

(** [if day_data and len(daily_forecasts) < days: daily_forecasts.append(...)] *)
Definition append_day (st : Locals) : Py.M (list R) :=
  if is_nonempty (day_data st) && (len (daily_forecasts st) <? days)
  then r <- aggregate (day_data st) ;; Py.ret (daily_forecasts st ++ [r])
  else Py.ret (daily_forecasts st).

Definition date_differs (current : option Z) (forecast_date : Z) : bool :=
  match current with
  | None => true
  | Some d => negb (d =? forecast_date)
  end.

Definition loop_body (st : Locals) (item : Sample) : Py.M Locals :=
  let forecast_date := sample_date item in
  st' <- (if date_differs (current_date st) forecast_date
          then df <- append_day st ;;
               Py.ret {| daily_forecasts := df;
                         current_date := Some forecast_date;
                         day_data := [] |}
          else Py.ret st) ;;
  Py.ret {| daily_forecasts := daily_forecasts st';
            current_date := current_date st';
            day_data := day_data st' ++ [item] |}.

Fixpoint for_each (items : list Sample) (st : Locals) : Py.M Locals :=
  match items with
  | [] => Py.ret st
  | item :: rest => st' <- loop_body st item ;; for_each rest st'
  end.

Definition process_forecast_with (items : list Sample) : Py.M (list R) :=
  st <- for_each items {| daily_forecasts := [];
                          current_date := None;
                          day_data := [] |} ;;
  df <- append_day st ;;
  Py.ret (py_slice_to df days).

End ProcessWith.

(** [_process_forecast(data, days)], on [data['list']]. *)
Definition _process_forecast (items : list Sample) (days : Z)
  : Py.M (list ForecastDay) :=
  process_forecast_with ForecastDay _aggregate_day_forecast days items.

(** *** Runs: the partition the spec describes

    A run is a maximal block of adjacent samples with one calendar date: a
    new run starts exactly where the date differs from the previous sample's. *)
Fixpoint runs_from (run : list Sample) (d : Z) (items : list Sample)
  : list (list Sample) :=
  match items with
  | [] => [run]
  | item :: rest =>
      if sample_date item =? d then runs_from (run ++ [item]) d rest
      else run :: runs_from [item] (sample_date item) rest
  end.

Definition runs (items : list Sample) : list (list Sample) :=
  match items with
  | [] => []
  | item :: rest => runs_from [item] (sample_date item) rest
  end.

Definition run_date (run : list Sample) : Z :=
  match run with
  | [] => 0
  | item :: _ => sample_date item
  end.

End Aggregator.

Arguments Sample num : clear implicits.
Arguments ForecastDay num : clear implicits.
Arguments Locals num R : clear implicits.

Section Records.

Context {num : Type} {N : Number num}.

(** The record built for a run whose dominant condition is [c], matched first
    by [item], and whose rounded mean humidity is [hum]. *)
Definition day_record (local_date : Z -> Z) (x : Sample num) (rest : list (Sample num))
    (c : string) (item : Sample num) (hum : Z) : ForecastDay num :=
  let run := x :: rest in
  {| fd_date := sample_date local_date x;
     fd_temp_min := round1 (py_min_from (temp x) (map temp rest));
     fd_temp_max := round1 (py_max_from (temp x) (map temp rest));
     fd_temp_avg := round1 (mean (map temp run));
     fd_description := title (w_description (weather item));
     fd_main := c;
     fd_icon := w_icon (weather item);
     fd_humidity := hum;
     fd_wind_speed := round1 (mean (map wind_speed run)) |}.

(** The rounded mean humidity of a run is defined. *)
Definition humidity_defined (run : list (Sample num)) : Prop :=
  exists hum, round0 (mean (map humidity run)) = Some hum.

(** A check that computes. *)
Definition humidity_definedb (run : list (Sample num)) : bool :=
  match round0 (mean (map humidity run)) with
  | Some _ => true
  | None => false
  end.

End Records.

(** Days still wanted by [_process_forecast] once [daily] are in. *)
Definition budget {R : Type} (days : Z) (daily : list R) : nat :=
  Z.to_nat (days - len daily).

(** No two neighbours of a list are equal. *)
Fixpoint changes (ds : list Z) : Prop :=
  match ds with
  | a :: (b :: _) as rest => a <> b /\ changes rest
  | _ => True
  end.

(** ** Field mapper for the current-weather payload *)

Section FieldMapper.

Context {num : Type} {N : Number num}.

(** The keys [_process_current_weather] reads.  ['deg'] and ['visibility'] are
    read with [.get] and may be absent; humidity, pressure, cloud cover, wind
    direction and the time-zone offset are integers in the provider's schema. *)
Record CurrentPayload : Type := {
  p_name : string;
  p_country : string;
  p_temp : num;
  p_feels_like : num;
  p_temp_min : num;
  p_temp_max : num;
  p_humidity : Z;
  p_pressure : Z;
  p_wind_speed : num;
  p_wind_deg : option Z;
  p_weather : Weather;
  p_clouds : Z;
  p_visibility : option num;
  p_sunrise : Z;
  p_sunset : Z;
  p_timezone : Z
}.

(** The dictionary it returns; the three instants are UTC epoch seconds. *)
Record WeatherSnapshot : Type := {
  city : string;
  country : string;
  temperature : num;
  feels_like : num;
  temp_min : num;
  temp_max : num;
  ws_humidity : Z;
  pressure : Z;
  ws_wind_speed : num;
  wind_direction : Z;
  description : string;
  main : string;
  icon : string;
  clouds : Z;
  visibility : num;
  sunrise : Z;
  sunset : Z;
  timezone : Z;
  timestamp : Z
}.

(** [d.get(key, default)]. *)
Definition get_default {A} (v : option A) (default : A) : A :=
  match v with
  | Some a => a
  | None => default
  end.

(** [now] is [datetime.now(pytz.UTC)]. *)
Definition _process_current_weather (now : Z) (data : CurrentPayload)
  : WeatherSnapshot :=
  {| city := p_name data;
     country := p_country data;
     temperature := round1 (p_temp data);
     feels_like := round1 (p_feels_like data);
     temp_min := round1 (p_temp_min data);
     temp_max := round1 (p_temp_max data);
     ws_humidity := p_humidity data;
     pressure := p_pressure data;
     ws_wind_speed := round1 (p_wind_speed data);
     wind_direction := get_default (p_wind_deg data) 0;
     description := title (w_description (p_weather data));
     main := w_main (p_weather data);
     icon := w_icon (p_weather data);
     clouds := p_clouds data;
     visibility := true_div (get_default (p_visibility data) (of_int 0))
                            (of_int 1000);
     sunrise := p_sunrise data;
     sunset := p_sunset data;
     timezone := p_timezone data;
     timestamp := now |}.

End FieldMapper.

Arguments CurrentPayload num : clear implicits.
Arguments WeatherSnapshot num : clear implicits.

(** ** Configuration ([config.py]) *)

Fixpoint lower (s : string) : string :=
  match s with
  | EmptyString => EmptyString
  | String c s' => String (to_lower c) (lower s')
  end.

Record Config : Type := {
  api_key : option string;
  base_url : string;
  default_city : string;
  cfg_temperature_unit : string;
  current_weather_url : string;
  forecast_url : string
}.

(** [Config.__init__], from the three environment variables. *)
Definition Config_init (OPENWEATHER_API_KEY DEFAULT_CITY TEMPERATURE_UNIT : option string)
  : Config :=
  let base := "https://api.openweathermap.org/data/2.5"%string in
  {| api_key := OPENWEATHER_API_KEY;
     base_url := base;
     default_city := get_default DEFAULT_CITY "London"%string;
     cfg_temperature_unit := lower (get_default TEMPERATURE_UNIT "celsius"%string);
     current_weather_url := (base ++ "/weather")%string;
     forecast_url := (base ++ "/forecast")%string |}.

(** ** Fetcher ([WeatherAPIClient]) *)

(** What [session.get(url, params=..., timeout=10)] is called with. *)
Record Request : Type := {
  url : string;
  q : string;
  units : string;
  cnt : option Z;
  timeout : Z
}.

(** What the call does: a response, or one of the [requests] exceptions.
    [json] is the decoded body, read only on status 200. *)
Inductive Outcome (P : Type) : Type :=
| Response (status_code : Z) (text : string) (json : P)
| Timeout (e : string)
| ConnectionError (e : string)
| RequestException (e : string).

Arguments Response {P}.
Arguments Timeout {P}.
Arguments ConnectionError {P}.
Arguments RequestException {P}.

(** How a client method ends: it returns, raises [WeatherAPIError(msg)], or
    lets a built-in exception through. *)
Inductive Result (A : Type) : Type :=
| Returned (a : A)
| WeatherAPIError (msg : string)
| Uncaught (e : Py.exn).

Arguments Returned {A}.
Arguments WeatherAPIError {A}.
Arguments Uncaught {A}.

Section Client.

Context {num : Type} {N : Number num}.

Variable config : Config.
Variable set_iter : list string -> list string.
Variable local_date : Z -> Z.

(** The parameters [get_current_weather] sends. *)
Definition current_params (city units : string) : Request :=
  {| url := current_weather_url config;
     q := city; units := units; cnt := None; timeout := 10 |}.

Definition get_current_weather
    (session_get : Request -> Outcome (CurrentPayload num)) (now : Z)
    (city : string) (units : string) : Result (WeatherSnapshot num) :=
  match session_get (current_params city units) with
  | Response status text data =>
      if status =? 404 then
        WeatherAPIError ("City '" ++ city ++ "' not found. Please check the spelling.")
      else if status =? 401 then
        WeatherAPIError "Invalid API key. Please check your configuration."
      else if negb (status =? 200) then
        WeatherAPIError ("API error: " ++ str_of_int status ++ " - " ++ text)
      else Returned (_process_current_weather now data)
  | Timeout _ =>
      WeatherAPIError "Request timed out. Please check your internet connection."
  | ConnectionError _ =>
      WeatherAPIError "Connection error. Please check your internet connection."
  | RequestException e => WeatherAPIError ("Network error: " ++ e)
  end.

(** The parameters [get_forecast] sends. *)
Definition forecast_params (city units : string) (days : Z) : Request :=
  {| url := forecast_url config;
     q := city; units := units;
     cnt := Some (Z.min (days * 8) 40);
     timeout := 10 |}.

Definition get_forecast
    (session_get : Request -> Outcome (list (Sample num)))
    (city : string) (units : string) (days : Z)
  : Result (list (ForecastDay num)) :=
  match session_get (forecast_params city units days) with
  | Response status text data =>
      if status =? 404 then
        WeatherAPIError ("City '" ++ city ++ "' not found for forecast.")
      else if negb (status =? 200) then
        WeatherAPIError ("Forecast API error: " ++ str_of_int status)
      else
        match _process_forecast set_iter local_date data days with
        | inr forecast => Returned forecast
        | inl e => Uncaught e
        end
  | Timeout e | ConnectionError e | RequestException e =>
      WeatherAPIError ("Forecast fetch error: " ++ e)
  end.

End Client.

(** *** The spec's fault names, read off the messages the client raises *)

Inductive Fault : Type :=
| NotFound (city : string)
| Unauthorized
| TimedOut
| ConnectionFailure
| ProviderError (status : Z)
| Unexpected.

Inductive classifies : string -> Fault -> Prop :=
| cl_not_found city :
    classifies ("City '" ++ city ++ "' not found. Please check the spelling.")
               (NotFound city)
| cl_not_found_forecast city :
    classifies ("City '" ++ city ++ "' not found for forecast.") (NotFound city)
| cl_unauthorized :
    classifies "Invalid API key. Please check your configuration." Unauthorized
| cl_timeout :
    classifies "Request timed out. Please check your internet connection." TimedOut
| cl_connection :
    classifies "Connection error. Please check your internet connection."
               ConnectionFailure
| cl_api_error status text :
    classifies ("API error: " ++ str_of_int status ++ " - " ++ text)
               (ProviderError status)
| cl_forecast_api_error status :
    classifies ("Forecast API error: " ++ str_of_int status) (ProviderError status)
| cl_network e : classifies ("Network error: " ++ e) Unexpected
| cl_forecast_fetch e : classifies ("Forecast fetch error: " ++ e) Unexpected.

Definition raises {A} (r : Result A) (f : Fault) : Prop :=
  exists msg, r = WeatherAPIError msg /\ classifies msg f.

(** ** The interactive session ([WeatherApp]) *)

Section App.

Context {num : Type} {N : Number num}.

(** What the display is asked to show. *)
Inductive DisplayEvent : Type :=
| show_loading (msg : string)
| clear_screen
| display_current_weather (w : WeatherSnapshot num) (unit_ : string)
| show_error (msg : string)
| show_unexpected (e : Py.exn)
| console_print (msg : string).

Record WeatherApp : Type := {
  current_city : string;
  temperature_unit : string;
  current_weather : option (WeatherSnapshot num);
  forecast_data : option (list (ForecastDay num));
  shown : list DisplayEvent
}.

(** [WeatherApp.__init__]. *)
Definition WeatherApp_init (config : Config) : WeatherApp :=
  {| current_city := default_city config;
     temperature_unit := cfg_temperature_unit config;
     current_weather := None;
     forecast_data := None;
     shown := [] |}.

Definition display (ev : DisplayEvent) (app : WeatherApp) : WeatherApp :=
  {| current_city := current_city app;
     temperature_unit := temperature_unit app;
     current_weather := current_weather app;
     forecast_data := forecast_data app;
     shown := shown app ++ [ev] |}.

(** [api] is [self.api_client.get_current_weather]. *)
Variable api : string -> string -> Result (WeatherSnapshot num).

Definition api_units (app : WeatherApp) : string :=
  if String.eqb (temperature_unit app) "celsius" then "metric" else "imperial".

Definition fetch_weather (city : string) (app : WeatherApp) : WeatherApp :=
  let app := display (show_loading ("Fetching weather for " ++ city ++ "...")) app in
  match api city (api_units app) with
  | Returned w =>
      let app := {| current_city := city;
                    temperature_unit := temperature_unit app;
                    current_weather := Some w;
                    forecast_data := forecast_data app;
                    shown := shown app |} in
      display (display_current_weather w (temperature_unit app))
              (display clear_screen app)
  | WeatherAPIError msg => display (show_error msg) app
  | Uncaught e => display (show_unexpected e) app
  end.

Definition set_unit (u : string) (app : WeatherApp) : WeatherApp :=
  {| current_city := current_city app;
     temperature_unit := u;
     current_weather := current_weather app;
     forecast_data := forecast_data app;
     shown := shown app |}.

(** The console markup and the non-ASCII signs of the printed line are left
    out of [unit_display] and of the message. *)
Definition toggle_temperature_unit (app : WeatherApp) : WeatherApp :=
  let '(app, unit_display) :=
    if String.eqb (temperature_unit app) "celsius"
    then (set_unit "fahrenheit" app, "Fahrenheit (F)"%string)
    else (set_unit "celsius" app, "Celsius (C)"%string) in
  let app := display (console_print ("Switched to " ++ unit_display)) app in
  if String.eqb (current_city app) "" then app
  else fetch_weather (current_city app) app.

End App.

Arguments WeatherApp num : clear implicits.
Arguments DisplayEvent num : clear implicits.

Local Open Scope string_scope.

(** ** Text: [str.strip] *)

(** ASCII white space, as [str.isspace] has it. *)
Definition is_space (c : ascii) : bool :=
  let n := nat_of_ascii c in
  (((9 <=? n) && (n <=? 13)) || ((28 <=? n) && (n <=? 32)))%nat.

Fixpoint lstrip (s : string) : string :=
  match s with
  | EmptyString => EmptyString
  | String c s' => if is_space c then lstrip s' else s
  end.

Fixpoint rstrip (s : string) : string :=
  match s with
  | EmptyString => EmptyString
  | String c s' =>
      match rstrip s' with
      | EmptyString => if is_space c then EmptyString else String c EmptyString
      | r => String c r
      end
  end.

(** [s.strip()]. *)
Definition strip (s : string) : string := rstrip (lstrip s).

(** The string holds nothing but white space. *)
Fixpoint all_space (s : string) : bool :=
  match s with
  | EmptyString => true
  | String c s' => is_space c && all_space s'
  end.

(** The text is ASCII.  On such text [strip], [title] and [lower] are
    [str.strip], [str.title] and [str.lower], and [String.length] is [len]. *)
Fixpoint ascii_text (s : string) : bool :=
  match s with
  | EmptyString => true
  | String c s' => (nat_of_ascii c <? 128)%nat && ascii_text s'
  end.

(** ** Dates of a sample sequence with adjacent repeats collapsed *)

Fixpoint collapse (ds : list Z) : list Z :=
  match ds with
  | [] => []
  | d :: rest =>
      match rest with
      | [] => [d]
      | d' :: _ => if (d =? d')%Z then collapse rest else d :: collapse rest
      end
  end.

(** ** Display tables ([WeatherDisplay]) *)

(** [d.get(key, default)] on a dictionary written as its item list. *)
Definition dict_get (d : list (string * string)) (key default : string) : string :=
  match find (fun kv => String.eqb (fst kv) key) d with
  | Some kv => snd kv
  | None => default
  end.

Definition dict_keys (d : list (string * string)) : list string := map fst d.

Definition WEATHER_ICONS : list (string * string) :=
  [("Clear", "☀️"); ("Clouds", "☁️"); ("Rain", "🌧️"); ("Drizzle", "🌦️");
   ("Thunderstorm", "⛈️"); ("Snow", "❄️"); ("Mist", "🌫️"); ("Fog", "🌫️");
   ("Haze", "🌫️"); ("Smoke", "💨"); ("Dust", "💨"); ("Sand", "💨");
   ("Ash", "🌋"); ("Squall", "💨"); ("Tornado", "🌪️")]%string.

Definition WEATHER_COLORS : list (string * string) :=
  [("Clear", "yellow"); ("Clouds", "bright_white"); ("Rain", "blue");
   ("Drizzle", "cyan"); ("Thunderstorm", "magenta"); ("Snow", "white");
   ("Mist", "bright_black"); ("Fog", "bright_black");
   ("Haze", "bright_black")]%string.

(** The three choices [display_current_weather] makes before it renders. *)
Definition unit_symbol (unit_ : string) : string :=
  if String.eqb unit_ "celsius" then "°C"%string else "°F"%string.

Definition icon_of (main_condition : string) : string :=
  dict_get WEATHER_ICONS main_condition "🌡️".

Definition color_of (main_condition : string) : string :=
  dict_get WEATHER_COLORS main_condition "white".

(** ** Start-up ([Config.validate], [WeatherAPIClient.__init__]) *)

(** [inl msg] is [ValueError(msg)]; an empty key is as false as a missing one. *)
Definition validate (c : Config) : string + bool :=
  match api_key c with
  | None | Some EmptyString =>
      inl "API key not found. Please set OPENWEATHER_API_KEY in .env file"%string
  | Some _ => inr true
  end.

(** The client keeps the key; its session sends it as ['appid'] with every
    request. *)
Record WeatherAPIClient : Type := { appid : string }.

Definition WeatherAPIClient_init (c : Config) : string + WeatherAPIClient :=
  match validate c with
  | inl msg => inl msg
  | inr _ => inr {| appid := get_default (api_key c) EmptyString |}
  end.

(** ** The menu loop ([WeatherApp.run]) and [main] *)

Section Session.

Context {num : Type} {N : Number num}.

Variable config : Config.
Variable set_iter : list string -> list string.
Variable local_date : Z -> Z.

(** The outside world: what the [n]-th request of the process meets at each
    endpoint, and the UTC time at which its answer is processed. *)
Record World : Type := {
  current_endpoint : nat -> string -> Request -> Outcome (CurrentPayload num);
  forecast_endpoint : nat -> string -> Request -> Outcome (list (Sample num));
  clock : nat -> Z
}.

Variable world : World.
Variable client : WeatherAPIClient.

(** Everything the terminal is asked to do, in order. *)
Inductive ScreenEvent : Type :=
| by_app (ev : DisplayEvent num)
| display_forecast (forecast : list (ForecastDay num)) (unit_ : string)
| display_welcome
| display_menu
| get_input (prompt : string)
| builtin_print (msg : string).

(** The session: the application object (whose own display log is moved to
    [s_screen] after every call), the terminal log, and the number of requests
    sent so far. *)
Record Session : Type := {
  s_app : WeatherApp num;
  s_screen : list ScreenEvent;
  s_requests : nat
}.

Definition log (ev : ScreenEvent) (s : Session) : Session :=
  {| s_app := s_app s;
     s_screen := (s_screen s ++ [ev])%list;
     s_requests := s_requests s |}.

Definition clear_shown (app : WeatherApp num) : WeatherApp num :=
  {| current_city := current_city app;
     temperature_unit := temperature_unit app;
     current_weather := current_weather app;
     forecast_data := forecast_data app;
     shown := [] |}.

(** Take over the application object after a call that sent [sent] requests. *)
Definition absorb (app : WeatherApp num) (sent : nat) (s : Session) : Session :=
  {| s_app := clear_shown app;
     s_screen := (s_screen s ++ map by_app (shown app))%list;
     s_requests := s_requests s + sent |}.

(** [self.api_client.get_current_weather] as the next request would find it. *)
Definition current_api (s : Session)
  : string -> string -> Result (WeatherSnapshot num) :=
  get_current_weather config
    (current_endpoint world (s_requests s) (appid client))
    (clock world (s_requests s)).

Definition session_fetch_weather (city : string) (s : Session) : Session :=
  absorb (fetch_weather (current_api s) city (s_app s)) 1 s.

(** [search_city], on the line the user typed. *)
Definition search_city (typed : string) (s : Session) : Session :=
  let s := log (get_input "Enter city name (e.g., London or London,UK):") s in
  if String.eqb typed "" || String.eqb (strip typed) ""
  then log (by_app (show_error "City name cannot be empty.")) s
  else session_fetch_weather (strip typed) s.

Definition session_toggle_temperature_unit (s : Session) : Session :=
  absorb (toggle_temperature_unit (current_api s) (s_app s))
         (if String.eqb (current_city (s_app s)) "" then 0 else 1) s.

Definition refresh_weather (s : Session) : Session :=
  if String.eqb (current_city (s_app s)) ""
  then log (by_app (show_error
                      "No city selected. Please search for a city first.")) s
  else session_fetch_weather (current_city (s_app s)) s.

Definition set_forecast_data (f : list (ForecastDay num)) (s : Session)
  : Session :=
  {| s_app := {| current_city := current_city (s_app s);
                 temperature_unit := temperature_unit (s_app s);
                 current_weather := current_weather (s_app s);
                 forecast_data := Some f;
                 shown := shown (s_app s) |};
     s_screen := s_screen s;
     s_requests := s_requests s |}.

Definition sent_one (s : Session) : Session :=
  {| s_app := s_app s; s_screen := s_screen s; s_requests := S (s_requests s) |}.

Definition show_forecast (s : Session) : Session :=
  let app := s_app s in
  if String.eqb (current_city app) ""
  then log (by_app (show_error
                      "No city selected. Please search for a city first.")) s
  else
    let s1 := log (by_app (show_loading
                             ("Fetching forecast for " ++ current_city app ++ "...")))
                  s in
    match get_forecast config set_iter local_date
                       (forecast_endpoint world (s_requests s) (appid client))
                       (current_city app) (api_units app) 5 with
    | Returned f =>
        let s2 := log (by_app clear_screen) (set_forecast_data f (sent_one s1)) in
        let s3 := match current_weather app with
                  | Some w =>
                      log (by_app (display_current_weather w (temperature_unit app)))
                          s2
                  | None => s2
                  end in
        log (display_forecast f (temperature_unit app)) s3
    | WeatherAPIError msg => log (by_app (show_error msg)) (sent_one s1)
    | Uncaught e => log (by_app (show_unexpected e)) (sent_one s1)
    end.

(** What the user does at a prompt. *)
Inductive Input : Type :=
| typed_line (line : string)
| ctrl_c
| end_of_input.

(** How [run] stands after the inputs given: still at a prompt, or left by
    [sys.exit], by [KeyboardInterrupt] or by the [EOFError] of [input()]. *)
Inductive Ending : Type :=
| at_prompt
| SystemExit (code : Z)
| KeyboardInterrupt
| EOFError.

Definition choice_prompt : string := "Enter your choice (1-5):".

Definition city_prompt : string := "Enter city name (e.g., London or London,UK):".

(** [exit_app]: the farewell line (without its markup), then [sys.exit(0)]. *)
Definition exit_app (s : Session) : Session * Ending :=
  (log (by_app (console_print "Thank you for using Weather App! Stay safe!")) s,
   SystemExit 0).

(** The [while True] loop, run on the inputs available. *)
Fixpoint menu_loop (inputs : list Input) (s : Session) : Session * Ending :=
  let s := log (get_input choice_prompt) (log display_menu s) in
  match inputs with
  | [] => (s, at_prompt)
  | ctrl_c :: _ => (s, KeyboardInterrupt)
  | end_of_input :: _ => (s, EOFError)
  | typed_line choice :: rest =>
      if String.eqb choice "1" then
        match rest with
        | [] => (log (get_input city_prompt) s, at_prompt)
        | ctrl_c :: _ => (log (get_input city_prompt) s, KeyboardInterrupt)
        | end_of_input :: _ => (log (get_input city_prompt) s, EOFError)
        | typed_line city :: rest' => menu_loop rest' (search_city city s)
        end
      else if String.eqb choice "2" then
        menu_loop rest (session_toggle_temperature_unit s)
      else if String.eqb choice "3" then menu_loop rest (refresh_weather s)
      else if String.eqb choice "4" then menu_loop rest (show_forecast s)
      else if String.eqb choice "5" then exit_app s
      else
        menu_loop rest
          (log (by_app (show_error
                   "Invalid choice. Please enter a number between 1 and 5.")) s)
  end.

(** A session that has shown nothing and sent nothing. *)
Definition new_session (app : WeatherApp num) : Session :=
  {| s_app := clear_shown app; s_screen := []; s_requests := 0 |}.

(** [run]: clear, welcome, fetch the default city, then the loop. *)
Definition run (inputs : list Input) (s : Session) : Session * Ending :=
  let s := log display_welcome (log (by_app clear_screen) s) in
  menu_loop inputs (session_fetch_weather (current_city (s_app s)) s).

End Session.

Arguments World num : clear implicits.
Arguments ScreenEvent num : clear implicits.
Arguments Session num : clear implicits.

(** [main]: the terminal log, the requests sent, and the exit status if the
    process has ended.  Whether the client can be built depends on the
    configuration alone.  The printed lines are given without their emoji. *)
Definition app_main {num : Type} {N : Number num} (config : Config)
    (set_iter : list string -> list string) (local_date : Z -> Z)
    (world : World num) (inputs : list Input)
  : list (ScreenEvent num) * nat * option Z :=
  match WeatherAPIClient_init config with
  | inl msg => ([builtin_print ("Fatal error: " ++ msg)], 0%nat, Some 1)
  | inr client =>
      let '(s, ending) :=
        run config set_iter local_date world client inputs
            (new_session (WeatherApp_init config)) in
      match ending with
      | at_prompt => (s_screen s, s_requests s, None)
      | SystemExit code => (s_screen s, s_requests s, Some code)
      | KeyboardInterrupt =>
          ((s_screen s ++ [builtin_print "Goodbye!"])%list, s_requests s,
           Some 0)
      | EOFError =>
          ((s_screen s
            ++ [builtin_print "Fatal error: EOF when reading a line"])%list,
           s_requests s, Some 1)
      end
  end.

(** * The same program, with the library calls that raise

    The embedding above lets three library calls return always.  In the
    source they can raise:
    - [datetime.fromtimestamp], on a timestamp that has no date;
    - the console of [rich], on a text whose markup it refuses: [show_loading]
      and [show_error] put a city name, a provider message or an exception
      text between markup tags, and a closing tag inside that text is a
      [MarkupError];
    - [Text.append], which [display_current_weather] calls with a keyword
      argument it does not have: a [TypeError], on every call.
    The module below embeds the same functions with these calls as the source
    has them.  What the libraries answer on a given timestamp or text is a
    parameter. *)

Module Raising.

(** The exceptions derived from [Exception] that the program meets.
    [OutOfRange] is the [ValueError], [OverflowError] or [OSError] of
    [datetime.fromtimestamp]; [Builtin] is an exception of the aggregator's
    built-ins. *)
Inductive Exception : Type :=
| WeatherAPIError (msg : string)
| ValueError (msg : string)
| OutOfRange (ts : Z)
| Builtin (e : Py.exn)
| MarkupError (markup : string)
| TypeError
| EOFError.

Definition M (A : Type) : Type := (Exception + A)%type.

Definition bind {A B} (c : M A) (k : A -> M B) : M B :=
  match c with
  | inl e => inl e
  | inr a => k a
  end.

(** A computation of the built-ins, inside the program. *)
Definition lift {A} (c : Py.M A) : M A :=
  match c with
  | inl e => inl (Builtin e)
  | inr a => inr a
  end.

(** For a conversion [local_date] of timestamps to dates that answers [None]
    where [datetime.fromtimestamp] raises: the timestamp has a date, and the
    date of a timestamp that has one. *)
Definition has_date (local_date : Z -> option Z) (ts : Z) : bool :=
  match local_date ts with
  | Some _ => true
  | None => false
  end.

Definition dated (local_date : Z -> option Z) (ts : Z) : Z :=
  match local_date ts with
  | Some d => d
  | None => 0
  end.

(** ** [WeatherAPIClient] *)

Section Client.

Context {num : Type} {N : Number num}.

Variable config : Config.
Variable set_iter : list string -> list string.

(** [datetime.fromtimestamp(ts).date()] as a day ordinal; [None] when the
    call raises. *)
Variable local_date : Z -> option Z.

(** [datetime.fromtimestamp(ts, tz=pytz.UTC)] returns. *)
Variable utc_time : Z -> bool.

Definition date_of (ts : Z) : M Z :=
  match local_date ts with
  | Some d => inr d
  | None => inl (OutOfRange ts)
  end.

Definition _aggregate_day_forecast (day_data : list (Sample num))
  : M (ForecastDay num) :=
  let temps := map temp day_data in
  let conditions := conditions_of day_data in
  bind (lift (main_condition_of set_iter conditions)) (fun main_condition =>
  let found := first_matching main_condition day_data in
  bind (lift (py_first day_data)) (fun first =>
  bind (date_of (dt first)) (fun date =>
  bind (lift (py_min temps)) (fun tmin =>
  bind (lift (py_max temps)) (fun tmax =>
  bind (lift (py_truediv (py_sum temps) (len temps))) (fun tavg =>
  match found with
  | None => inl (Builtin Py.UnboundLocalError)
  | Some item =>
      bind (lift (py_truediv (py_sum (map humidity day_data)) (len day_data)))
           (fun hmean =>
      bind (lift (py_round hmean)) (fun hum =>
      bind (lift (py_truediv (py_sum (map wind_speed day_data)) (len day_data)))
           (fun wmean =>
      inr {| fd_date := date;
             fd_temp_min := round1 tmin;
             fd_temp_max := round1 tmax;
             fd_temp_avg := round1 tavg;
             fd_description := title (w_description (weather item));
             fd_main := main_condition;
             fd_icon := w_icon (weather item);
             fd_humidity := hum;
             fd_wind_speed := round1 wmean |})))
  end)))))).

Section ProcessWith.

Variable R : Type.
Variable aggregate : list (Sample num) -> M R.
Variable days : Z.

Definition append_day (st : Locals num R) : M (list R) :=
  if is_nonempty (day_data R st) && (len (daily_forecasts R st) <? days)%Z
  then bind (aggregate (day_data R st))
            (fun r => inr (daily_forecasts R st ++ [r])%list)
  else inr (daily_forecasts R st).

Definition loop_body (st : Locals num R) (item : Sample num)
  : M (Locals num R) :=
  bind (date_of (dt item)) (fun forecast_date =>
  bind (if date_differs (current_date R st) forecast_date
        then bind (append_day st) (fun df =>
             inr {| daily_forecasts := df;
                    current_date := Some forecast_date;
                    day_data := [] |})
        else inr st) (fun st' =>
  inr {| daily_forecasts := daily_forecasts R st';
         current_date := current_date R st';
         day_data := (day_data R st' ++ [item])%list |})).

Fixpoint for_each (items : list (Sample num)) (st : Locals num R)
  : M (Locals num R) :=
  match items with
  | [] => inr st
  | item :: rest => bind (loop_body st item) (for_each rest)
  end.

Definition process_forecast_with (items : list (Sample num)) : M (list R) :=
  bind (for_each items {| daily_forecasts := [];
                          current_date := None;
                          day_data := [] |}) (fun st =>
  bind (append_day st) (fun df =>
  inr (py_slice_to df days))).

End ProcessWith.

Definition _process_forecast (items : list (Sample num)) (days : Z)
  : M (list (ForecastDay num)) :=
  process_forecast_with (ForecastDay num) _aggregate_day_forecast days items.

(** The dictionary literal evaluates ['sunrise'] and then ['sunset'] after
    the entries that cannot raise. *)
Definition _process_current_weather (now : Z) (data : CurrentPayload num)
  : M (WeatherSnapshot num) :=
  if utc_time (p_sunrise data) then
    if utc_time (p_sunset data) then inr (_process_current_weather now data)
    else inl (OutOfRange (p_sunset data))
  else inl (OutOfRange (p_sunrise data)).

(** The [except] clauses name three [requests] exceptions; whatever else the
    body raises passes them. *)
Definition get_current_weather
    (session_get : Request -> Outcome (CurrentPayload num)) (now : Z)
    (city : string) (units : string) : M (WeatherSnapshot num) :=
  match session_get (current_params config city units) with
  | Response status text data =>
      if (status =? 404)%Z then
        inl (WeatherAPIError
               ("City '" ++ city ++ "' not found. Please check the spelling."))
      else if (status =? 401)%Z then
        inl (WeatherAPIError "Invalid API key. Please check your configuration.")
      else if negb (status =? 200)%Z then
        inl (WeatherAPIError
               ("API error: " ++ str_of_int status ++ " - " ++ text))
      else _process_current_weather now data
  | Timeout _ =>
      inl (WeatherAPIError
             "Request timed out. Please check your internet connection.")
  | ConnectionError _ =>
      inl (WeatherAPIError
             "Connection error. Please check your internet connection.")
  | RequestException e => inl (WeatherAPIError ("Network error: " ++ e))
  end.

Definition get_forecast
    (session_get : Request -> Outcome (list (Sample num)))
    (city : string) (units : string) (days : Z)
  : M (list (ForecastDay num)) :=
  match session_get (forecast_params config city units days) with
  | Response status text data =>
      if (status =? 404)%Z then
        inl (WeatherAPIError ("City '" ++ city ++ "' not found for forecast."))
      else if negb (status =? 200)%Z then
        inl (WeatherAPIError ("Forecast API error: " ++ str_of_int status))
      else _process_forecast data days
  | Timeout e | ConnectionError e | RequestException e =>
      inl (WeatherAPIError ("Forecast fetch error: " ++ e))
  end.

End Client.

(** ** [WeatherDisplay] and [WeatherApp] *)

Section Program.

Context {num : Type} {N : Number num}.

Variable config : Config.
Variable set_iter : list string -> list string.
Variable local_date : Z -> option Z.
Variable utc_time : Z -> bool.
Variable world : World num.
Variable client : WeatherAPIClient.

(** [rich] renders the markup of this text; otherwise it raises
    [MarkupError]. *)
Variable markup_ok : string -> bool.

(** [str(e)] for an exception of a library. *)
Variable library_text : Exception -> string.

Definition str (e : Exception) : string :=
  match e with
  | WeatherAPIError msg | ValueError msg => msg
  | _ => library_text e
  end.

(** What the terminal has shown, in order. *)
Inductive Shown : Type :=
| loading (message : string)
| error (error_message : string)
| cleared
| welcome
| menu
| prompt (text : string)
| printed (text : string)
| forecast_table (forecast : list (ForecastDay num)) (unit_ : string).

(** The running process: the application object (its [shown] field is not
    used here), the terminal, and the number of requests sent. *)
Record Process : Type := {
  app : WeatherApp num;
  screen : list Shown;
  requests : nat
}.

(** How a call ends: it returns, an [Exception] propagates, or one of
    [KeyboardInterrupt] and [SystemExit] does; [Blocked] is a prompt that
    waits when the inputs given are used up. *)
Inductive Control : Type :=
| Done
| Raise (e : Exception)
| Interrupt
| Exit (code : Z)
| Blocked.

Definition show (ev : Shown) (p : Process) : Process :=
  {| app := app p; screen := (screen p ++ [ev])%list; requests := requests p |}.

Definition set_app (a : WeatherApp num) (p : Process) : Process :=
  {| app := a; screen := screen p; requests := requests p |}.

(** One more [session.get]. *)
Definition sent (p : Process) : Process :=
  {| app := app p; screen := screen p; requests := S (requests p) |}.

(** The next statement runs only if the call returned. *)
Definition andthen (r : Process * Control)
    (k : Process -> Process * Control) : Process * Control :=
  match r with
  | (p, Done) => k p
  | _ => r
  end.

(** [console.print] of a text with markup. *)
Definition render (markup : string) (ev : Shown) (p : Process)
  : Process * Control :=
  if markup_ok markup then (show ev p, Done)
  else (p, Raise (MarkupError markup)).

Definition newline : string := String "010" EmptyString.

(** The text [show_loading] prints, and the text of the panel of
    [show_error]. *)
Definition loading_markup (message : string) : string :=
  newline ++ "[bold cyan]⏳ " ++ message ++ "[/bold cyan]".

Definition error_markup (error_message : string) : string :=
  "[bold red]❌ " ++ error_message ++ "[/bold red]".

Definition show_loading (message : string) : Process -> Process * Control :=
  render (loading_markup message) (loading message).

Definition show_error (error_message : string) : Process -> Process * Control :=
  render (error_markup error_message) (error error_message).

(** [content.append(..., justify="center")] raises before anything is
    printed. *)
Definition display_current_weather (weather : WeatherSnapshot num)
    (unit_ : string) (p : Process) : Process * Control :=
  (p, Raise TypeError).

(** The second cell of a row is the only one that holds free text. *)
Definition weather_cell (day : ForecastDay num) : string :=
  icon_of (fd_main day) ++ " " ++ fd_description day.

Definition display_forecast (forecast : list (ForecastDay num))
    (unit_ : string) (p : Process) : Process * Control :=
  match find (fun day => negb (markup_ok (weather_cell day))) forecast with
  | Some day => (p, Raise (MarkupError (weather_cell day)))
  | None => (show (forecast_table forecast unit_) p, Done)
  end.

(** [except WeatherAPIError as e: show_error(str(e))] and
    [except Exception as e: show_error(f"Unexpected error: {str(e)}")]. *)
Definition excepting (r : Process * Control) : Process * Control :=
  match r with
  | (p, Raise (WeatherAPIError msg)) => show_error msg p
  | (p, Raise e) => show_error ("Unexpected error: " ++ str e) p
  | _ => r
  end.

Definition store_weather (w : WeatherSnapshot num) (city : string)
    (p : Process) : Process :=
  set_app {| current_city := city;
             temperature_unit := temperature_unit (app p);
             current_weather := Some w;
             forecast_data := forecast_data (app p);
             shown := shown (app p) |} p.

Definition store_forecast (f : list (ForecastDay num)) (p : Process)
  : Process :=
  set_app {| current_city := current_city (app p);
             temperature_unit := temperature_unit (app p);
             current_weather := current_weather (app p);
             forecast_data := Some f;
             shown := shown (app p) |} p.

Definition fetch_weather (city : string) (p : Process) : Process * Control :=
  andthen (show_loading ("Fetching weather for " ++ city ++ "...") p)
    (fun p =>
       excepting
         match get_current_weather config utc_time
                 (current_endpoint world (requests p) (appid client))
                 (clock world (requests p)) city (api_units (app p)) with
         | inr w =>
             let p := store_weather w city (sent p) in
             display_current_weather w (temperature_unit (app p))
                                     (show cleared p)
         | inl e => (sent p, Raise e)
         end).

(** [search_city], on the line the user typed. *)
Definition search_city (typed : string) (p : Process) : Process * Control :=
  let p := show (prompt "Enter city name (e.g., London or London,UK):") p in
  if String.eqb typed "" || String.eqb (strip typed) ""
  then show_error "City name cannot be empty." p
  else fetch_weather (strip typed) p.

Definition toggle_temperature_unit (p : Process) : Process * Control :=
  let '(unit_, unit_display) :=
    if String.eqb (temperature_unit (app p)) "celsius"
    then ("fahrenheit", "Fahrenheit (°F)")
    else ("celsius", "Celsius (°C)") in
  let p := set_app (set_unit unit_ (app p)) p in
  let p := show (printed (newline ++ "[green]✓ Switched to " ++ unit_display
                          ++ "[/green]")) p in
  if String.eqb (current_city (app p)) "" then (p, Done)
  else fetch_weather (current_city (app p)) p.

Definition refresh_weather (p : Process) : Process * Control :=
  if String.eqb (current_city (app p)) ""
  then show_error "No city selected. Please search for a city first." p
  else fetch_weather (current_city (app p)) p.

Definition show_forecast (p : Process) : Process * Control :=
  if String.eqb (current_city (app p)) ""
  then show_error "No city selected. Please search for a city first." p
  else
    andthen
      (show_loading ("Fetching forecast for " ++ current_city (app p) ++ "...")
                    p)
      (fun p =>
         excepting
           match get_forecast config set_iter local_date
                   (forecast_endpoint world (requests p) (appid client))
                   (current_city (app p)) (api_units (app p)) 5 with
           | inr f =>
               let p := show cleared (store_forecast f (sent p)) in
               andthen
                 match current_weather (app p) with
                 | Some w =>
                     display_current_weather w (temperature_unit (app p)) p
                 | None => (p, Done)
                 end
                 (display_forecast f (temperature_unit (app p)))
           | inl e => (sent p, Raise e)
           end).

Definition exit_app (p : Process) : Process * Control :=
  (show (printed (newline ++ "[bold cyan]👋 Thank you for using Weather App! "
                  ++ "Stay safe![/bold cyan]" ++ newline)) p,
   Exit 0).

(** The [while True] loop, run on the inputs available. *)
Fixpoint menu_loop (inputs : list Input) (p : Process) : Process * Control :=
  let p := show (prompt "Enter your choice (1-5):") (show menu p) in
  match inputs with
  | [] => (p, Blocked)
  | ctrl_c :: _ => (p, Interrupt)
  | end_of_input :: _ => (p, Raise EOFError)
  | typed_line choice :: rest =>
      if String.eqb choice "1" then
        match rest with
        | [] =>
            (show (prompt "Enter city name (e.g., London or London,UK):") p,
             Blocked)
        | ctrl_c :: _ =>
            (show (prompt "Enter city name (e.g., London or London,UK):") p,
             Interrupt)
        | end_of_input :: _ =>
            (show (prompt "Enter city name (e.g., London or London,UK):") p,
             Raise EOFError)
        | typed_line city :: rest' =>
            andthen (search_city city p) (menu_loop rest')
        end
      else if String.eqb choice "2" then
        andthen (toggle_temperature_unit p) (menu_loop rest)
      else if String.eqb choice "3" then
        andthen (refresh_weather p) (menu_loop rest)
      else if String.eqb choice "4" then
        andthen (show_forecast p) (menu_loop rest)
      else if String.eqb choice "5" then
        andthen (exit_app p) (menu_loop rest)
      else
        andthen
          (show_error "Invalid choice. Please enter a number between 1 and 5."
                      p)
          (menu_loop rest)
  end.

(** [run]: clear, welcome, fetch the default city, then the loop. *)
Definition run (inputs : list Input) (p : Process) : Process * Control :=
  let p := show welcome (show cleared p) in
  andthen (fetch_weather (current_city (app p)) p) (menu_loop inputs).

(** The call ended in the [MarkupError] of a text that [rich] refuses. *)
Definition refused (c : Control) : Prop :=
  exists markup, c = Raise (MarkupError markup) /\ markup_ok markup = false.

(** The call changed nothing but the screen, and returned or was refused. *)
Definition quiet (p : Process) (r : Process * Control) : Prop :=
  app (fst r) = app p
  /\ requests (fst r) = requests p
  /\ (snd r = Done \/ refused (snd r)).

(** A menu action that returns or is refused, sends at most one request and
    keeps the unit. *)
Definition plain_step (a : Process -> Process * Control) : Prop :=
  forall p,
    (snd (a p) = Done \/ refused (snd (a p)))
    /\ (requests p <= requests (fst (a p)) <= S (requests p))%nat
    /\ temperature_unit (app (fst (a p))) = temperature_unit (app p).

(** What the loop has done with [inputs] from [p] when it stops: at most one
    request per input; the unit it had, or one that choice 2 has set; and a
    prompt that waits, a refused text, choice 5, an interrupt or the end of
    the input. *)
Definition loop_summary (inputs : list Input) (p : Process)
    (r : Process * Control) : Prop :=
  (requests p <= requests (fst r) <= requests p + List.length inputs)%nat
  /\ (temperature_unit (app (fst r)) = temperature_unit (app p)
      \/ (In (typed_line "2") inputs
          /\ (temperature_unit (app (fst r)) = "celsius"
              \/ temperature_unit (app (fst r)) = "fahrenheit")))
  /\ (snd r = Blocked
      \/ refused (snd r)
      \/ (snd r = Exit 0 /\ In (typed_line "5") inputs)
      \/ (snd r = Interrupt /\ In ctrl_c inputs)
      \/ (snd r = Raise EOFError /\ In end_of_input inputs)).

End Program.

Arguments Shown num : clear implicits.
Arguments Process num : clear implicits.

(** [main]: what the terminal has shown, the requests sent, and the exit
    status if the process has ended.  A [run] that returned would end the
    process with status 0; the loop has no such exit. *)
Definition main {num : Type} {N : Number num} (config : Config)
    (set_iter : list string -> list string) (local_date : Z -> option Z)
    (utc_time : Z -> bool) (world : World num) (markup_ok : string -> bool)
    (library_text : Exception -> string) (inputs : list Input)
  : list (Shown num) * nat * option Z :=
  match WeatherAPIClient_init config with
  | inl msg =>
      ([printed (newline ++ "❌ Fatal error: "
                 ++ str library_text (ValueError msg))], 0%nat, Some 1%Z)
  | inr client =>
      let '(p, control) :=
        run config set_iter local_date utc_time world client markup_ok
            library_text inputs
            {| app := WeatherApp_init config; screen := []; requests := 0 |} in
      match control with
      | Blocked => (screen p, requests p, None)
      | Done => (screen p, requests p, Some 0%Z)
      | Exit code => (screen p, requests p, Some code)
      | Interrupt =>
          ((screen p ++ [printed (newline ++ newline ++ "👋 Goodbye!")])%list,
           requests p, Some 0%Z)
      | Raise e =>
          ((screen p ++ [printed (newline ++ "❌ Fatal error: "
                                  ++ str library_text e)])%list,
           requests p, Some 1%Z)
      end
  end.

End Raising.

Local Close Scope string_scope.

(** * Sample payloads *)

Module Examples.

Import Binary64.

Definition rain : Weather :=
  {| w_main := "Rain"; w_description := "light rain"; w_icon := "10d" |}.
Definition clouds_ : Weather :=
  {| w_main := "Clouds"; w_description := "broken clouds"; w_icon := "04d" |}.

(** A machine on UTC: the calendar date is the day number of the epoch time. *)
Definition utc_date (t : Z) : Z := t / 86400.

(** 2024-01-01T00:00:00Z. *)
Definition midnight : Z := 1704067200.

(** The [i]-th 3-hour sample counted from [start]: temperatures in hundredths,
    Rain and Clouds alternating. *)
Definition sample_at (start : Z) (i : nat) : Sample float :=
  {| dt := start + 10800 * Z.of_nat i;
     temp := dec (1200 + 7 * Z.of_nat i) 2;
     humidity := of_Z (60 + Z.of_nat i mod 5);
     wind_speed := dec (31 + Z.of_nat i) 1;
     weather := if Nat.even i then rain else clouds_ |}.

(** Five whole days, 40 samples. *)
Definition five_days : list (Sample float) := map (sample_at midnight) (seq 0 40).

(** Seven whole days, 56 samples. *)
Definition seven_days : list (Sample float) := map (sample_at midnight) (seq 0 56).


(** Rain, Clouds, Rain, Clouds. *)
Definition tied_run : list (Sample float) := map (sample_at midnight) (seq 0 4).

(** A run of [n] samples that all read [t] degrees. *)
Definition steady_run (t : float) (n : nat) : list (Sample float) :=
  repeat {| dt := midnight; temp := t; humidity := of_Z 80;
            wind_speed := dec 35 1; weather := rain |} n.

(** A configuration with a key and the defaults. *)
Definition config : Config := Config_init (Some "demo-key"%string) None None.

(** A current-weather payload; [vis] and [deg] are its two optional keys. *)
Definition payload (vis : option float) (deg : option Z) : CurrentPayload float :=
  {| p_name := "London"; p_country := "GB";
     p_temp := dec 28015 2; p_feels_like := dec 27874 2;
     p_temp_min := dec 27915 2; p_temp_max := dec 28131 2;
     p_humidity := 81; p_pressure := 1012;
     p_wind_speed := dec 412 2; p_wind_deg := deg;
     p_weather := clouds_; p_clouds := 75;
     p_visibility := vis;
     p_sunrise := 1704096360; p_sunset := 1704124920;
     p_timezone := 0 |}.

(** The same payload over exact rationals. *)
Definition exact_payload (vis : option Q) (deg : option Z) : CurrentPayload Q :=
  {| p_name := "London"; p_country := "GB";
     p_temp := 28015 # 100; p_feels_like := 27874 # 100;
     p_temp_min := 27915 # 100; p_temp_max := 28131 # 100;
     p_humidity := 81; p_pressure := 1012;
     p_wind_speed := 412 # 100; p_wind_deg := deg;
     p_weather := clouds_; p_clouds := 75;
     p_visibility := vis;
     p_sunrise := 1704096360; p_sunset := 1704124920;
     p_timezone := 0 |}.

End Examples.

(** * Sample sessions *)

Module Scenarios.

Import Binary64.

(** Three samples dated day 0, day 1, day 0. *)
Definition zigzag : list (Sample float) :=
  [Examples.sample_at Examples.midnight 0;
   Examples.sample_at (Examples.midnight + 86400) 0;
   Examples.sample_at Examples.midnight 1].

(** Rain, Rain, Clouds. *)
Definition mostly_rain : list (Sample float) :=
  map (Examples.sample_at Examples.midnight) [0; 2; 1]%nat.

Definition exact_sample (h : Z) : Sample Q :=
  {| dt := Examples.midnight; temp := 105 # 10; humidity := inject_Z h;
     wind_speed := 3 # 1; weather := Examples.rain |}.

(** Humidities 64, 71 and 100 per cent. *)
Definition humid_run : list (Sample Q) :=
  [exact_sample 64; exact_sample 71; exact_sample 100].

(** A provider that answers every request. *)
Definition online : World float :=
  {| current_endpoint := fun _ _ _ =>
       Response 200 ""%string
                (Examples.payload (Some (of_Z 10000)) (Some 240));
     forecast_endpoint := fun _ _ _ => Response 200 ""%string Examples.five_days;
     clock := fun n => Examples.midnight + Z.of_nat n |}.

(** A machine without network. *)
Definition offline : World float :=
  {| current_endpoint := fun _ _ _ => Timeout "timed out"%string;
     forecast_endpoint := fun _ _ _ => ConnectionError "unreachable"%string;
     clock := fun n => Examples.midnight + Z.of_nat n |}.

Definition client : WeatherAPIClient := {| appid := "demo-key"%string |}.

(** The session [main] starts from. *)
Definition start : Session float :=
  new_session (WeatherApp_init Examples.config).

(** A configuration without a key. *)
Definition no_key : Config := Config_init None None None.

(** The payload of [Examples.payload] with its description in other case. *)
Definition shouting : CurrentPayload float :=
  {| p_name := "London"; p_country := "GB";
     p_temp := dec 28015 2; p_feels_like := dec 27874 2;
     p_temp_min := dec 27915 2; p_temp_max := dec 28131 2;
     p_humidity := 81; p_pressure := 1012;
     p_wind_speed := dec 412 2; p_wind_deg := None;
     p_weather := {| w_main := "Clouds"; w_description := "BROKEN Clouds";
                     w_icon := "04d" |};
     p_clouds := 75; p_visibility := None;
     p_sunrise := 1704096360; p_sunset := 1704124920;
     p_timezone := 0 |}.

(** A client call that always fails. *)
Definition unreachable (_ _ : string) : Result (WeatherSnapshot float) :=
  WeatherAPIError "Connection error. Please check your internet connection.".

(** The timestamps of the years 1 to 9999, which [datetime] can hold. *)
Definition in_range (ts : Z) : bool :=
  (-62135596800 <=? ts) && (ts <=? 253402300799).

(** A machine on UTC. *)
Definition local (ts : Z) : option Z :=
  if in_range ts then Some (Examples.utc_date ts) else None.

(** An instant in the year 31690. *)
Definition year_31690 : Z := 10 ^ 12.


(** Three samples, the third with a timestamp out of range. *)
Definition undated_third : list (Sample float) :=
  [Examples.sample_at Examples.midnight 0;
   Examples.sample_at Examples.midnight 1;
   Examples.sample_at year_31690 2].

(** A console that refuses the closing tag [[/x]], which no text of the
    program opens. *)
Definition rich (markup : string) : bool :=
  match index 0 "[/x]" markup with
  | Some _ => false
  | None => true
  end.

(** Texts of the library exceptions. *)
Definition texts (e : Raising.Exception) : string :=
  match e with
  | Raising.TypeError =>
      "Text.append() got an unexpected keyword argument 'justify'"
  | Raising.EOFError => "EOF when reading a line"
  | Raising.MarkupError _ => "closing tag doesn't match any open tag"
  | Raising.OutOfRange _ => "year is out of range"
  | Raising.Builtin _ => "cannot convert float NaN to integer"
  | _ => ""
  end.

(** The process [main] starts. *)
Definition launched : Raising.Process float :=
  {| Raising.app := WeatherApp_init Examples.config;
     Raising.screen := [];
     Raising.requests := 0 |}.

End Scenarios.

(** * Properties *)

Lemma utc_date_mono (s t : Z) :
  s <= t -> Examples.utc_date s <= Examples.utc_date t.
Proof. intro H. apply Z.div_le_mono; lia. Qed.

(** ** Set iteration orders *)

Lemma first_seen_In (l : list string) (x : string) :
  In x (first_seen l) <-> In x l.
Proof.
  induction l as [|a l IH]; simpl; [tauto|].
  rewrite filter_In, IH, negb_true_iff, String.eqb_neq.
  destruct (string_dec a x) as [->|Hne]; tauto.
Qed.

Lemma first_seen_NoDup (l : list string) : NoDup (first_seen l).
Proof.
  induction l as [|a l IH]; simpl; constructor.
  - rewrite filter_In, negb_true_iff, String.eqb_neq. tauto.
  - now apply NoDup_filter.
Qed.

Lemma first_seen_order : SetOrder first_seen.
Proof.
  intro l. split; [apply first_seen_NoDup | apply first_seen_In].
Qed.

Lemma last_seen_first_order : SetOrder last_seen_first.
Proof.
  intro l. unfold last_seen_first. split.
  - apply NoDup_rev, first_seen_NoDup.
  - intro x. rewrite <- in_rev. apply first_seen_In.
Qed.

(** ** [max] with a key *)

Section MaxKey.

Variable A : Type.
Variable key : A -> nat.

(** The result is the earliest item of [cur :: l] whose key is greatest. *)
Lemma py_max_key_from_first (l : list A) : forall cur,
  exists before after,
    cur :: l = before ++ py_max_key_from key cur l :: after
    /\ (forall x, In x before -> (key x < key (py_max_key_from key cur l))%nat)
    /\ (forall x, In x after -> (key x <= key (py_max_key_from key cur l))%nat).
Proof.
  induction l as [|a l IH]; intro cur; simpl.
  - exists [], []. simpl. repeat split; intros x [].
  - destruct (Nat.ltb_spec (key cur) (key a)) as [Hlt|Hge].
    + destruct (IH a) as (before & after & Heq & Hb & Ha).
      assert (Hle : (key a <= key (py_max_key_from key a l))%nat).
      { destruct before as [|b before]; simpl in Heq;
          injection Heq as Heq _.
        - rewrite <- Heq. lia.
        - subst b. apply Nat.lt_le_incl, Hb. now left. }
      exists (cur :: before), after. split; [|split].
      * rewrite Heq. reflexivity.
      * intros x [<-|Hx]; [lia | now apply Hb].
      * exact Ha.
    + destruct (IH cur) as (before & after & Heq & Hb & Ha).
      destruct before as [|b before]; simpl in Heq;
        injection Heq as Heq Hl.
      * exists [], (a :: after). split; [|split].
        -- simpl. rewrite <- Heq, Hl. reflexivity.
        -- intros x [].
        -- intros x [<-|Hx]; [rewrite <- Heq; lia | now apply Ha].
      * subst b. exists (cur :: a :: before), after. split; [|split].
        -- simpl. rewrite <- Hl. reflexivity.
        -- assert (key cur < key (py_max_key_from key cur l))%nat
             by (apply Hb; now left).
           intros x [<-|[<-|Hx]]; [assumption | lia | apply Hb; now right].
        -- exact Ha.
Qed.

Lemma py_max_key_spec (l : list A) :
  l <> [] ->
  exists c before after,
    py_max_key key l = inr c
    /\ l = before ++ c :: after
    /\ (forall x, In x before -> (key x < key c)%nat)
    /\ (forall x, In x after -> (key x <= key c)%nat).
Proof.
  destruct l as [|a l]; [congruence|]. intros _. simpl.
  destruct (py_max_key_from_first l a) as (before & after & H).
  exists (py_max_key_from key a l), before, after. split; [reflexivity|exact H].
Qed.

Lemma py_max_key_empty (l : list A) :
  py_max_key key l = inl Py.EmptySequence <-> l = [].
Proof.
  destruct l; simpl; split; intro H; try reflexivity; discriminate.
Qed.

End MaxKey.

(** ** The dominant condition *)

Section Dominant.

Variable set_iter : list string -> list string.
Hypothesis set_iter_order : SetOrder set_iter.

Lemma main_condition_spec (conditions : list string) :
  conditions <> [] ->
  exists c before after,
    main_condition_of set_iter conditions = inr c
    /\ In c conditions
    /\ (forall c', (py_count conditions c' <= py_count conditions c)%nat)
    /\ set_iter conditions = before ++ c :: after
    /\ (forall x, In x before ->
                  (py_count conditions x < py_count conditions c)%nat).
Proof.
  intro Hne. destruct (set_iter_order conditions) as [_ Hin].
  assert (Hs : set_iter conditions <> []).
  { destruct conditions as [|a l]; [congruence|].
    intro Heq. assert (In a (set_iter (a :: l))) by (apply Hin; now left).
    rewrite Heq in H. destruct H. }
  destruct (py_max_key_spec _ (py_count conditions) _ Hs)
    as (c & before & after & Hmax & Heq & Hb & Ha).
  exists c, before, after. split; [exact Hmax|].
  assert (Hc : In c conditions).
  { apply Hin. rewrite Heq. apply in_or_app. right. now left. }
  repeat split; auto.
  intro c'. unfold py_count in *.
  destruct (in_dec string_dec c' conditions) as [Hc'|Hc'].
  - apply Hin in Hc'. rewrite Heq in Hc'.
    apply in_app_or in Hc'. destruct Hc' as [H|[<-|H]].
    + apply Nat.lt_le_incl. now apply Hb.
    + lia.
    + now apply Ha.
  - apply (count_occ_not_In string_dec) in Hc'. rewrite Hc'. lia.
Qed.

End Dominant.

(** ** The error monad *)

Lemma mapM_length {A B} (f : A -> Py.M B) (l : list A) (out : list B) :
  Py.mapM f l = inr out -> List.length out = List.length l.
Proof.
  revert out. induction l as [|x l IH]; simpl; intros out H.
  - injection H as <-. reflexivity.
  - destruct (f x) as [e|y]; simpl in H; [discriminate|].
    destruct (Py.mapM f l) as [e|ys]; simpl in H; [discriminate|].
    injection H as <-. simpl. f_equal. now apply IH.
Qed.

Lemma mapM_map {A B C} (f : A -> Py.M B) (g : B -> C) (h : A -> C)
      (l : list A) (out : list B) :
  (forall x y, In x l -> f x = inr y -> g y = h x) ->
  Py.mapM f l = inr out -> map g out = map h l.
Proof.
  revert out. induction l as [|x l IH]; simpl; intros out Hf H.
  - injection H as <-. reflexivity.
  - destruct (f x) as [e|y] eqn:Hx; simpl in H; [discriminate|].
    destruct (Py.mapM f l) as [e|ys]; simpl in H; [discriminate|].
    injection H as <-. simpl. f_equal; [apply Hf; auto|].
    apply IH; auto.
Qed.

Lemma mapM_success {A B} (f : A -> Py.M B) (l : list A) :
  Forall (fun x => exists y, f x = inr y) l ->
  exists out, Py.mapM f l = inr out.
Proof.
  induction 1 as [|x l [y Hy] _ [ys Hys]]; simpl.
  - now exists [].
  - rewrite Hy, Hys. simpl. now exists (y :: ys).
Qed.

Lemma mapM_calls {A B} (f : A -> Py.M B) (l : list A) (out : list B) :
  Py.mapM f l = inr out -> Forall (fun x => exists y, f x = inr y) l.
Proof.
  revert out. induction l as [|x l IH]; simpl; intros out H; constructor.
  - destruct (f x) as [e|y]; [discriminate|]. now exists y.
  - destruct (f x) as [e|y]; simpl in H; [discriminate|].
    destruct (Py.mapM f l) as [e|ys]; simpl in H; [discriminate|].
    now apply (IH ys).
Qed.

(** ** Runs *)

Section Runs.

Context {num : Type} {N : Number num}.
Variable local_date : Z -> Z.

Local Abbreviation sample_date := (sample_date local_date).
Local Abbreviation runs_from := (runs_from local_date).
Local Abbreviation runs := (runs local_date).
Local Abbreviation run_date := (run_date local_date).

Lemma run_date_app (run : list (Sample num)) (items : list (Sample num)) :
  run <> [] -> run_date (run ++ items) = run_date run.
Proof. destruct run; [congruence | reflexivity]. Qed.

Lemma runs_from_head (items : list (Sample num)) : forall run d,
  run <> [] ->
  exists r rest, runs_from run d items = r :: rest /\ run_date r = run_date run.
Proof.
  induction items as [|item items IH]; intros run d Hne; simpl.
  - now exists run, [].
  - destruct (sample_date item =? d).
    + destruct (IH (run ++ [item]) d) as (r & rest & Heq & Hd).
      { destruct run; simpl; congruence. }
      exists r, rest. split; [exact Heq|]. now rewrite Hd, run_date_app.
    + now exists run, (runs_from [item] (sample_date item) items).
Qed.

Lemma runs_from_concat (items : list (Sample num)) : forall run d,
  List.concat (runs_from run d items) = run ++ items.
Proof.
  induction items as [|item items IH]; intros run d; simpl.
  - now rewrite app_nil_r.
  - destruct (sample_date item =? d); simpl.
    + now rewrite IH, <- app_assoc.
    + now rewrite IH.
Qed.

Lemma runs_from_nonempty (items : list (Sample num)) : forall run d,
  run <> [] -> Forall (fun r => r <> []) (runs_from run d items).
Proof.
  induction items as [|item items IH]; intros run d Hne; simpl.
  - now repeat constructor.
  - destruct (sample_date item =? d).
    + apply IH. destruct run; simpl; congruence.
    + constructor; [exact Hne|]. apply IH. congruence.
Qed.

Lemma runs_from_same_date (items : list (Sample num)) : forall run d,
  Forall (fun x => sample_date x = d) run ->
  Forall (fun r => Forall (fun x => sample_date x = run_date r) r)
         (runs_from run d items).
Proof.
  assert (Hrun : forall (run : list (Sample num)) d,
             Forall (fun x => sample_date x = d) run ->
             Forall (fun x => sample_date x = run_date run) run).
  { intros run d H. destruct run as [|x run]; [constructor|].
    simpl. inversion H; subst. eapply Forall_impl; [|exact H].
    simpl. intros a Ha. congruence. }
  induction items as [|item items IH]; intros run d Hd; simpl.
  - constructor; [|constructor]. now apply Hrun with d.
  - destruct (Z.eqb_spec (sample_date item) d) as [He|He].
    + apply IH. apply Forall_app. split; [exact Hd|]. now repeat constructor.
    + constructor; [now apply Hrun with d|].
      apply IH. now repeat constructor.
Qed.

Lemma runs_from_changes (items : list (Sample num)) : forall run d,
  run <> [] -> run_date run = d ->
  changes (map run_date (runs_from run d items)).
Proof.
  induction items as [|item items IH]; intros run d Hne Hd; simpl.
  - exact I.
  - destruct (Z.eqb_spec (sample_date item) d) as [He|He].
    + apply IH; [destruct run; simpl; congruence|].
      now rewrite run_date_app.
    + destruct (runs_from_head items [item] (sample_date item))
        as (r & rest & Heq & Hr); [congruence|].
      specialize (IH [item] (sample_date item)).
      rewrite Heq in *. simpl. split.
      * rewrite Hr, Hd. simpl. congruence.
      * apply IH; [congruence | reflexivity].
Qed.

(** The four facts that pin the partition down: the runs rebuild the input,
    none is empty, a run has one date, neighbouring runs have different dates. *)
Lemma runs_partition (items : list (Sample num)) :
  List.concat (runs items) = items
  /\ Forall (fun r => r <> []) (runs items)
  /\ Forall (fun r => Forall (fun x => sample_date x = run_date r) r) (runs items)
  /\ changes (map run_date (runs items)).
Proof.
  destruct items as [|item items]; simpl.
  - repeat split; constructor.
  - split; [apply runs_from_concat|].
    split; [apply runs_from_nonempty; congruence|].
    split; [apply runs_from_same_date; now repeat constructor|].
    apply runs_from_changes; [congruence | reflexivity].
Qed.

(** The dates met in the input are the dates of the runs. *)
Lemma run_dates_In (items : list (Sample num)) (d : Z) :
  In d (map run_date (runs items)) <-> In d (map sample_date items).
Proof.
  destruct (runs_partition items) as (Hcat & Hne & Hsame & _).
  rewrite !in_map_iff. split.
  - intros (r & <- & Hr).
    rewrite Forall_forall in Hne. specialize (Hne r Hr).
    destruct r as [|x r]; [congruence|]. exists x. split; [reflexivity|].
    rewrite <- Hcat. apply in_concat. exists (x :: r). split; [exact Hr|now left].
  - intros (x & <- & Hx). rewrite <- Hcat in Hx.
    apply in_concat in Hx. destruct Hx as (r & Hr & Hxr).
    exists r. split; [|exact Hr].
    rewrite Forall_forall in Hsame. specialize (Hsame r Hr).
    rewrite Forall_forall in Hsame. symmetry. now apply Hsame.
Qed.

(** *** Chronological input *)

Hypothesis local_date_mono : forall s t, s <= t -> local_date s <= local_date t.

Lemma runs_from_increasing (items : list (Sample num)) : forall run d,
  run <> [] -> run_date run = d ->
  StronglySorted Z.le (map sample_date items) ->
  Forall (fun x => d <= sample_date x) items ->
  StronglySorted Z.lt (map run_date (runs_from run d items))
  /\ Forall (fun r => d <= run_date r) (runs_from run d items).
Proof.
  induction items as [|item items IH]; intros run d Hne Hd Hs Hge; simpl.
  - split; repeat constructor. lia.
  - simpl in Hs. apply StronglySorted_inv in Hs. destruct Hs as [Hs Hall].
    inversion Hge as [|? ? Hitem Hrest]; subst.
    destruct (Z.eqb_spec (sample_date item) (run_date run)) as [He|He].
    + apply IH; auto.
      * destruct run; simpl; congruence.
      * now rewrite run_date_app.
    + destruct (IH [item] (sample_date item)) as [Hsorted Hlow]; auto.
      { congruence. }
      { rewrite Forall_map in Hall. exact Hall. }
      split.
      * simpl. constructor; [exact Hsorted|].
        rewrite Forall_map. eapply Forall_impl; [|exact Hlow].
        simpl. intros r Hr. lia.
      * constructor; [lia|]. eapply Forall_impl; [|exact Hlow].
        simpl. intros r Hr. lia.
Qed.

Lemma dates_sorted (items : list (Sample num)) :
  Sorted Z.le (map dt items) ->
  StronglySorted Z.le (map sample_date items).
Proof.
  intro Hs. apply Sorted_StronglySorted in Hs; [|intros a b c; apply Z.le_trans].
  induction items as [|item items IH]; simpl in *; [constructor|].
  apply StronglySorted_inv in Hs. destruct Hs as [Hs Hall].
  constructor; [now apply IH|].
  rewrite Forall_map in *. eapply Forall_impl; [|exact Hall].
  simpl. intros x Hx. now apply local_date_mono.
Qed.

Lemma runs_increasing (items : list (Sample num)) :
  Sorted Z.le (map dt items) ->
  StronglySorted Z.lt (map run_date (runs items)).
Proof.
  intro Hs. apply dates_sorted in Hs.
  destruct items as [|item items]; simpl; [constructor|].
  simpl in Hs. apply StronglySorted_inv in Hs. destruct Hs as [Hs Hall].
  apply runs_from_increasing; auto; [congruence|].
  rewrite Forall_map in Hall. exact Hall.
Qed.

End Runs.

(** ** The loop of [_process_forecast] against the runs *)

Section Loop.

Context {num : Type} {N : Number num}.
Variable local_date : Z -> Z.
Variable R : Type.
Variable aggregate : list (Sample num) -> Py.M R.
Variable days : Z.

Local Abbreviation loop := (for_each local_date R aggregate days).
Local Abbreviation finish := (append_day R aggregate days).

Lemma budget_zero (daily : list R) :
  budget days daily = 0%nat -> (len daily <? days) = false.
Proof. unfold budget. intro H. apply Z.ltb_ge. lia. Qed.

Lemma budget_pos (daily : list R) (k : nat) :
  budget days daily = S k -> (len daily <? days) = true.
Proof. unfold budget. intro H. apply Z.ltb_lt. lia. Qed.

Lemma budget_app (daily : list R) (k : nat) (r : R) :
  budget days daily = S k -> budget days (daily ++ [r]) = k.
Proof. unfold budget, len. intro H. rewrite length_app. simpl. lia. Qed.

Lemma finish_run (daily : list R) (d : option Z) (x : Sample num)
      (run : list (Sample num)) :
  finish {| daily_forecasts := daily; current_date := d; day_data := x :: run |}
  = if len daily <? days
    then r <- aggregate (x :: run) ;; Py.ret (daily ++ [r])
    else Py.ret daily.
Proof. reflexivity. Qed.

(** From the state reached inside a run, the rest of the loop and the final
    append reduce the pending runs, as long as days are wanted. *)
Lemma for_each_runs (items : list (Sample num)) : forall daily d run,
  run <> [] ->
  (st <- loop items {| daily_forecasts := daily;
                       current_date := Some d;
                       day_data := run |} ;;
   finish st)
  = (rs <- Py.mapM aggregate
             (firstn (budget days daily) (runs_from local_date run d items)) ;;
     Py.ret (daily ++ rs)).
Proof.
  induction items as [|item items IH]; intros daily d run Hne;
    destruct run as [|x run]; try congruence.
  - cbn [for_each runs_from Py.bind Py.ret]. rewrite finish_run.
    destruct (budget days daily) as [|k] eqn:Hb.
    + rewrite (budget_zero _ Hb). simpl. now rewrite app_nil_r.
    + rewrite (budget_pos _ _ Hb). cbn [firstn]. rewrite firstn_nil.
      simpl. destruct (aggregate (x :: run)); reflexivity.
  - cbn [for_each runs_from]. unfold loop_body.
    cbn [current_date date_differs]. rewrite (Z.eqb_sym d).
    destruct (sample_date local_date item =? d).
    + cbn [negb Py.bind Py.ret daily_forecasts current_date day_data].
      apply IH. simpl. congruence.
    + cbn [negb]. rewrite finish_run.
      destruct (budget days daily) as [|k] eqn:Hb.
      * rewrite (budget_zero _ Hb).
        cbn [Py.bind Py.ret daily_forecasts current_date day_data app].
        rewrite IH by congruence. now rewrite Hb.
      * rewrite (budget_pos _ _ Hb). cbn [firstn Py.mapM].
        destruct (aggregate (x :: run)) as [e|r]; [reflexivity|].
        cbn [Py.bind Py.ret daily_forecasts current_date day_data app].
        rewrite IH by congruence. rewrite (budget_app _ _ r Hb).
        destruct (Py.mapM aggregate _) as [e|rs]; [reflexivity|].
        cbn [Py.bind Py.ret]. now rewrite <- app_assoc.
Qed.

Lemma slice_after_mapM (l : list (list (Sample num))) (rs : list R) :
  Py.mapM aggregate (firstn (Z.to_nat days) l) = inr rs ->
  py_slice_to rs days = rs.
Proof.
  intro H. apply mapM_length in H.
  assert (Hle : (List.length rs <= Z.to_nat days)%nat)
    by (rewrite H; apply firstn_le_length).
  unfold py_slice_to. destruct (Z.leb_spec 0 days).
  - now apply firstn_all2.
  - replace (Z.to_nat days) with 0%nat in Hle by lia.
    destruct rs; [now rewrite firstn_nil | simpl in Hle; lia].
Qed.

(** [_process_forecast] reduces the first [days] runs, in order, and stops
    at the first reduction that raises; the final slice changes nothing. *)
Lemma process_forecast_with_runs (items : list (Sample num)) :
  process_forecast_with local_date R aggregate days items
  = Py.mapM aggregate (firstn (Z.to_nat days) (runs local_date items)).
Proof.
  unfold process_forecast_with.
  destruct items as [|item items].
  - simpl. unfold py_slice_to. rewrite !firstn_nil.
    now destruct (0 <=? days).
  - cbn [for_each]. unfold loop_body at 1.
    cbn [current_date date_differs append_day day_data is_nonempty andb
         Py.bind Py.ret daily_forecasts app runs].
    pose proof (for_each_runs items [] (sample_date local_date item) [item]) as H.
    unfold budget, len in H. simpl List.length in H.
    rewrite Z.sub_0_r in H. specialize (H ltac:(congruence)).
    pose proof (slice_after_mapM
                  (runs_from local_date [item] (sample_date local_date item) items))
      as Hslice.
    destruct (Py.mapM aggregate _) as [e|rs].
    + destruct (loop items _) as [e'|st]; cbn [Py.bind] in *.
      * congruence.
      * now rewrite H.
    + specialize (Hslice rs eq_refl). cbn [Py.bind Py.ret app] in H.
      destruct (loop items _) as [e'|st]; cbn [Py.bind] in *.
      * discriminate.
      * rewrite H. cbn [Py.bind Py.ret]. now rewrite Hslice.
Qed.

End Loop.

(** ** The per-day reduction on a non-empty run *)

Section AggregateSpec.

Context {num : Type} {N : Number num}.
Variable set_iter : list string -> list string.
Variable local_date : Z -> Z.
Hypothesis set_iter_order : SetOrder set_iter.

Local Abbreviation aggregate := (_aggregate_day_forecast set_iter local_date).

Lemma len_cons_nonzero {A} (x : A) (l : list A) : (len (x :: l) =? 0) = false.
Proof. apply Z.eqb_neq. unfold len. simpl List.length. lia. Qed.

Lemma len_map {A B} (f : A -> B) (l : list A) : len (map f l) = len l.
Proof. unfold len. now rewrite length_map. Qed.

Lemma py_truediv_len {A} (s : num) (x : A) (l : list A) :
  py_truediv s (len (x :: l)) = inr (true_div s (of_int (len (x :: l)))).
Proof. unfold py_truediv. now rewrite len_cons_nonzero. Qed.

Lemma first_matching_found (c : string) (run : list (Sample num)) :
  In c (conditions_of run) ->
  exists item, first_matching c run = Some item
               /\ In item run /\ w_main (weather item) = c.
Proof.
  unfold conditions_of, first_matching. rewrite in_map_iff.
  intros (y & Hy & Hin).
  destruct (find _ run) as [item|] eqn:Hf.
  - apply find_some in Hf. destruct Hf as [Hi He].
    apply String.eqb_eq in He. now exists item.
  - apply (find_none _ _ Hf) in Hin. simpl in Hin.
    rewrite Hy, String.eqb_refl in Hin. discriminate.
Qed.

Lemma aggregate_nonempty (x : Sample num) (rest : list (Sample num)) :
  exists c item,
    main_condition_of set_iter (conditions_of (x :: rest)) = inr c
    /\ first_matching c (x :: rest) = Some item
    /\ aggregate (x :: rest)
       = match round0 (mean (map humidity (x :: rest))) with
         | Some hum => inr (day_record local_date x rest c item hum)
         | None => inl Py.NonFinite
         end.
Proof.
  destruct (main_condition_spec set_iter set_iter_order (conditions_of (x :: rest)))
    as (c & before & after & Hmax & Hin & _); [discriminate|].
  destruct (first_matching_found c (x :: rest) Hin) as (item & Hfind & _ & _).
  exists c, item. split; [exact Hmax|]. split; [exact Hfind|].
  unfold _aggregate_day_forecast. rewrite Hmax. cbn [Py.bind].
  rewrite Hfind. cbn [py_first Py.bind Py.ret map py_min py_max].
  rewrite !py_truediv_len. cbn [Py.bind].
  unfold py_round, day_record, mean. cbn [map].
  change (len (humidity x :: map humidity rest))
    with (len (map humidity (x :: rest))).
  change (len (wind_speed x :: map wind_speed rest))
    with (len (map wind_speed (x :: rest))).
  rewrite !len_map.
  destruct (round0 _) as [hum|]; reflexivity.
Qed.

Lemma aggregate_empty : aggregate [] = inl Py.EmptySequence.
Proof.
  unfold _aggregate_day_forecast, main_condition_of. simpl.
  destruct (set_iter_order []) as [_ Hin].
  destruct (set_iter []) as [|a l]; [reflexivity|].
  exfalso. apply (Hin a). now left.
Qed.

Lemma aggregate_raises_only_NonFinite (run : list (Sample num)) (e : Py.exn) :
  run <> [] -> aggregate run = inl e -> e = Py.NonFinite.
Proof.
  destruct run as [|x rest]; [congruence|]. intros _.
  destruct (aggregate_nonempty x rest) as (c & item & _ & _ & ->).
  destruct (round0 _); [discriminate|]. congruence.
Qed.

Lemma aggregate_returns (run : list (Sample num)) :
  run <> [] -> humidity_defined run ->
  exists fd, aggregate run = inr fd
             /\ fd_date fd = run_date local_date run
             /\ main_condition_of set_iter (conditions_of run) = inr (fd_main fd).
Proof.
  destruct run as [|x rest]; [congruence|]. intros _ [hum Hh].
  destruct (aggregate_nonempty x rest) as (c & item & Hc & _ & ->).
  rewrite Hh. eexists. split; [reflexivity|]. split; [reflexivity|exact Hc].
Qed.

Lemma aggregate_date (run : list (Sample num)) (fd : ForecastDay num) :
  aggregate run = inr fd -> fd_date fd = run_date local_date run.
Proof.
  destruct run as [|x rest]; [now rewrite aggregate_empty|].
  destruct (aggregate_nonempty x rest) as (c & item & _ & _ & ->).
  destruct (round0 _); [|discriminate]. now intros [= <-].
Qed.

End AggregateSpec.

Lemma mapM_raises {A B} (f : A -> Py.M B) (l : list A) (e : Py.exn) :
  Py.mapM f l = inl e -> exists x, In x l /\ f x = inl e.
Proof.
  induction l as [|x l IH]; simpl; intro H; [discriminate|].
  destruct (f x) as [e'|y] eqn:Hx; simpl in H.
  - injection H as ->. exists x. auto.
  - destruct (Py.mapM f l) as [e'|ys]; simpl in H; [|discriminate].
    injection H as ->. destruct (IH eq_refl) as (x' & Hin & Hx').
    exists x'. auto.
Qed.

Lemma Forall_firstn {A} (P : A -> Prop) (n : nat) (l : list A) :
  Forall P l -> Forall P (firstn n l).
Proof.
  intro H. revert n. induction H; intros [|n]; simpl; constructor; auto.
Qed.

Lemma StronglySorted_lt_NoDup (l : list Z) : StronglySorted Z.lt l -> NoDup l.
Proof.
  induction 1 as [|a l _ IH Hall]; constructor; [|exact IH].
  intro Hin. rewrite Forall_forall in Hall. specialize (Hall a Hin). lia.
Qed.

Lemma StronglySorted_firstn (n : nat) (l : list Z) :
  StronglySorted Z.lt l -> StronglySorted Z.lt (firstn n l).
Proof.
  intro H. revert n. induction H as [|a l Hs IH Hall]; intros [|n]; simpl;
    constructor; auto using Forall_firstn.
Qed.

(** ** [_process_forecast] *)

Section ProcessSpec.

Context {num : Type} {N : Number num}.
Variable set_iter : list string -> list string.
Variable local_date : Z -> Z.
Hypothesis set_iter_order : SetOrder set_iter.

Local Abbreviation aggregate := (_aggregate_day_forecast set_iter local_date).
Local Abbreviation process := (_process_forecast set_iter local_date).

Lemma process_forecast_runs (items : list (Sample num)) (days : Z) :
  process items days
  = Py.mapM aggregate (firstn (Z.to_nat days) (runs local_date items)).
Proof. apply process_forecast_with_runs. Qed.

(** With no day wanted nothing is reduced and the forecast is empty. *)
Lemma process_forecast_no_days (items : list (Sample num)) (days : Z) :
  days <= 0 -> process items days = inr [].
Proof.
  intro H. rewrite process_forecast_runs.
  replace (Z.to_nat days) with 0%nat by lia. reflexivity.
Qed.

Lemma process_forecast_dates (items : list (Sample num)) (days : Z)
      (out : list (ForecastDay num)) :
  process items days = inr out ->
  map fd_date out
  = firstn (Z.to_nat days) (map (run_date local_date) (runs local_date items)).
Proof.
  rewrite process_forecast_runs. intro H. rewrite firstn_map.
  apply mapM_map with (f := aggregate); [|exact H].
  intros run fd _. now apply aggregate_date.
Qed.

Lemma process_forecast_returns (items : list (Sample num)) (days : Z) :
  Forall (humidity_defined (num := num))
         (firstn (Z.to_nat days) (runs local_date items)) ->
  exists out, process items days = inr out.
Proof.
  intro Hh. rewrite process_forecast_runs. apply mapM_success.
  destruct (runs_partition local_date items) as (_ & Hne & _).
  apply (Forall_firstn _ (Z.to_nat days)) in Hne.
  rewrite Forall_forall in *. intros run Hrun.
  destruct (aggregate_returns set_iter local_date set_iter_order run)
    as (fd & Hfd & _); auto.
  now exists fd.
Qed.

Lemma process_forecast_raises_only_NonFinite
      (items : list (Sample num)) (days : Z) (e : Py.exn) :
  process items days = inl e -> e = Py.NonFinite.
Proof.
  rewrite process_forecast_runs. intro H.
  apply mapM_raises in H. destruct H as (run & Hin & Hrun).
  apply (aggregate_raises_only_NonFinite set_iter local_date set_iter_order run);
    [|exact Hrun].
  destruct (runs_partition local_date items) as (_ & Hne & _).
  apply (Forall_firstn _ (Z.to_nat days)) in Hne.
  rewrite Forall_forall in Hne. now apply Hne.
Qed.

End ProcessSpec.

(** ** Rounding half-even *)

Lemma div_cross_mono (a b c d : Z) :
  0 < b -> 0 < d -> a * d <= c * b -> a / b <= c / d.
Proof.
  intros Hb Hd H. apply Z.div_le_lower_bound; [exact Hd|].
  pose proof (Z.mul_div_le a b Hb) as H1. nia.
Qed.

(** [rne_div] is monotone in the fraction it rounds. *)
Lemma rne_div_mono (a b c d : Z) :
  0 < b -> 0 < d -> a * d <= c * b -> rne_div a b <= rne_div c d.
Proof.
  intros Hb Hd H. unfold rne_div.
  pose proof (div_cross_mono a b c d Hb Hd H) as Hq.
  pose proof (Z.div_mod a b ltac:(lia)) as Ha.
  pose proof (Z.div_mod c d ltac:(lia)) as Hc.
  pose proof (Z.mod_pos_bound a b Hb) as Hra.
  pose proof (Z.mod_pos_bound c d Hd) as Hrc.
  set (q1 := a / b) in *. set (r1 := a mod b) in *.
  set (q2 := c / d) in *. set (r2 := c mod d) in *.
  destruct (Z.eq_dec q1 q2) as [He|Hne].
  - rewrite <- He in *. clear He.
    assert (Hr : r1 * d <= r2 * b) by nia.
    destruct (Z.compare_spec (2 * r1) b), (Z.compare_spec (2 * r2) d);
      try destruct (Z.even q1); try lia; exfalso; nia.
  - destruct (Z.compare_spec (2 * r1) b), (Z.compare_spec (2 * r2) d);
      try destruct (Z.even q1); try destruct (Z.even q2); lia.
Qed.

(** An exact multiple is left alone. *)
Lemma rne_div_exact (n b : Z) : 0 < b -> rne_div (n * b) b = n.
Proof.
  intro Hb. unfold rne_div.
  rewrite Z.mod_mul, Z.div_mul by lia.
  assert (H : (2 * 0 ?= b) = Lt) by (apply Z.compare_lt_iff; lia).
  now rewrite H.
Qed.

(** ** Exact arithmetic: the mean lies between the extremes *)

Module ExactFacts.

Local Open Scope Q_scope.

Lemma lt_true (x y : Q) : Exact.lt x y = true <-> x < y.
Proof.
  unfold Exact.lt. rewrite Qlt_alt.
  destruct (x ?= y); split; congruence.
Qed.

Lemma lt_false (x y : Q) : Exact.lt x y = false <-> y <= x.
Proof.
  rewrite <- Bool.not_true_iff_false, lt_true. split; [apply Qnot_lt_le|].
  intros H1 H2. apply (Qlt_irrefl x). now apply Qlt_le_trans with y.
Qed.

Lemma py_min_from_le (l : list Q) : forall cur,
  py_min_from cur l <= cur /\ Forall (fun x => py_min_from cur l <= x) l.
Proof.
  induction l as [|x l IH]; intro cur; simpl.
  - split; [apply Qle_refl | constructor].
  - destruct (IH (if Exact.lt x cur then x else cur)) as [H1 H2].
    destruct (Exact.lt x cur) eqn:Hlt.
    + apply lt_true in Hlt. split; [|constructor; assumption].
      apply Qle_trans with x; [exact H1 | now apply Qlt_le_weak].
    + apply lt_false in Hlt. split; [assumption|constructor; [|assumption]].
      apply Qle_trans with cur; assumption.
Qed.

Lemma py_max_from_ge (l : list Q) : forall cur,
  cur <= py_max_from cur l /\ Forall (fun x => x <= py_max_from cur l) l.
Proof.
  induction l as [|x l IH]; intro cur; simpl.
  - split; [apply Qle_refl | constructor].
  - destruct (IH (if Exact.lt cur x then x else cur)) as [H1 H2].
    destruct (Exact.lt cur x) eqn:Hlt.
    + apply lt_true in Hlt. split; [|constructor; assumption].
      apply Qle_trans with x; [now apply Qlt_le_weak | exact H1].
    + apply lt_false in Hlt. split; [assumption|constructor; [|assumption]].
      apply Qle_trans with cur; assumption.
Qed.

Lemma len_succ {A} (x : A) (l : list A) :
  inject_Z (len (x :: l)) == inject_Z (len l) + 1.
Proof.
  unfold len. simpl List.length. rewrite Nat2Z.inj_succ. unfold Z.succ.
  now rewrite inject_Z_plus.
Qed.

Lemma sum_lower (lo : Q) (l : list Q) : forall acc,
  Forall (fun x => lo <= x) l ->
  acc + inject_Z (len l) * lo <= fold_left Qplus l acc.
Proof.
  induction l as [|x l IH]; intros acc Hall.
  - simpl. change (inject_Z (len [])) with 0. lra.
  - inversion Hall as [|? ? Hx Hl]; subst. cbn [fold_left].
    specialize (IH (acc + x) Hl). rewrite len_succ.
    set (t := inject_Z (len l)) in *. nra.
Qed.

Lemma sum_upper (hi : Q) (l : list Q) : forall acc,
  Forall (fun x => x <= hi) l ->
  fold_left Qplus l acc <= acc + inject_Z (len l) * hi.
Proof.
  induction l as [|x l IH]; intros acc Hall.
  - simpl. change (inject_Z (len [])) with 0. lra.
  - inversion Hall as [|? ? Hx Hl]; subst. cbn [fold_left].
    specialize (IH (acc + x) Hl). rewrite len_succ.
    set (t := inject_Z (len l)) in *. nra.
Qed.

Lemma len_positive {A} (x : A) (l : list A) : 0 < inject_Z (len (x :: l)).
Proof.
  change 0 with (inject_Z 0). rewrite <- Zlt_Qlt.
  unfold len. simpl List.length. lia.
Qed.

(** The mean of a non-empty list lies between its [min] and its [max]. *)
Lemma mean_between (x : Q) (l : list Q) :
  py_min_from x l <= mean (x :: l) /\ mean (x :: l) <= py_max_from x l.
Proof.
  destruct (py_min_from_le l x) as [Hm1 Hm2].
  destruct (py_max_from_ge l x) as [HM1 HM2].
  pose proof (len_positive x l) as Hn.
  unfold mean, py_sum. cbn [true_div add of_int Exact.number].
  split.
  - apply Qle_shift_div_l; [exact Hn|].
    assert (H := sum_lower (py_min_from x l) (x :: l) (inject_Z 0)).
    specialize (H ltac:(constructor; assumption)).
    change (inject_Z 0) with 0 in *. rewrite Qmult_comm.
    rewrite Qplus_0_l in H. exact H.
  - apply Qle_shift_div_r; [exact Hn|].
    assert (H := sum_upper (py_max_from x l) (x :: l) (inject_Z 0)).
    specialize (H ltac:(constructor; assumption)).
    change (inject_Z 0) with 0 in *. rewrite Qmult_comm.
    rewrite Qplus_0_l in H. exact H.
Qed.

(** [round(x, 1)] is monotone. *)
Lemma round1_mono (x y : Q) : x <= y -> Exact.round1 x <= Exact.round1 y.
Proof.
  unfold Qle, Exact.round1. cbn [Qnum Qden]. intro H.
  apply Z.mul_le_mono_nonneg_r; [lia|].
  apply rne_div_mono; lia.
Qed.

(** [round(x, 1)] has one decimal. *)
Lemma round1_one_decimal (x : Q) : exists n : Z, Exact.round1 x = n # 10.
Proof. eexists. reflexivity. Qed.

End ExactFacts.

(** ** Binary64: dividing by one *)

Module Binary64Facts.

Import Binary64.

Lemma of_Z_0 : of_Z 0 = S754_zero false.
Proof. reflexivity. Qed.

Lemma of_Z_1 : of_Z 1 = S754_finite false 4503599627370496 (-52).
Proof. vm_compute. reflexivity. Qed.

Lemma div_eucl_exact (a b : Z) : 0 < b -> Z.div_eucl (a * b) b = (a, 0).
Proof.
  intro Hb. pose proof (Z.div_mul a b ltac:(lia)) as Hd.
  pose proof (Z.mod_mul a b ltac:(lia)) as Hm.
  unfold Z.div, Z.modulo in *. destruct (Z.div_eucl (a * b) b).
  simpl in *. congruence.
Qed.

(** A well-formed mantissa is normal (53 bits) or sits at the least exponent. *)
Lemma bounded_inv (m : positive) (e : Z) :
  bounded prec emax m e = true ->
  e <= 971
  /\ ((Zpos (digits2_pos m) = 53 /\ -1074 <= e)
      \/ (Zpos (digits2_pos m) < 53 /\ e = -1074)).
Proof.
  unfold bounded, canonical_mantissa, fexp, emin, prec, emax.
  rewrite andb_true_iff, Z.eqb_eq, Z.leb_le. lia.
Qed.

Lemma round_exact (s : bool) (m : positive) (e : Z) :
  bounded prec emax m e = true ->
  binary_round_aux prec emax s (Zpos m) e loc_Exact = S754_finite s m e.
Proof.
  intro Hb. pose proof (bounded_inv m e Hb) as [Hle Hcase].
  unfold binary_round_aux, shr_fexp. cbn [Zdigits2 shr_record_of_loc].
  assert (Hf : fexp prec emax (Zpos (digits2_pos m) + e) - e = 0).
  { unfold fexp, emin, prec, emax. lia. }
  rewrite Hf. cbn [shr shr_m loc_of_shr_record round_nearest_even Zdigits2].
  rewrite Hf. cbn [shr shr_m].
  assert (Hl : (e <=? emax - prec) = true)
    by (apply Z.leb_le; unfold emax, prec; lia).
  now rewrite Hl.
Qed.

Lemma round_exact_shifted (s : bool) (m : positive) (e : Z) :
  bounded prec emax m e = true -> -1074 < e ->
  binary_round_aux prec emax s (Zpos m~0) (e - 1) loc_Exact = S754_finite s m e.
Proof.
  intros Hb He. pose proof (bounded_inv m e Hb) as [Hle Hcase].
  unfold binary_round_aux, shr_fexp.
  cbn [Zdigits2 shr_record_of_loc digits2_pos].
  assert (Hf : fexp prec emax (Zpos (Pos.succ (digits2_pos m)) + (e - 1))
               - (e - 1) = 1).
  { unfold fexp, emin, prec, emax. lia. }
  rewrite Hf.
  cbn [shr iter_pos shr_1 orb shr_m loc_of_shr_record round_nearest_even Zdigits2].
  replace (e - 1 + 1) with e by lia.
  assert (Hf0 : fexp prec emax (Zpos (digits2_pos m) + e) - e = 0).
  { unfold fexp, emin, prec, emax. lia. }
  rewrite Hf0. cbn [shr shr_m].
  assert (Hl : (e <=? emax - prec) = true)
    by (apply Z.leb_le; unfold emax, prec; lia).
  now rewrite Hl.
Qed.

Lemma div_one_finite (s : bool) (m : positive) (e : Z) :
  bounded prec emax m e = true ->
  SFdiv prec emax (S754_finite s m e) (of_Z 1) = S754_finite s m e.
Proof.
  intro Hb. pose proof (bounded_inv m e Hb) as [Hle Hcase].
  rewrite of_Z_1. unfold SFdiv, SFdiv_core_binary.
  cbn [Zdigits2]. change (Zpos (digits2_pos 4503599627370496)) with 53.
  rewrite xorb_false_r.
  destruct (Z.eq_dec e (-1074)) as [->|Hne].
  - assert (He' : Z.min (fexp prec emax
                           (Zpos (digits2_pos m) + -1074 - (53 + -52)))
                        (-1074 - -52) = -1074).
    { unfold fexp, emin, prec, emax. lia. }
    rewrite He'. change (-1074 - -52 - -1074) with 52.
    rewrite Z.shiftl_mul_pow2 by lia.
    change (2 ^ 52) with 4503599627370496.
    rewrite div_eucl_exact by lia.
    change (new_location 4503599627370496 0) with loc_Exact.
    now apply round_exact.
  - assert (He' : Z.min (fexp prec emax (Zpos (digits2_pos m) + e - (53 + -52)))
                        (e - -52) = e - 1).
    { unfold fexp, emin, prec, emax. lia. }
    rewrite He'. replace (e - -52 - (e - 1)) with 53 by lia.
    rewrite Z.shiftl_mul_pow2 by lia.
    replace (Zpos m * 2 ^ 53) with (Zpos m~0 * 4503599627370496) by lia.
    rewrite div_eucl_exact by lia.
    change (new_location 4503599627370496 0) with loc_Exact.
    apply round_exact_shifted; [exact Hb | lia].
Qed.

(** [x / 1 == x] bit for bit, on every well-formed float. *)
Lemma div_one (x : float) :
  valid_binary prec emax x = true -> SFdiv prec emax x (of_Z 1) = x.
Proof.
  destruct x as [s|s| |s m e]; intro Hv.
  - rewrite of_Z_1. simpl. now rewrite xorb_false_r.
  - rewrite of_Z_1. simpl. now rewrite xorb_false_r.
  - reflexivity.
  - now apply div_one_finite.
Qed.

(** [sum([t]) / len([t])] is [t]; a negative zero comes out positive. *)
Lemma mean_single (t : float) :
  valid_binary prec emax t = true -> t <> S754_zero true ->
  mean [t] = t.
Proof.
  intros Hv Hz. unfold mean, py_sum.
  cbn [fold_left add true_div of_int number len List.length Z.of_nat Pos.of_succ_nat].
  rewrite of_Z_0.
  assert (Hadd : SFadd prec emax (S754_zero false) t = t).
  { destruct t as [[|]|s| |s m e]; try reflexivity. congruence. }
  rewrite Hadd. now apply div_one.
Qed.

Lemma mean_single_negative_zero :
  mean [S754_zero true] = S754_zero false.
Proof. vm_compute. reflexivity. Qed.

End Binary64Facts.

(** ** Binary64: the order of finite floats, and [round(x, 1)] in it *)

(** [min] and [max] return one of the items. *)
Lemma py_min_from_In {num : Type} {N : Number num} (l : list num) : forall cur,
  In (py_min_from cur l) (cur :: l).
Proof.
  induction l as [|x l IH]; intro cur; cbn [py_min_from]; [now left|].
  destruct (IH (if lt x cur then x else cur)) as [H|H].
  - rewrite <- H. destruct (lt x cur); [right; now left | now left].
  - right. now right.
Qed.

Lemma py_max_from_In {num : Type} {N : Number num} (l : list num) : forall cur,
  In (py_max_from cur l) (cur :: l).
Proof.
  induction l as [|x l IH]; intro cur; cbn [py_max_from]; [now left|].
  destruct (IH (if lt cur x then x else cur)) as [H|H].
  - rewrite <- H. destruct (lt cur x); [right; now left | now left].
  - right. now right.
Qed.

Module Binary64Order.

Import Binary64.

Lemma digits2_size (p : positive) : digits2_pos p = Pos.size p.
Proof. induction p; simpl; congruence. Qed.

Lemma digits_bounds (p : positive) :
  2 ^ (Zpos (digits2_pos p) - 1) <= Zpos p < 2 ^ Zpos (digits2_pos p).
Proof.
  rewrite digits2_size. split.
  - pose proof (Pos.size_le p) as H.
    assert (H' : Zpos (2 ^ Pos.size p) <= Zpos p~0) by exact H.
    rewrite Pos2Z.inj_pow in H'.
    replace (Zpos (Pos.size p)) with (Zpos (Pos.size p) - 1 + 1) in H' by lia.
    rewrite Z.pow_add_r in H' by lia. lia.
  - pose proof (Pos.size_gt p) as H.
    assert (H' : Zpos p < Zpos (2 ^ Pos.size p)) by exact H.
    now rewrite Pos2Z.inj_pow in H'.
Qed.

Lemma digits_unique (p : positive) (d : Z) :
  2 ^ (d - 1) <= Zpos p < 2 ^ d -> Zpos (digits2_pos p) = d.
Proof.
  intros [Hlo Hhi]. pose proof (digits_bounds p) as [Hlo' Hhi'].
  assert (Hd : 0 < d).
  { destruct (Z_lt_le_dec 0 d); [assumption|].
    exfalso. destruct (Z.eq_dec d 0) as [->|]; [simpl in Hhi; lia|].
    rewrite Z.pow_neg_r in Hhi by lia. lia. }
  destruct (Z.lt_trichotomy (Zpos (digits2_pos p)) d) as [H|[H|H]]; [|exact H|].
  - exfalso. assert (2 ^ Zpos (digits2_pos p) <= 2 ^ (d - 1))
      by (apply Z.pow_le_mono_r; lia). lia.
  - exfalso. assert (2 ^ d <= 2 ^ (Zpos (digits2_pos p) - 1))
      by (apply Z.pow_le_mono_r; lia). lia.
Qed.

Lemma bounded_range (m : positive) (e : Z) :
  bounded prec emax m e = true ->
  -1074 <= e <= 971 /\ Zpos m < 2 ^ 53
  /\ (-1074 < e -> 2 ^ 52 <= Zpos m).
Proof.
  intro Hb. destruct (Binary64Facts.bounded_inv m e Hb) as [Hle Hcase].
  pose proof (digits_bounds m) as [Hlo Hhi].
  destruct Hcase as [[Hd He]|[Hd He]].
  - rewrite Hd in *. change (53 - 1) with 52 in Hlo. repeat split; try lia.
  - repeat split; try lia.
    apply Z.lt_le_trans with (2 ^ Zpos (digits2_pos m)); [exact Hhi|].
    apply Z.pow_le_mono_r; lia.
Qed.

Lemma scaled_pos (m : positive) (e : Z) : -1074 <= e -> 0 < Zpos m * 2 ^ (e + 1074).
Proof. intro H. assert (0 < 2 ^ (e + 1074)) by (apply Z.pow_pos_nonneg; lia). lia. Qed.

Lemma scaled_lt_exp (m1 m2 : positive) (e1 e2 : Z) :
  bounded prec emax m1 e1 = true -> bounded prec emax m2 e2 = true ->
  e1 < e2 -> Zpos m1 * 2 ^ (e1 + 1074) < Zpos m2 * 2 ^ (e2 + 1074).
Proof.
  intros H1 H2 He.
  destruct (bounded_range m1 e1 H1) as (Hr1 & Hm1 & _).
  destruct (bounded_range m2 e2 H2) as (Hr2 & _ & Hm2).
  specialize (Hm2 ltac:(lia)).
  replace (e2 + 1074) with ((e1 + 1074) + (e2 - e1)) by lia.
  rewrite (Z.pow_add_r 2 (e1 + 1074) (e2 - e1)) by lia.
  assert (Ha : 0 < 2 ^ (e1 + 1074)) by (apply Z.pow_pos_nonneg; lia).
  assert (Hb : 2 ^ 1 <= 2 ^ (e2 - e1)) by (apply Z.pow_le_mono_r; lia).
  change (2 ^ 1) with 2 in Hb. change (2 ^ 53) with (2 * 2 ^ 52) in Hm1.
  set (a := 2 ^ (e1 + 1074)) in *. set (b := 2 ^ (e2 - e1)) in *.
  set (c := 2 ^ 52) in *.
  assert (H3 : Zpos m1 * a < 2 * c * a) by nia.
  assert (H4 : c * a <= Zpos m2 * a) by nia.
  assert (H5 : Zpos m2 * a * 2 <= Zpos m2 * a * b) by nia.
  lia.
Qed.

Lemma compare_finite (m1 m2 : positive) (e1 e2 : Z) :
  bounded prec emax m1 e1 = true -> bounded prec emax m2 e2 = true ->
  match (e1 ?= e2) with
  | Lt => Lt
  | Gt => Gt
  | Eq => Pos.compare_cont Eq m1 m2
  end
  = (Zpos m1 * 2 ^ (e1 + 1074) ?= Zpos m2 * 2 ^ (e2 + 1074)).
Proof.
  intros H1 H2. destruct (Z.compare_spec e1 e2) as [->|He|He].
  - destruct (bounded_range m2 e2 H2) as (Hr & _).
    assert (Ha : 0 < 2 ^ (e2 + 1074)) by (apply Z.pow_pos_nonneg; lia).
    change (Pos.compare_cont Eq m1 m2) with (Zpos m1 ?= Zpos m2).
    destruct (Z.compare_spec (Zpos m1) (Zpos m2)) as [Hc|Hc|Hc]; symmetry;
      [apply Z.compare_eq_iff | apply Z.compare_lt_iff | apply Z.compare_gt_iff];
      nia.
  - symmetry. apply Z.compare_lt_iff. now apply scaled_lt_exp.
  - symmetry. apply Z.compare_gt_iff. now apply scaled_lt_exp.
Qed.

Lemma compare_finite_opp (m1 m2 : positive) (e1 e2 : Z) :
  bounded prec emax m1 e1 = true -> bounded prec emax m2 e2 = true ->
  match (e1 ?= e2) with
  | Lt => Gt
  | Gt => Lt
  | Eq => CompOpp (Pos.compare_cont Eq m1 m2)
  end
  = CompOpp (Zpos m1 * 2 ^ (e1 + 1074) ?= Zpos m2 * 2 ^ (e2 + 1074)).
Proof.
  intros H1 H2. rewrite <- (compare_finite m1 m2 e1 e2 H1 H2).
  now destruct (e1 ?= e2).
Qed.

(** On numbers, [<] is the order of the scaled values. *)
Lemma ltb_scaled (x y : float) :
  is_finite x = true -> is_finite y = true ->
  SFltb x y = (scaled x <? scaled y).
Proof.
  destruct x as [sx| | |sx mx ex]; try discriminate;
    destruct y as [sy| | |sy my ey]; try discriminate;
    cbv beta iota delta [is_finite]; intros Hx Hy.
  - reflexivity.
  - destruct (bounded_range my ey Hy) as (Hr & _).
    pose proof (scaled_pos my ey ltac:(lia)).
    cbv beta iota delta [SFltb SFcompare scaled cond_Zopp].
    destruct sy; symmetry; [apply Z.ltb_ge | apply Z.ltb_lt]; lia.
  - destruct (bounded_range mx ex Hx) as (Hr & _).
    pose proof (scaled_pos mx ex ltac:(lia)).
    cbv beta iota delta [SFltb SFcompare scaled cond_Zopp].
    destruct sx; symmetry; [apply Z.ltb_lt | apply Z.ltb_ge]; lia.
  - destruct (bounded_range mx ex Hx) as (Hrx & _).
    destruct (bounded_range my ey Hy) as (Hry & _).
    pose proof (scaled_pos mx ex ltac:(lia)).
    pose proof (scaled_pos my ey ltac:(lia)).
    cbv beta iota delta [SFltb SFcompare scaled cond_Zopp].
    destruct sx, sy.
    + rewrite (compare_finite_opp mx my ex ey Hx Hy).
      destruct (Z.compare_spec (Zpos mx * 2 ^ (ex + 1074)) (Zpos my * 2 ^ (ey + 1074)));
        cbn [CompOpp]; symmetry;
        [apply Z.ltb_ge | apply Z.ltb_ge | apply Z.ltb_lt]; lia.
    + symmetry. apply Z.ltb_lt. lia.
    + symmetry. apply Z.ltb_ge. lia.
    + rewrite (compare_finite mx my ex ey Hx Hy).
      destruct (Z.compare_spec (Zpos mx * 2 ^ (ex + 1074)) (Zpos my * 2 ^ (ey + 1074)));
        symmetry; [apply Z.ltb_ge | apply Z.ltb_lt | apply Z.ltb_ge]; lia.
Qed.

Lemma fexp_normal (d e : Z) : -1074 <= d + e - 53 -> fexp prec emax (d + e) - e = d - 53.
Proof. unfold fexp, emin, prec, emax. lia. Qed.

Lemma Zdigits2_unique (m d : Z) : 0 < m -> 2 ^ (d - 1) <= m < 2 ^ d -> Zdigits2 m = d.
Proof.
  intros Hm H. destruct m as [|p|p]; try lia. simpl. now apply digits_unique.
Qed.

(** The last step of [binary_round_aux] on a mantissa of 53 bits, or on 2^53. *)
Lemma round_tail (s : bool) (m e : Z) :
  2 ^ 52 <= m <= 2 ^ 53 -> -1074 <= e <= 970 ->
  exists m' e',
    (let '(mrs, e'') := shr_fexp prec emax m e loc_Exact in
     match shr_m mrs with
     | Z0 => S754_zero s
     | Zpos p => if e'' <=? emax - prec then S754_finite s p e'' else S754_infinity s
     | Zneg _ => S754_nan
     end) = S754_finite s m' e'
    /\ bounded prec emax m' e' = true
    /\ Zpos m' * 2 ^ (e' + 1074) = m * 2 ^ (e + 1074).
Proof.
  intros Hm He. destruct (Z.eq_dec m (2 ^ 53)) as [->|Hne].
  - exists (Z.to_pos (2 ^ 52)), (e + 1).
    unfold shr_fexp. rewrite (Zdigits2_unique (2 ^ 53) 54) by (simpl; lia).
    rewrite fexp_normal by lia. change (54 - 53) with 1.
    cbn [shr shr_record_of_loc iter_pos]. 
    change (2 ^ 53) with (Zpos (xO (Z.to_pos (2 ^ 52)))). cbn [shr_1 shr_m orb].
    assert (Hl : (e + 1 <=? emax - prec) = true)
      by (apply Z.leb_le; unfold emax, prec; lia).
    rewrite Hl. split; [reflexivity|]. split.
    + unfold bounded, canonical_mantissa. rewrite andb_true_iff, Z.eqb_eq, Z.leb_le.
      change (Zpos (digits2_pos (Z.to_pos (2 ^ 52)))) with 53.
      unfold fexp, emin, prec, emax. lia.
    + replace (e + 1 + 1074) with (1 + (e + 1074)) by lia.
      rewrite (Z.pow_add_r 2 1 (e + 1074)) by lia.
      change (Zpos (Z.to_pos (2 ^ 52))) with (2 ^ 52).
      change (Zpos (Z.to_pos (2 ^ 52))~0) with (2 ^ 52 * 2 ^ 1). ring.
  - destruct m as [|p|p]; try lia. exists p, e.
    unfold shr_fexp. rewrite (Zdigits2_unique (Zpos p) 53) by (simpl; lia).
    rewrite fexp_normal by lia. change (53 - 53) with 0.
    cbn [shr shr_record_of_loc shr_m].
    assert (Hl : (e <=? emax - prec) = true)
      by (apply Z.leb_le; unfold emax, prec; lia).
    rewrite Hl. split; [reflexivity|]. split; [|reflexivity].
    unfold bounded, canonical_mantissa. rewrite andb_true_iff, Z.eqb_eq, Z.leb_le.
    rewrite (digits_unique p 53) by (simpl; lia).
    unfold fexp, emin, prec, emax. lia.
Qed.

Lemma rne_div_scale (a b c : Z) : 0 < b -> 0 < c -> rne_div (a * c) (b * c) = rne_div a b.
Proof.
  intros Hb Hc. unfold rne_div.
  rewrite Z.div_mul_cancel_r by lia.
  rewrite Z.mul_mod_distr_r by lia.
  replace (2 * (a mod b * c)) with (2 * (a mod b) * c) by ring.
  assert (Hcmp : (2 * (a mod b) * c ?= b * c) = (2 * (a mod b) ?= b)).
  { destruct (Z.compare_spec (2 * (a mod b)) b); 
      [apply Z.compare_eq_iff | apply Z.compare_lt_iff | apply Z.compare_gt_iff]; nia. }
  now rewrite Hcmp.
Qed.

Lemma round_location (m' : Z) :
  round_nearest_even (m' / 10) (new_location 10 (m' mod 10)) = rne_div m' 10.
Proof.
  change (new_location 10) with (new_location_even 10).
  unfold new_location_even, rne_div.
  pose proof (Z.mod_pos_bound m' 10 ltac:(lia)) as Hr.
  destruct (Z.eqb_spec (m' mod 10) 0) as [H0|H0].
  - rewrite H0. reflexivity.
  - cbn [round_nearest_even]. destruct (2 * (m' mod 10) ?= 10); reflexivity.
Qed.

Lemma round_location_shifted (m' : Z) :
  0 < m' / 10 ->
  let mrs := shr_1 (shr_record_of_loc (m' / 10) (new_location 10 (m' mod 10))) in
  round_nearest_even (shr_m mrs) (loc_of_shr_record mrs) = rne_div m' 20.
Proof.
  intro Hq. 
  pose proof (Z.mod_pos_bound m' 10 ltac:(lia)) as Hr.
  pose proof (Z.div_mod m' 10 ltac:(lia)) as Hm.
  set (q := m' / 10) in *. set (r := m' mod 10) in *.
  assert (Hdiv : forall h b, q = 2 * h + b -> 0 <= b < 2 ->
                   m' / 20 = h /\ m' mod 20 = 10 * b + r).
  { intros h b Hqb Hb. 
    assert (m' = 20 * h + (10 * b + r)) by lia.
    split; [symmetry; apply (Z.div_unique m' 20 h (10 * b + r)); lia
           | symmetry; apply (Z.mod_unique m' 20 h (10 * b + r)); lia]. }
  change (new_location 10) with (new_location_even 10).
  unfold new_location_even, rne_div.
  destruct q as [|pq|pq]; try lia.
  destruct pq as [p|p|].
  - destruct (Hdiv (Zpos p) 1 ltac:(lia) ltac:(lia)) as [-> ->].
    destruct (Z.eqb_spec r 0) as [H0|H0].
    + rewrite H0. cbn. reflexivity.
    + assert (Hc : (2 * (10 * 1 + r) ?= 20) = Gt) by (apply Z.compare_gt_iff; lia).
      rewrite Hc. destruct (2 * r ?= 10); reflexivity.
  - destruct (Hdiv (Zpos p) 0 ltac:(lia) ltac:(lia)) as [-> ->].
    assert (Hc : (2 * (10 * 0 + r) ?= 20) = Lt) by (apply Z.compare_lt_iff; lia).
    rewrite Hc.
    destruct (Z.eqb_spec r 0) as [H0|H0]; [reflexivity|].
    destruct (2 * r ?= 10); reflexivity.
  - destruct (Hdiv 0 1 ltac:(lia) ltac:(lia)) as [-> ->].
    destruct (Z.eqb_spec r 0) as [H0|H0].
    + rewrite H0. cbn. reflexivity.
    + assert (Hc : (2 * (10 * 1 + r) ?= 20) = Gt) by (apply Z.compare_gt_iff; lia).
      rewrite Hc. destruct (2 * r ?= 10); reflexivity.
Qed.

Lemma div_eucl_div_mod (a b : Z) : Z.div_eucl a b = (a / b, a mod b).
Proof. unfold Z.div, Z.modulo. now destruct (Z.div_eucl a b). Qed.

Lemma shr_m_of_loc (m : Z) (l : location) : shr_m (shr_record_of_loc m l) = m.
Proof. destruct l as [|[]]; reflexivity. Qed.

Lemma loc_of_loc (m : Z) (l : location) :
  loc_of_shr_record (shr_record_of_loc m l) = l.
Proof. destruct l as [|[]]; reflexivity. Qed.

Lemma rne_div_floor (a b : Z) : 0 < b -> a / b <= rne_div a b <= a / b + 1.
Proof.
  intro Hb. unfold rne_div.
  destruct (2 * (a mod b) ?= b); [destruct (Z.even (a / b))| |]; lia.
Qed.

Lemma of_ratio_tenths (s : bool) (n : Z) :
  1 <= n < 2 ^ 56 ->
  exists k m e,
    0 <= k <= 56
    /\ 10 * 2 ^ 52 <= n * 2 ^ k < 10 * 2 ^ 53
    /\ of_ratio s n 10 = S754_finite s m e
    /\ bounded prec emax m e = true
    /\ Zpos m * 2 ^ (e + 1074) = rne_div (n * 2 ^ k) 10 * 2 ^ (1074 - k).
Proof.
  intros Hn. destruct n as [|p|p]; try lia.
  pose proof (digits_bounds p) as Hd.
  set (d := Zpos (digits2_pos p)) in *.
  assert (Hd1 : 1 <= d <= 56).
  { split; [unfold d; lia|].
    destruct (Z_le_gt_dec d 56) as [|Hgt]; [assumption|exfalso].
    assert (2 ^ 56 <= 2 ^ (d - 1)) by (apply Z.pow_le_mono_r; lia). lia. }
  unfold of_ratio, SFdiv_core_binary. cbn [Zdigits2].
  change (Zpos (digits2_pos 10)) with 4. fold d.
  assert (He' : Z.min (fexp prec emax (d + 0 - (4 + 0))) (0 - 0) = d - 57)
    by (unfold fexp, emin, prec, emax; lia).
  rewrite He'.
  replace (0 - 0 - (d - 57)) with (Zpos (Z.to_pos (57 - d))) by lia.
  cbv iota. rewrite Z.shiftl_mul_pow2 by lia.
  replace (Zpos (Z.to_pos (57 - d))) with (57 - d) by lia.
  set (sh := 57 - d) in *.
  assert (Hm' : 2 ^ 56 <= Zpos p * 2 ^ sh < 2 ^ 57).
  { replace 56 with ((d - 1) + sh) by (unfold sh; lia).
    replace 57 with (d + sh) by (unfold sh; lia).
    rewrite !Z.pow_add_r by (unfold sh; lia).
    assert (0 < 2 ^ sh) by (apply Z.pow_pos_nonneg; unfold sh; lia). nia. }
  set (m' := Zpos p * 2 ^ sh) in *.
  rewrite div_eucl_div_mod.
  pose proof (Z.mod_pos_bound m' 10 ltac:(lia)) as Hr.
  pose proof (Z.div_mod m' 10 ltac:(lia)) as Hdm.
  assert (Hq : 2 ^ 52 < m' / 10 < 2 ^ 54).
  { split.
    - assert (2 ^ 52 + 1 <= m' / 10); [|lia].
      apply Z.div_le_lower_bound; lia.
    - apply Z.div_lt_upper_bound; lia. }
  unfold binary_round_aux.
  destruct (Z_lt_le_dec (m' / 10) (2 ^ 53)) as [Hlt|Hge].
  - (* the quotient has 53 bits *)
    unfold shr_fexp at 1.
    rewrite (Zdigits2_unique (m' / 10) 53) by (simpl; lia).
    rewrite fexp_normal by lia. change (53 - 53) with 0.
    cbn [shr]. rewrite shr_m_of_loc, loc_of_loc, round_location.
    pose proof (rne_div_floor m' 10 ltac:(lia)) as Hrne.
    destruct (round_tail s (rne_div m' 10) (d - 57) ltac:(lia) ltac:(lia))
      as (m & e & Heq & Hb & Hv).
    exists sh, m, e. split; [unfold sh; lia|]. split; [fold m'; lia|].
    split; [exact Heq|]. split; [exact Hb|].
    fold m'. rewrite Hv. do 2 f_equal. unfold sh. lia.
  - (* the quotient has 54 bits *)
    unfold shr_fexp at 1.
    rewrite (Zdigits2_unique (m' / 10) 54) by (simpl; lia).
    rewrite fexp_normal by lia. change (54 - 53) with 1.
    cbn [shr iter_pos]. rewrite (round_location_shifted m') by lia.
    assert (Hsh : 1 <= sh) by (unfold sh; lia).
    assert (Hhalf : m' = Zpos p * 2 ^ (sh - 1) * 2).
    { unfold m'. replace sh with ((sh - 1) + 1) at 1 by lia.
      rewrite Z.pow_add_r by lia. change (2 ^ 1) with 2. ring. }
    assert (Hscale : rne_div m' 20 = rne_div (Zpos p * 2 ^ (sh - 1)) 10).
    { rewrite Hhalf. change 20 with (10 * 2). apply rne_div_scale; lia. }
    pose proof (rne_div_floor m' 20 ltac:(lia)) as Hrne.
    assert (Hq20 : 2 ^ 52 <= m' / 20 < 2 ^ 53).
    { replace (m' / 20) with (m' / 10 / 2)
        by (rewrite Z.div_div by lia; reflexivity).
      split; [apply Z.div_le_lower_bound; lia | apply Z.div_lt_upper_bound; lia]. }
    destruct (round_tail s (rne_div m' 20) (d - 57 + 1) ltac:(lia) ltac:(lia))
      as (m & e & Heq & Hb & Hv).
    exists (sh - 1), m, e. split; [unfold sh; lia|].
    split; [lia|].
    split; [exact Heq|]. split; [exact Hb|].
    rewrite Hv, Hscale. do 2 f_equal. unfold sh. lia.
Qed.

(** The decimal [n / 10] as a float, for [0 <= n < 2^56]. *)
Lemma tenths_number (s : bool) (n : Z) :
  0 <= n < 2 ^ 56 -> is_finite (of_ratio s n 10) = true.
Proof.
  intro Hn. destruct (Z.eq_dec n 0) as [->|Hne]; [reflexivity|].
  destruct (of_ratio_tenths s n ltac:(lia)) as (k & m & e & _ & _ & -> & Hb & _).
  exact Hb.
Qed.

Lemma tenths_sign (s : bool) (n : Z) :
  0 <= n < 2 ^ 56 ->
  scaled (of_ratio s n 10) = cond_Zopp s (scaled (of_ratio false n 10)).
Proof.
  intro Hn. destruct (Z.eq_dec n 0) as [->|Hne]; [now destruct s|].
  destruct (of_ratio_tenths s n ltac:(lia)) as (k & m & e & Hk & Hr & -> & _ & Hv).
  destruct (of_ratio_tenths false n ltac:(lia))
    as (k' & m' & e' & Hk' & Hr' & -> & _ & Hv').
  cbn [scaled cond_Zopp]. rewrite Hv, Hv'.
  assert (k = k'); [|now subst].
  destruct (Z.lt_trichotomy k k') as [H|[H|H]]; [exfalso|exact H|exfalso].
  - assert (2 * 2 ^ k <= 2 ^ k').
    { replace k' with (1 + k + (k' - k - 1)) by lia.
      rewrite !Z.pow_add_r by lia.
      assert (0 < 2 ^ k) by (apply Z.pow_pos_nonneg; lia).
      assert (1 <= 2 ^ (k' - k - 1)) by (apply Z.pow_le_mono_r with (b := 0) (c := k' - k - 1); lia).
      change (2 ^ 1) with 2. nia. }
    nia.
  - assert (2 * 2 ^ k' <= 2 ^ k).
    { replace k with (1 + k' + (k - k' - 1)) by lia.
      rewrite !Z.pow_add_r by lia.
      assert (0 < 2 ^ k') by (apply Z.pow_pos_nonneg; lia).
      assert (1 <= 2 ^ (k - k' - 1)) by (apply Z.pow_le_mono_r with (b := 0) (c := k - k' - 1); lia).
      change (2 ^ 1) with 2. nia. }
    nia.
Qed.

Lemma pow2_double (k k' : Z) : 0 <= k -> k < k' -> 2 * 2 ^ k <= 2 ^ k'.
Proof.
  intros Hk Hlt. replace k' with (1 + k + (k' - k - 1)) by lia.
  rewrite !Z.pow_add_r by lia.
  assert (0 < 2 ^ k) by (apply Z.pow_pos_nonneg; lia).
  assert (1 <= 2 ^ (k' - k - 1))
    by (apply Z.pow_le_mono_r with (b := 0) (c := k' - k - 1); lia).
  change (2 ^ 1) with 2. nia.
Qed.

Lemma tenths_nonneg (n : Z) : 0 <= n < 2 ^ 56 -> 0 <= scaled (of_ratio false n 10).
Proof.
  intro Hn. destruct (Z.eq_dec n 0) as [->|Hne]; [simpl; lia|].
  destruct (of_ratio_tenths false n ltac:(lia)) as (k & m & e & Hk & Hr & -> & Hb & Hv).
  cbn [scaled cond_Zopp]. destruct (bounded_range m e Hb) as (He & _).
  pose proof (scaled_pos m e ltac:(lia)). lia.
Qed.

(** The float nearest to [n / 10] grows with [n]. *)
Lemma tenths_mono (n n' : Z) :
  0 <= n <= n' -> n' < 2 ^ 56 ->
  scaled (of_ratio false n 10) <= scaled (of_ratio false n' 10).
Proof.
  intros Hn Hn'. destruct (Z.eq_dec n 0) as [->|Hne].
  { change (scaled (of_ratio false 0 10)) with 0. apply tenths_nonneg. lia. }
  destruct (of_ratio_tenths false n ltac:(lia))
    as (k & m & e & Hk & Hr & -> & _ & Hv).
  destruct (of_ratio_tenths false n' ltac:(lia))
    as (k' & m' & e' & Hk' & Hr' & -> & _ & Hv').
  cbn [scaled cond_Zopp]. rewrite Hv, Hv'. clear Hv Hv'.
  assert (Hp : 0 < 2 ^ k) by (apply Z.pow_pos_nonneg; lia).
  assert (Hp' : 0 < 2 ^ k') by (apply Z.pow_pos_nonneg; lia).
  assert (Hkk : k' <= k).
  { destruct (Z_le_gt_dec k' k) as [|Hgt]; [assumption|exfalso].
    pose proof (pow2_double k k' ltac:(lia) ltac:(lia)). nia. }
  destruct (Z.eq_dec k k') as [<-|Hneq].
  - apply Z.mul_le_mono_nonneg_r; [apply Z.pow_nonneg; lia|].
    apply rne_div_mono; nia.
  - pose proof (rne_div_floor (n * 2 ^ k) 10 ltac:(lia)) as [_ Hup].
    pose proof (rne_div_floor (n' * 2 ^ k') 10 ltac:(lia)) as [Hlo _].
    assert (Hq : (n * 2 ^ k) / 10 < 2 ^ 53) by (apply Z.div_lt_upper_bound; lia).
    assert (Hq' : 2 ^ 52 <= (n' * 2 ^ k') / 10) by (apply Z.div_le_lower_bound; lia).
    pose proof (pow2_double (1074 - k) (1074 - k') ltac:(lia) ltac:(lia)) as Hd.
    assert (Hpp : 0 < 2 ^ (1074 - k)) by (apply Z.pow_pos_nonneg; lia).
    set (a := rne_div (n * 2 ^ k) 10) in *. set (b := rne_div (n' * 2 ^ k') 10) in *.
    set (u := 2 ^ (1074 - k)) in *. set (v := 2 ^ (1074 - k')) in *.
    assert (a * u <= 2 ^ 53 * u) by nia.
    assert (2 ^ 52 * v <= b * v) by nia.
    change (2 ^ 53) with (2 ^ 52 * 2) in *. nia.
Qed.

Lemma tenths_of_fraction (m : positive) (e : Z) :
  bounded prec emax m e = true -> e < 0 ->
  0 <= rne_div (10 * Zpos m) (2 ^ (- e)) <= 10 * 2 ^ 52.
Proof.
  intros Hb He. destruct (bounded_range m e Hb) as (Hr & Hm & _).
  assert (Hp : 2 <= 2 ^ (- e)).
  { change 2 with (2 ^ 1) at 1. apply Z.pow_le_mono_r; lia. }
  pose proof (rne_div_floor (10 * Zpos m) (2 ^ (- e)) ltac:(lia)) as [Hlo Hup].
  assert (0 <= 10 * Zpos m / 2 ^ (- e)) by (apply Z.div_pos; lia).
  assert (10 * Zpos m / 2 ^ (- e) < 10 * 2 ^ 52).
  { apply Z.div_lt_upper_bound; [lia|].
    change (2 ^ 53) with (2 * 2 ^ 52) in Hm. nia. }
  lia.
Qed.

Lemma round1_number (x : float) : is_finite x = true -> is_finite (round1 x) = true.
Proof.
  destruct x as [s|s| |s m e]; try discriminate; [reflexivity|].
  cbn [is_finite round1]. intro Hb.
  destruct (Z.leb_spec 0 e) as [He|He]; [exact Hb|].
  apply tenths_number. pose proof (tenths_of_fraction m e Hb He). lia.
Qed.

(** [round(x, 1)] of a positive float, in units of 2^-1074. *)
Lemma tenths_top : scaled (of_ratio false (10 * 2 ^ 52) 10) = 2 ^ 52 * 2 ^ 1074.
Proof. vm_compute. reflexivity. Qed.

Lemma round1_sign (s : bool) (m : positive) (e : Z) :
  bounded prec emax m e = true ->
  scaled (round1 (S754_finite s m e))
  = cond_Zopp s (scaled (round1 (S754_finite false m e))).
Proof.
  intro Hb. cbn [round1]. destruct (Z.leb_spec 0 e) as [He|He]; [reflexivity|].
  apply tenths_sign. pose proof (tenths_of_fraction m e Hb He). lia.
Qed.

Lemma round1_nonneg (m : positive) (e : Z) :
  bounded prec emax m e = true -> 0 <= scaled (round1 (S754_finite false m e)).
Proof.
  intro Hb. cbn [round1]. destruct (Z.leb_spec 0 e) as [He|He].
  - cbn [scaled cond_Zopp]. destruct (bounded_range m e Hb) as (Hr & _).
    pose proof (scaled_pos m e ltac:(lia)). lia.
  - apply tenths_nonneg. pose proof (tenths_of_fraction m e Hb He). lia.
Qed.

Lemma cross_scale (m m' : Z) (a a' : Z) :
  0 <= a <= 1074 -> 0 <= a' <= 1074 ->
  m * 2 ^ (1074 - a) <= m' * 2 ^ (1074 - a') -> m * 2 ^ a' <= m' * 2 ^ a.
Proof.
  intros Ha Ha' H.
  assert (Hu : 2 ^ (1074 - a) * 2 ^ a = 2 ^ 1074)
    by (rewrite <- Z.pow_add_r by lia; f_equal; lia).
  assert (Hv : 2 ^ (1074 - a') * 2 ^ a' = 2 ^ 1074)
    by (rewrite <- Z.pow_add_r by lia; f_equal; lia).
  assert (HU : 0 < 2 ^ a) by (apply Z.pow_pos_nonneg; lia).
  assert (HV : 0 < 2 ^ a') by (apply Z.pow_pos_nonneg; lia).
  assert (HP : 0 < 2 ^ 1074) by (apply Z.pow_pos_nonneg; lia).
  set (u := 2 ^ (1074 - a)) in *. set (v := 2 ^ (1074 - a')) in *.
  set (U := 2 ^ a) in *. set (V := 2 ^ a') in *. set (P := 2 ^ 1074) in *.
  apply Z.mul_le_mono_pos_r with (p := P); [exact HP|].
  replace (m * V * P) with (m * u * (U * V)) by (rewrite <- Hu; ring).
  replace (m' * U * P) with (m' * v * (U * V)) by (rewrite <- Hv; ring).
  apply Z.mul_le_mono_nonneg_r; [nia|exact H].
Qed.

(** [round(x, 1)] is monotone on positive floats. *)
Lemma round1_mono_pos (m m' : positive) (e e' : Z) :
  bounded prec emax m e = true -> bounded prec emax m' e' = true ->
  Zpos m * 2 ^ (e + 1074) <= Zpos m' * 2 ^ (e' + 1074) ->
  scaled (round1 (S754_finite false m e))
  <= scaled (round1 (S754_finite false m' e')).
Proof.
  intros Hb Hb' H. cbn [round1].
  destruct (bounded_range m e Hb) as (Hr & Hm & Hn).
  destruct (bounded_range m' e' Hb') as (Hr' & Hm' & Hn').
  destruct (Z.leb_spec 0 e) as [He|He], (Z.leb_spec 0 e') as [He'|He'].
  - exact H.
  - exfalso. specialize (Hn ltac:(lia)).
    assert (2 ^ 52 * 2 ^ 1074 <= Zpos m * 2 ^ (e + 1074)).
    { assert (2 ^ 1074 <= 2 ^ (e + 1074)) by (apply Z.pow_le_mono_r; lia).
      assert (0 < 2 ^ 1074) by (apply Z.pow_pos_nonneg; lia). nia. }
    assert (Zpos m' * 2 ^ (e' + 1074) < 2 ^ 52 * 2 ^ 1074).
    { assert (2 * 2 ^ (e' + 1074) <= 2 ^ 1074)
        by (apply pow2_double; lia).
      assert (0 < 2 ^ (e' + 1074)) by (apply Z.pow_pos_nonneg; lia).
      change (2 ^ 53) with (2 ^ 52 * 2) in Hm'. nia. }
    lia.
  - pose proof (tenths_of_fraction m e Hb He) as Ht.
    apply Z.le_trans with (scaled (of_ratio false (10 * 2 ^ 52) 10)).
    + apply tenths_mono; lia.
    + rewrite tenths_top. cbn [scaled cond_Zopp]. specialize (Hn' ltac:(lia)).
      assert (2 ^ 1074 <= 2 ^ (e' + 1074)) by (apply Z.pow_le_mono_r; lia).
      assert (0 < 2 ^ 1074) by (apply Z.pow_pos_nonneg; lia). nia.
  - pose proof (tenths_of_fraction m e Hb He) as Ht.
    pose proof (tenths_of_fraction m' e' Hb' He') as Ht'.
    apply tenths_mono; [|lia]. split; [lia|].
    assert (0 < 2 ^ (- e)) by (apply Z.pow_pos_nonneg; lia).
    assert (0 < 2 ^ (- e')) by (apply Z.pow_pos_nonneg; lia).
    apply rne_div_mono; [lia|lia|].
    pose proof (cross_scale (Zpos m) (Zpos m') (- e) (- e') ltac:(lia) ltac:(lia)) as Hc.
    replace (1074 - - e) with (e + 1074) in Hc by lia.
    replace (1074 - - e') with (e' + 1074) in Hc by lia.
    specialize (Hc H). rewrite <- !Z.mul_assoc.
    apply Z.mul_le_mono_nonneg_l; [lia|exact Hc].
Qed.

(** [round(x, 1)] is monotone on numbers. *)
Lemma round1_scaled_mono (x y : float) :
  is_finite x = true -> is_finite y = true ->
  scaled x <= scaled y -> scaled (round1 x) <= scaled (round1 y).
Proof.
  destruct x as [sx| | |sx mx ex]; try discriminate;
    destruct y as [sy| | |sy my ey]; try discriminate;
    cbv beta iota delta [is_finite]; intros Hx Hy.
  - destruct (bounded_range my ey Hy) as (Hr & _).
    pose proof (scaled_pos my ey ltac:(lia)).
    rewrite (round1_sign sy my ey Hy). pose proof (round1_nonneg my ey Hy).
    change (round1 (S754_zero sx)) with (S754_zero sx).
    cbn [scaled]. destruct sy; cbn [cond_Zopp]; lia.
  - destruct (bounded_range mx ex Hx) as (Hr & _).
    pose proof (scaled_pos mx ex ltac:(lia)).
    rewrite (round1_sign sx mx ex Hx). pose proof (round1_nonneg mx ex Hx).
    change (round1 (S754_zero sy)) with (S754_zero sy).
    cbn [scaled]. destruct sx; cbn [cond_Zopp]; lia.
  - destruct (bounded_range mx ex Hx) as (Hrx & _).
    destruct (bounded_range my ey Hy) as (Hry & _).
    pose proof (scaled_pos mx ex ltac:(lia)).
    pose proof (scaled_pos my ey ltac:(lia)).
    rewrite (round1_sign sx mx ex Hx), (round1_sign sy my ey Hy).
    pose proof (round1_nonneg mx ex Hx). pose proof (round1_nonneg my ey Hy).
    pose proof (round1_mono_pos mx my ex ey Hx Hy).
    pose proof (round1_mono_pos my mx ey ex Hy Hx).
    cbn [scaled]. destruct sx, sy; cbn [cond_Zopp]; lia.
Qed.

Lemma py_min_from_least (l : list float) : forall cur,
  is_finite cur = true -> Forall (fun t => is_finite t = true) l ->
  is_finite (py_min_from cur l) = true
  /\ scaled (py_min_from cur l) <= scaled cur
  /\ Forall (fun t => scaled (py_min_from cur l) <= scaled t) l.
Proof.
  induction l as [|x l IH]; intros cur Hc Hl; cbn [py_min_from].
  - repeat split; [assumption|lia|constructor].
  - inversion Hl as [|? ? Hx Hl']; subst.
    cbn [lt number]. rewrite (ltb_scaled x cur Hx Hc).
    destruct (Z.ltb_spec (scaled x) (scaled cur)) as [Hlt|Hge].
    + destruct (IH x Hx Hl') as (Hn & Hle & Hall).
      split; [exact Hn|]. split; [lia|]. constructor; assumption.
    + destruct (IH cur Hc Hl') as (Hn & Hle & Hall).
      split; [exact Hn|]. split; [lia|]. constructor; [lia|assumption].
Qed.

Lemma py_max_from_greatest (l : list float) : forall cur,
  is_finite cur = true -> Forall (fun t => is_finite t = true) l ->
  is_finite (py_max_from cur l) = true
  /\ scaled cur <= scaled (py_max_from cur l)
  /\ Forall (fun t => scaled t <= scaled (py_max_from cur l)) l.
Proof.
  induction l as [|x l IH]; intros cur Hc Hl; cbn [py_max_from].
  - repeat split; [assumption|lia|constructor].
  - inversion Hl as [|? ? Hx Hl']; subst.
    cbn [lt number]. rewrite (ltb_scaled cur x Hc Hx).
    destruct (Z.ltb_spec (scaled cur) (scaled x)) as [Hlt|Hge].
    + destruct (IH x Hx Hl') as (Hn & Hle & Hall).
      split; [exact Hn|]. split; [lia|]. constructor; assumption.
    + destruct (IH cur Hc Hl') as (Hn & Hle & Hall).
      split; [exact Hn|]. split; [lia|]. constructor; [lia|assumption].
Qed.

(** [not (y < x)] is kept by [round(., 1)]. *)
Lemma round1_keeps_order (x y : float) :
  is_finite x = true -> is_finite y = true ->
  SFltb y x = false -> SFltb (round1 y) (round1 x) = false.
Proof.
  intros Hx Hy. rewrite (ltb_scaled y x Hy Hx).
  rewrite (ltb_scaled _ _ (round1_number y Hy) (round1_number x Hx)).
  rewrite !Z.ltb_ge. now apply round1_scaled_mono.
Qed.

End Binary64Order.

Lemma humidity_definedb_sound {num : Type} {N : Number num}
      (l : list (list (Sample num))) :
  forallb humidity_definedb l = true -> Forall humidity_defined l.
Proof.
  rewrite forallb_forall, Forall_forall. intros H run Hrun.
  specialize (H run Hrun). unfold humidity_definedb, humidity_defined in *.
  destruct (round0 _) as [hum|]; [now exists hum | discriminate].
Qed.


(** * The claims *)

Lemma mapM_ret {A} (l : list A) : Py.mapM (fun x => Py.ret x) l = inr l.
Proof. induction l as [|x l IH]; simpl; [reflexivity | now rewrite IH]. Qed.

(** C1, as the code has it: for every non-empty run the dominant condition is
    a condition group of the run with the highest occurrence count, and among
    groups that tie for the highest count it is the one met first when the
    interpreter iterates [set(conditions)], whose order is not the run order;
    the aggregated record carries it as its main condition.  For the groups
    Rain, Clouds, Rain, Clouds the result is Rain or Clouds. *)
Theorem C1_dominant_condition {num : Type} {N : Number num}
    (set_iter : list string -> list string) (local_date : Z -> Z)
    (run : list (Sample num)) :
  SetOrder set_iter -> run <> [] ->
  let conditions := conditions_of run in
  exists c before after,
    main_condition_of set_iter conditions = inr c
    /\ In c conditions
    /\ (forall c', (py_count conditions c' <= py_count conditions c)%nat)
    /\ set_iter conditions = before ++ c :: after
    /\ (forall x, In x before ->
                  (py_count conditions x < py_count conditions c)%nat)
    /\ (forall fd, _aggregate_day_forecast set_iter local_date run = inr fd ->
                   fd_main fd = c)
    /\ (conditions = ["Rain"; "Clouds"; "Rain"; "Clouds"]%string ->
        c = "Rain"%string \/ c = "Clouds"%string).
Proof.
  intros Hset Hne conditions.
  destruct (main_condition_spec set_iter Hset conditions)
    as (c & before & after & Hmax & Hin & Hcount & Heq & Hb).
  { subst conditions. destruct run; [congruence | discriminate]. }
  exists c, before, after. repeat (split; [assumption|]). split.
  - intros fd Hfd. destruct run as [|x rest]; [congruence|].
    destruct (aggregate_nonempty set_iter local_date Hset x rest)
      as (c' & item & Hc' & _ & Hagg).
    fold conditions in Hc'. rewrite Hmax in Hc'. injection Hc' as <-.
    rewrite Hagg in Hfd. destruct (round0 _); [|discriminate].
    now injection Hfd as <-.
  - intro Hc. rewrite Hc in Hin.
    destruct Hin as [<-|[<-|[<-|[<-|[]]]]]; auto.
Qed.

Lemma C1_dominant_condition_witness :
  exists c,
    main_condition_of first_seen (conditions_of Examples.tied_run) = inr c
    /\ (c = "Rain"%string \/ c = "Clouds"%string).
Proof.
  destruct (C1_dominant_condition first_seen Examples.utc_date Examples.tied_run
              first_seen_order ltac:(discriminate))
    as (c & _ & _ & Hc & _ & _ & _ & _ & _ & Htie).
  exists c. split; [exact Hc | apply Htie; reflexivity].
Defined.

(** C1 as stated fails: with the groups Rain, Clouds, Rain, Clouds and a set
    that happens to iterate Clouds before Rain, the dominant condition is
    Clouds, not the first-occurring Rain. *)
Lemma C1_tie_follows_set_order :
  ~ (forall set_iter, SetOrder set_iter ->
       main_condition_of set_iter ["Rain"; "Clouds"; "Rain"; "Clouds"]%string
       = inr "Rain"%string).
Proof.
  intro H. specialize (H last_seen_first last_seen_first_order).
  vm_compute in H. discriminate.
Qed.

Example tie_resolves_to_Clouds :
  main_condition_of last_seen_first ["Rain"; "Clouds"; "Rain"; "Clouds"]%string
  = inr "Clouds"%string.
Proof. reflexivity. Qed.

Example tie_resolves_to_Rain :
  main_condition_of first_seen ["Rain"; "Clouds"; "Rain"; "Clouds"]%string
  = inr "Rain"%string.
Proof. reflexivity. Qed.

(** C9: [_process_forecast] hands only non-empty runs to the per-day
    reduction (the runs are recorded here by a reduction that returns its
    argument), and on a non-empty run [day_data[0]] exists, no division by
    [len(...)] divides by zero, and the search for a sample of the dominant
    condition finds one, so [description] and [icon] are bound.  The only
    exception the reduction can raise is that of [round()] on a mean humidity
    that is not finite. *)
Theorem C9_aggregation_preconditions {num : Type} {N : Number num}
    (set_iter : list string -> list string) (local_date : Z -> Z)
    (items : list (Sample num)) (days : Z) :
  SetOrder set_iter ->
  let called := firstn (Z.to_nat days) (runs local_date items) in
  process_forecast_with local_date (list (Sample num))
                        (fun run => Py.ret run) days items = inr called
  /\ Forall (fun run => run <> []) called
  /\ (forall run, run <> [] ->
        (exists first, py_first run = inr first)
        /\ (exists q, py_truediv (py_sum (map temp run)) (len (map temp run))
                      = inr q)
        /\ (exists q, py_truediv (py_sum (map humidity run)) (len run) = inr q)
        /\ (exists q, py_truediv (py_sum (map wind_speed run)) (len run) = inr q)
        /\ (exists c item,
               main_condition_of set_iter (conditions_of run) = inr c
               /\ first_matching c run = Some item)
        /\ (forall e, _aggregate_day_forecast set_iter local_date run = inl e ->
                      e = Py.NonFinite))
  /\ (forall e, _process_forecast set_iter local_date items days = inl e ->
                e = Py.NonFinite).
Proof.
  intros Hset called. split; [|split; [|split]].
  - rewrite process_forecast_with_runs. apply mapM_ret.
  - apply Forall_firstn.
    now destruct (runs_partition local_date items) as (_ & Hne & _).
  - intros [|x rest] Hne; [congruence|].
    split; [now exists x|].
    split; [eexists; cbn [map]; apply py_truediv_len|].
    split; [eexists; apply py_truediv_len|].
    split; [eexists; apply py_truediv_len|].
    destruct (aggregate_nonempty set_iter local_date Hset x rest)
      as (c & item & Hc & Hfind & _).
    split; [now exists c, item|].
    intro e. now apply aggregate_raises_only_NonFinite.
  - intro e. now apply process_forecast_raises_only_NonFinite.
Qed.

Lemma C9_aggregation_preconditions_witness :
  Forall (fun run => run <> [])
         (firstn 5 (runs Examples.utc_date Examples.five_days))
  /\ forall e,
       _process_forecast first_seen Examples.utc_date Examples.five_days 5
       = inl e -> e = Py.NonFinite.
Proof.
  destruct (C9_aggregation_preconditions first_seen Examples.utc_date
              Examples.five_days 5 first_seen_order)
    as (_ & Hcalled & _ & Hraise).
  split; [exact Hcalled | exact Hraise].
Defined.

(** The guard matters: on an empty run the reduction raises at [max()]. *)
Example aggregate_empty_run :
  _aggregate_day_forecast (num := Binary64.float) first_seen Examples.utc_date []
  = inl Py.EmptySequence.
Proof. reflexivity. Qed.

(** C3: for every sample sequence and every day count [days >= 0], a forecast
    that is returned has at most [days] entries, one per run among the first
    [days] runs, in order; it is returned whenever those runs' mean humidities
    are finite.  In particular, when the input spans seven calendar days (seven
    runs of pairwise different dates) and [days = 3], exactly three entries are
    returned, dated with the first three calendar days met. *)
Theorem C3_forecast_length_bounded {num : Type} {N : Number num}
    (set_iter : list string -> list string) (local_date : Z -> Z)
    (items : list (Sample num)) (days : Z) :
  SetOrder set_iter -> 0 <= days ->
  let run_dates := map (run_date local_date) (runs local_date items) in
  (forall out, _process_forecast set_iter local_date items days = inr out ->
     len out <= days
     /\ map fd_date out = firstn (Z.to_nat days) run_dates)
  /\ (Forall (humidity_defined (num := num))
             (firstn (Z.to_nat days) (runs local_date items)) ->
      exists out, _process_forecast set_iter local_date items days = inr out)
  /\ (List.length run_dates = 7%nat -> NoDup run_dates -> days = 3 ->
      forall out, _process_forecast set_iter local_date items days = inr out ->
        List.length out = 3%nat
        /\ map fd_date out = firstn 3 run_dates).
Proof.
  intros Hset Hdays run_dates.
  assert (Hdates : forall out,
             _process_forecast set_iter local_date items days = inr out ->
             map fd_date out = firstn (Z.to_nat days) run_dates).
  { intro out. now apply process_forecast_dates. }
  split; [|split].
  - intros out Hout. split; [|now apply Hdates].
    rewrite process_forecast_runs in Hout. apply mapM_length in Hout.
    unfold len. rewrite Hout.
    pose proof (firstn_le_length (Z.to_nat days) (runs local_date items)). lia.
  - now apply process_forecast_returns.
  - intros Hseven _ -> out Hout. specialize (Hdates out Hout).
    split; [|exact Hdates].
    rewrite <- (length_map fd_date), Hdates, length_firstn, Hseven.
    reflexivity.
Qed.

Lemma C3_forecast_length_bounded_witness :
  exists out,
    _process_forecast first_seen Examples.utc_date Examples.seven_days 3
    = inr out
    /\ List.length out = 3%nat
    /\ map fd_date out = [19723; 19724; 19725].
Proof.
  destruct (C3_forecast_length_bounded first_seen Examples.utc_date
              Examples.seven_days 3 first_seen_order ltac:(lia))
    as (_ & Hret & Hseven).
  destruct Hret as [out Hout].
  { apply humidity_definedb_sound. vm_compute. reflexivity. }
  exists out. split; [exact Hout|].
  assert (Hdates : map (run_date Examples.utc_date)
                       (runs Examples.utc_date Examples.seven_days)
                   = [19723; 19724; 19725; 19726; 19727; 19728; 19729])
    by (vm_compute; reflexivity).
  rewrite Hdates in Hseven.
  apply Hseven; [reflexivity | | reflexivity | exact Hout].
  repeat constructor; simpl; intuition discriminate.
Defined.

Lemma chronological_run_count {num : Type} {N : Number num}
      (local_date : Z -> Z) (items : list (Sample num)) :
  (forall s t, s <= t -> local_date s <= local_date t) ->
  Sorted Z.le (map dt items) ->
  List.length (runs local_date items)
  = List.length (nodup Z.eq_dec (map (sample_date local_date) items)).
Proof.
  intros Hmono Hsorted.
  pose proof (runs_increasing local_date Hmono items Hsorted) as Hinc.
  apply StronglySorted_lt_NoDup in Hinc.
  rewrite <- (length_map (run_date local_date)).
  apply Permutation_length, NoDup_Permutation;
    [exact Hinc | apply NoDup_nodup|].
  intro d. rewrite nodup_In. apply run_dates_In.
Qed.

(** C6: for every sample sequence in ascending timestamp order (on a machine
    whose local date does not run backwards) with 40 samples over exactly 5
    calendar dates, whose runs have finite mean humidities,
    [_process_forecast(..., days=5)] returns exactly 5 entries, one per run in
    order, with strictly increasing, non-repeating dates; the runs rebuild the
    input, none is empty, each holds one date, and neighbouring runs differ
    in date, so the boundaries are exactly the date changes. *)
Theorem C6_five_chronological_days {num : Type} {N : Number num}
    (set_iter : list string -> list string) (local_date : Z -> Z)
    (items : list (Sample num)) :
  SetOrder set_iter ->
  (forall s t, s <= t -> local_date s <= local_date t) ->
  Sorted Z.le (map dt items) ->
  List.length items = 40%nat ->
  List.length (nodup Z.eq_dec (map (sample_date local_date) items)) = 5%nat ->
  Forall (humidity_defined (num := num)) (runs local_date items) ->
  exists out,
    _process_forecast set_iter local_date items 5 = inr out
    /\ List.length out = 5%nat
    /\ StronglySorted Z.lt (map fd_date out)
    /\ NoDup (map fd_date out)
    /\ Py.mapM (_aggregate_day_forecast set_iter local_date)
               (runs local_date items) = inr out
    /\ List.concat (runs local_date items) = items
    /\ Forall (fun run => run <> []) (runs local_date items)
    /\ Forall (fun run =>
                 Forall (fun x => sample_date local_date x
                                  = run_date local_date run) run)
              (runs local_date items)
    /\ changes (map (run_date local_date) (runs local_date items)).
Proof.
  intros Hset Hmono Hsorted _ Hfive Hhum.
  pose proof (chronological_run_count local_date items Hmono Hsorted) as Hcount.
  rewrite Hfive in Hcount.
  assert (Hall : firstn (Z.to_nat 5) (runs local_date items)
                 = runs local_date items).
  { apply firstn_all2. rewrite Hcount. simpl. lia. }
  destruct (process_forecast_returns set_iter local_date Hset items 5)
    as [out Hout]; [now rewrite Hall|].
  pose proof (process_forecast_dates set_iter local_date Hset items 5 out Hout)
    as Hdates.
  rewrite firstn_map, Hall in Hdates.
  pose proof (runs_increasing local_date Hmono items Hsorted) as Hinc.
  exists out. split; [exact Hout|].
  split; [rewrite <- (length_map fd_date), Hdates, length_map; exact Hcount|].
  split; [now rewrite Hdates|].
  split; [rewrite Hdates; now apply StronglySorted_lt_NoDup|].
  split; [now rewrite <- Hall, <- process_forecast_runs|].
  apply runs_partition.
Qed.

Lemma C6_five_chronological_days_witness :
  exists out,
    _process_forecast first_seen Examples.utc_date Examples.five_days 5 = inr out
    /\ List.length out = 5%nat
    /\ StronglySorted Z.lt (map fd_date out).
Proof.
  destruct (C6_five_chronological_days first_seen Examples.utc_date
              Examples.five_days first_seen_order utc_date_mono)
    as (out & Hout & Hlen & Hinc & _).
  - vm_compute. repeat constructor; discriminate.
  - reflexivity.
  - vm_compute. reflexivity.
  - apply humidity_definedb_sound. vm_compute. reflexivity.
  - exists out. auto.
Defined.

(** ** Temperatures of a day record *)

Lemma round1_Qeq (x y : Q) : (x == y)%Q -> Exact.round1 x = Exact.round1 y.
Proof.
  unfold Qeq, Exact.round1. intro H. f_equal.
  apply Z.le_antisymm; apply rne_div_mono; lia.
Qed.

Lemma exact_mean_single (t : Q) : (mean [t] == t)%Q.
Proof.
  unfold mean, py_sum. cbn [fold_left add true_div of_int Exact.number].
  change (inject_Z (len [t])) with 1%Q. change (inject_Z 0) with 0%Q.
  unfold Qdiv. change (/ 1)%Q with 1%Q. ring.
Qed.

Lemma exact_aggregate {set_iter : list string -> list string}
      (local_date : Z -> Z) (Hset : SetOrder set_iter)
      (x : Sample Q) (rest : list (Sample Q)) :
  exists fd,
    _aggregate_day_forecast set_iter local_date (x :: rest) = inr fd
    /\ fd_temp_min fd = round1 (py_min_from (temp x) (map temp rest))
    /\ fd_temp_max fd = round1 (py_max_from (temp x) (map temp rest))
    /\ fd_temp_avg fd = round1 (mean (map temp (x :: rest))).
Proof.
  destruct (aggregate_nonempty set_iter local_date Hset x rest)
    as (c & item & _ & _ & ->).
  cbn [round0 Exact.number Exact.round0].
  eexists. split; [reflexivity|]. repeat split.
Qed.

(** The three temperatures of a record are the roundings of [min], of
    [sum / len] and of [max], on every kind of number. *)
Lemma aggregate_temperatures {num : Type} {N : Number num}
      (set_iter : list string -> list string) (local_date : Z -> Z)
      (Hset : SetOrder set_iter)
      (x : Sample num) (rest : list (Sample num)) (fd : ForecastDay num) :
  _aggregate_day_forecast set_iter local_date (x :: rest) = inr fd ->
  fd_temp_min fd = round1 (py_min_from (temp x) (map temp rest))
  /\ fd_temp_avg fd = round1 (mean (map temp (x :: rest)))
  /\ fd_temp_max fd = round1 (py_max_from (temp x) (map temp rest)).
Proof.
  destruct (aggregate_nonempty set_iter local_date Hset x rest)
    as (c & item & _ & _ & ->).
  destruct (round0 _) as [hum|]; [|discriminate].
  intros [= <-]. repeat split.
Qed.

(** C8, as the code has it.  On every kind of number the three temperatures
    of a non-empty run are the one-decimal roundings of the run's [min], of
    [sum / len] and of its [max], and [min] and [max] return items of the run.
    In exact arithmetic [min] is a least and [max] a greatest item, and
    temp_min <= temp_avg <= temp_max after rounding.  In binary64, on finite
    temperatures, [min] and [max] are a least and a greatest item as well and
    temp_min <= temp_max; temp_min <= temp_avg <= temp_max holds whenever the
    computed mean lies between the minimum and the maximum, which the
    floating-point sum does not guarantee, and the rounding of any finite
    float between the minimum and the maximum, however it was summed, lies
    between temp_min and temp_max.  A single-sample run gives
    temp_min = temp_max = temp_avg = the sample's temperature rounded to one
    decimal, in exact arithmetic and in binary64 (for a well-formed
    temperature other than negative zero, whose mean is positive zero). *)
Theorem C8_temperature_order
    (set_iter : list string -> list string) (local_date : Z -> Z) :
  SetOrder set_iter ->
  (forall (num : Type) (N : Number num)
          (x : Sample num) (rest : list (Sample num)) (fd : ForecastDay num),
     _aggregate_day_forecast set_iter local_date (x :: rest) = inr fd ->
     let temps := map temp (x :: rest) in
     exists tmin tmax,
       py_min temps = inr tmin /\ In tmin temps
       /\ py_max temps = inr tmax /\ In tmax temps
       /\ fd_temp_min fd = round1 tmin
       /\ fd_temp_avg fd = round1 (mean temps)
       /\ fd_temp_max fd = round1 tmax)
  /\ (forall (x : Sample Q) (rest : list (Sample Q)),
        let temps := map temp (x :: rest) in
        exists fd tmin tmax,
          _aggregate_day_forecast set_iter local_date (x :: rest) = inr fd
          /\ py_min temps = inr tmin /\ py_max temps = inr tmax
          /\ Forall (fun t => tmin <= t /\ t <= tmax)%Q temps
          /\ (fd_temp_min fd <= fd_temp_avg fd)%Q
          /\ (fd_temp_avg fd <= fd_temp_max fd)%Q)
  /\ (forall x : Sample Q,
        exists fd,
          _aggregate_day_forecast set_iter local_date [x] = inr fd
          /\ fd_temp_min fd = round1 (temp x)
          /\ fd_temp_max fd = round1 (temp x)
          /\ fd_temp_avg fd = round1 (temp x))
  /\ (forall x : Sample Binary64.float,
        valid_binary Binary64.prec Binary64.emax (temp x) = true ->
        temp x <> S754_zero true ->
        humidity_defined [x] ->
        exists fd,
          _aggregate_day_forecast set_iter local_date [x] = inr fd
          /\ fd_temp_min fd = round1 (temp x)
          /\ fd_temp_max fd = round1 (temp x)
          /\ fd_temp_avg fd = round1 (temp x))
  /\ (forall (x : Sample Binary64.float) (rest : list (Sample Binary64.float))
             (fd : ForecastDay Binary64.float),
        Forall (fun item => Binary64.is_finite (temp item) = true) (x :: rest) ->
        _aggregate_day_forecast set_iter local_date (x :: rest) = inr fd ->
        let temps := map temp (x :: rest) in
        exists tmin tmax,
          py_min temps = inr tmin /\ py_max temps = inr tmax
          /\ Forall (fun t => lt t tmin = false /\ lt tmax t = false) temps
          /\ lt (fd_temp_max fd) (fd_temp_min fd) = false
          /\ (Binary64.is_finite (mean temps) = true ->
              lt (mean temps) tmin = false ->
              lt tmax (mean temps) = false ->
              lt (fd_temp_avg fd) (fd_temp_min fd) = false
              /\ lt (fd_temp_max fd) (fd_temp_avg fd) = false)
          /\ (forall m : Binary64.float,
                Binary64.is_finite m = true ->
                lt m tmin = false -> lt tmax m = false ->
                lt (round1 m) (fd_temp_min fd) = false
                /\ lt (fd_temp_max fd) (round1 m) = false)).
Proof.
  intro Hset. split; [|split; [|split; [|split]]].
  - intros num N x rest fd Hfd temps.
    destruct (aggregate_temperatures set_iter local_date Hset x rest fd Hfd)
      as (Hmin & Havg & Hmax).
    exists (py_min_from (temp x) (map temp rest)),
           (py_max_from (temp x) (map temp rest)).
    split; [reflexivity|]. split; [apply py_min_from_In|].
    split; [reflexivity|]. split; [apply py_max_from_In|].
    repeat split; assumption.
  - intros x rest temps.
    destruct (exact_aggregate local_date Hset x rest)
      as (fd & Hfd & Hmin & Hmax & Havg).
    exists fd, (py_min_from (temp x) (map temp rest)),
           (py_max_from (temp x) (map temp rest)).
    split; [exact Hfd|]. split; [reflexivity|]. split; [reflexivity|].
    destruct (ExactFacts.py_min_from_le (map temp rest) (temp x)) as [Hm1 Hm2].
    destruct (ExactFacts.py_max_from_ge (map temp rest) (temp x)) as [HM1 HM2].
    split.
    { unfold temps. cbn [map]. constructor; [split; assumption|].
      rewrite Forall_forall in *. intros t Ht. split; auto. }
    rewrite Hmin, Hmax, Havg.
    destruct (ExactFacts.mean_between (temp x) (map temp rest)) as [Hlo Hhi].
    split; apply ExactFacts.round1_mono; assumption.
  - intro x.
    destruct (exact_aggregate local_date Hset x [])
      as (fd & Hfd & Hmin & Hmax & Havg).
    exists fd. split; [exact Hfd|]. rewrite Hmin, Hmax, Havg.
    split; [reflexivity|]. split; [reflexivity|].
    apply round1_Qeq, exact_mean_single.
  - intros x Hvalid Hzero [hum Hhum].
    destruct (aggregate_nonempty set_iter local_date Hset x [])
      as (c & item & _ & _ & Hagg).
    rewrite Hhum in Hagg. eexists. split; [exact Hagg|].
    cbn [day_record fd_temp_min fd_temp_max fd_temp_avg map py_min_from py_max_from].
    repeat split.
    now rewrite (Binary64Facts.mean_single (temp x) Hvalid Hzero).
  - intros x rest fd Hfin Hfd temps.
    destruct (aggregate_temperatures set_iter local_date Hset x rest fd Hfd)
      as (Hmin & Havg & Hmax).
    inversion Hfin as [|? ? Hx Hrest]; subst.
    assert (Hrest' : Forall (fun t => Binary64.is_finite t = true) (map temp rest))
      by (rewrite Forall_forall in *; intros t Ht;
          apply in_map_iff in Ht; destruct Ht as (item & <- & Hi); auto).
    destruct (Binary64Order.py_min_from_least (map temp rest) (temp x) Hx Hrest')
      as (Hn1 & Hle1 & Hall1).
    destruct (Binary64Order.py_max_from_greatest (map temp rest) (temp x) Hx Hrest')
      as (Hn2 & Hle2 & Hall2).
    set (tmin := py_min_from (temp x) (map temp rest)) in *.
    set (tmax := py_max_from (temp x) (map temp rest)) in *.
    exists tmin, tmax. split; [reflexivity|]. split; [reflexivity|].
    assert (Hbetween : Forall (fun t => lt t tmin = false /\ lt tmax t = false)
                              temps).
    { unfold temps. cbn [map lt Binary64.number].
      constructor.
      - rewrite (Binary64Order.ltb_scaled _ _ Hx Hn1),
                (Binary64Order.ltb_scaled _ _ Hn2 Hx), !Z.ltb_ge. lia.
      - rewrite Forall_forall in *. intros t Ht.
        rewrite (Binary64Order.ltb_scaled _ _ (Hrest' t Ht) Hn1),
                (Binary64Order.ltb_scaled _ _ Hn2 (Hrest' t Ht)), !Z.ltb_ge.
        specialize (Hall1 t Ht). specialize (Hall2 t Ht). lia. }
    split; [exact Hbetween|].
    rewrite Hmin, Havg, Hmax. fold tmin tmax. cbn [lt round1 Binary64.number].
    split.
    + apply Binary64Order.round1_keeps_order; [assumption..|].
      rewrite (Binary64Order.ltb_scaled _ _ Hn2 Hn1), Z.ltb_ge. lia.
    + split; intros; split; apply Binary64Order.round1_keeps_order;
        assumption.
Qed.

Lemma C8_temperature_order_witness :
  exists fd,
    _aggregate_day_forecast first_seen Examples.utc_date Examples.tied_run
    = inr fd
    /\ fd_temp_min fd = Binary64.dec 120 1
    /\ fd_temp_max fd = Binary64.dec 122 1
    /\ lt (fd_temp_max fd) (fd_temp_min fd) = false
    /\ lt (fd_temp_avg fd) (fd_temp_min fd) = false
    /\ lt (fd_temp_max fd) (fd_temp_avg fd) = false.
Proof.
  destruct (C8_temperature_order first_seen Examples.utc_date first_seen_order)
    as (Hfields & _ & _ & _ & Hfloat).
  destruct (aggregate_returns first_seen Examples.utc_date first_seen_order
              Examples.tied_run) as (fd & Hfd & _).
  { discriminate. }
  { exists 62. vm_compute. reflexivity. }
  exists fd. split; [exact Hfd|].
  change Examples.tied_run
    with (Examples.sample_at Examples.midnight 0
          :: map (Examples.sample_at Examples.midnight) [1; 2; 3]%nat) in Hfd.
  destruct (Hfields _ _ _ _ fd Hfd)
    as (tmin & tmax & Htmin & _ & Htmax & _ & Hmin & _ & Hmax).
  destruct (Hfloat (Examples.sample_at Examples.midnight 0)
                   (map (Examples.sample_at Examples.midnight) [1; 2; 3]%nat) fd)
    as (tmin' & tmax' & Htmin' & Htmax' & _ & Horder & Hmean & _).
  { repeat constructor. }
  { exact Hfd. }
  injection Htmin as <-. injection Htmax as <-.
  injection Htmin' as <-. injection Htmax' as <-.
  split; [rewrite Hmin; vm_compute; reflexivity|].
  split; [rewrite Hmax; vm_compute; reflexivity|].
  split; [exact Horder|].
  apply Hmean; vm_compute; reflexivity.
Defined.

(** C8 as stated fails in floating point.  Six samples of 0.05 degrees have
    minimum and maximum 0.05, which round to 0.1, while their mean
    0.049999999999999996 rounds to 0.0; thirty-six samples of 0.45 round to
    0.5 at both ends and to 0.4 in the mean. *)
Lemma C8_rounded_mean_below_minimum :
  (exists fd,
     _aggregate_day_forecast first_seen Examples.utc_date
       (Examples.steady_run (Binary64.dec 5 2) 6) = inr fd
     /\ fd_temp_min fd = Binary64.dec 1 1
     /\ fd_temp_max fd = Binary64.dec 1 1
     /\ fd_temp_avg fd = S754_zero false
     /\ lt (fd_temp_avg fd) (fd_temp_min fd) = true)
  /\ (exists fd,
        _aggregate_day_forecast first_seen Examples.utc_date
          (Examples.steady_run (Binary64.dec 45 2) 36) = inr fd
        /\ fd_temp_min fd = Binary64.dec 5 1
        /\ fd_temp_max fd = Binary64.dec 5 1
        /\ fd_temp_avg fd = Binary64.dec 4 1
        /\ lt (fd_temp_avg fd) (fd_temp_min fd) = true).
Proof.
  split; eexists; (split; [vm_compute; reflexivity|]);
    vm_compute; repeat split.
Qed.

(** ** The field mapper *)

(** What [round(x, 1)] returns on a binary64: the double nearest to a decimal
    [n / 10], or [x] itself when [x] is an integer, a zero, an infinity or NaN. *)
Lemma binary64_round1_decimal (x : Binary64.float) :
  (exists s n, Binary64.round1 x = Binary64.of_ratio s n 10)
  \/ (Binary64.round1 x = x
      /\ match x with
         | S754_finite _ _ e => 0 <= e
         | _ => True
         end).
Proof.
  destruct x as [s|s| |s m e]; simpl; auto.
  destruct (Z.leb_spec 0 e); [right; auto|].
  left. now exists s, (rne_div (10 * Zpos m) (2 ^ (- e))).
Qed.

(** C7: the snapshot's visibility is the payload's visibility, or 0 when the
    key is absent, divided by 1000; the wind direction is the payload's, or 0
    when absent.  10000 metres give 10.0 km, in floating point (the double
    10.0) and exactly; an absent visibility gives 0.0. *)
Theorem C7_visibility_in_km_and_defaults :
  (forall (num : Type) (N : Number num) (now : Z) (data : CurrentPayload num),
     let w := _process_current_weather now data in
     (forall metres, p_visibility data = Some metres ->
                     visibility w = true_div metres (of_int 1000))
     /\ (p_visibility data = None ->
         visibility w = true_div (of_int 0) (of_int 1000))
     /\ (forall deg, p_wind_deg data = Some deg -> wind_direction w = deg)
     /\ (p_wind_deg data = None -> wind_direction w = 0))
  /\ (forall (now : Z) (data : CurrentPayload Binary64.float),
        (p_visibility data = Some (Binary64.of_Z 10000) ->
         visibility (_process_current_weather now data) = Binary64.of_Z 10)
        /\ (p_visibility data = None ->
            visibility (_process_current_weather now data) = S754_zero false))
  /\ (forall (now : Z) (data : CurrentPayload Q),
        (p_visibility data = Some (inject_Z 10000) ->
         (visibility (_process_current_weather now data) == 10 # 1)%Q)
        /\ (p_visibility data = None ->
            (visibility (_process_current_weather now data) == 0)%Q)).
Proof.
  split; [|split].
  - intros num N now data w. unfold w, _process_current_weather.
    cbn [visibility wind_direction].
    repeat split; intros; rewrite H; reflexivity.
  - intros now data. unfold _process_current_weather. cbn [visibility].
    split; intros ->; vm_compute; reflexivity.
  - intros now data. unfold _process_current_weather. cbn [visibility].
    split; intros ->; vm_compute; reflexivity.
Qed.

Lemma C7_visibility_in_km_and_defaults_witness :
  visibility (_process_current_weather 1704100000
                (Examples.payload (Some (Binary64.of_Z 10000)) None))
  = Binary64.of_Z 10
  /\ wind_direction (_process_current_weather 1704100000
                       (Examples.payload (Some (Binary64.of_Z 10000)) None))
     = 0.
Proof.
  destruct C7_visibility_in_km_and_defaults as (Hgen & Hfloat & _).
  split.
  - apply Hfloat. reflexivity.
  - apply (Hgen _ _ 1704100000
                (Examples.payload (Some (Binary64.of_Z 10000)) None)).
    reflexivity.
Defined.

(** C4, as the code has it: the snapshot's temperature, feels-like, minimum,
    maximum and wind speed are the payload's values rounded to one decimal
    (in exact arithmetic a number of tenths, in floating point the double
    nearest to one); humidity, pressure, cloud cover and wind direction are
    the payload's integers; the visibility is the quotient by 1000 as it comes
    out of the division, not rounded. *)
Theorem C4_snapshot_rounding :
  (forall (num : Type) (N : Number num) (now : Z) (data : CurrentPayload num),
     let w := _process_current_weather now data in
     temperature w = round1 (p_temp data)
     /\ feels_like w = round1 (p_feels_like data)
     /\ temp_min w = round1 (p_temp_min data)
     /\ temp_max w = round1 (p_temp_max data)
     /\ ws_wind_speed w = round1 (p_wind_speed data)
     /\ ws_humidity w = p_humidity data
     /\ pressure w = p_pressure data
     /\ clouds w = p_clouds data
     /\ wind_direction w = get_default (p_wind_deg data) 0
     /\ visibility w = true_div (get_default (p_visibility data) (of_int 0))
                                (of_int 1000))
  /\ (forall (now : Z) (data : CurrentPayload Q),
        let w := _process_current_weather now data in
        exists t f lo hi ws : Z,
          temperature w = t # 10 /\ feels_like w = f # 10
          /\ temp_min w = lo # 10 /\ temp_max w = hi # 10
          /\ ws_wind_speed w = ws # 10)
  /\ (forall x : Binary64.float,
        (exists s n, round1 x = Binary64.of_ratio s n 10)
        \/ (round1 x = x
            /\ match x with
               | S754_finite _ _ e => 0 <= e
               | _ => True
               end)).
Proof.
  split; [|split].
  - intros. repeat split.
  - intros now data w. unfold w, _process_current_weather.
    cbn [temperature feels_like temp_min temp_max ws_wind_speed round1
         Exact.number].
    unfold Exact.round1. do 5 eexists. repeat split.
  - exact binary64_round1_decimal.
Qed.

(** C4 as stated fails for the visibility: 12345 metres give 12.345 km, which
    [round(.., 1)] would turn into 12.3; in exact arithmetic 12345/1000 is not
    a number of tenths. *)
Lemma C4_visibility_not_rounded :
  (let w := _process_current_weather 1704100000
              (Examples.payload (Some (Binary64.of_Z 12345)) (Some 240)) in
   visibility w = Binary64.dec 12345 3
   /\ round1 (visibility w) = Binary64.dec 123 1
   /\ visibility w <> round1 (visibility w))
  /\ (let w := _process_current_weather 1704100000
                 (Examples.exact_payload (Some (inject_Z 12345)) (Some 240)) in
      (visibility w == 12345 # 1000)%Q
      /\ forall n : Z, ~ (visibility w == n # 10)%Q).
Proof.
  split.
  - vm_compute. repeat split. discriminate.
  - assert (Hvis : visibility
                     (_process_current_weather 1704100000
                        (Examples.exact_payload (Some (inject_Z 12345))
                                                (Some 240)))
                   = 12345 # 1000) by reflexivity.
    cbv zeta. rewrite Hvis. split; [reflexivity|].
    intros n H. unfold Qeq in H. cbn [Qnum Qden] in H. lia.
Qed.

(** ** The fetcher *)

(** C2, as the code has it.  [get_current_weather] classifies a 404 as
    NotFound naming the city, a 401 as Unauthorized whatever the body, any
    other non-200 status as a provider error carrying the status, a timeout as
    Timeout and a connection failure as ConnectionFailure.  [get_forecast]
    classifies a 404 as NotFound naming the city, every other non-200 status,
    401 included, as a provider error carrying the status, and every transport
    failure, timeouts and connection failures included, as one generic fetch
    error. *)
Theorem C2_fault_classification {num : Type} {N : Number num}
    (config : Config) (set_iter : list string -> list string)
    (local_date : Z -> Z) (city units : string) :
  (forall session_get now,
     let result := get_current_weather config session_get now city units in
     match session_get (current_params config city units) with
     | Response status text data =>
         (status = 404 -> raises result (NotFound city))
         /\ (status = 401 -> raises result Unauthorized)
         /\ (status <> 404 -> status <> 401 -> status <> 200 ->
             raises result (ProviderError status))
         /\ (status = 200 ->
             result = Returned (_process_current_weather now data))
     | Timeout _ => raises result TimedOut
     | ConnectionError _ => raises result ConnectionFailure
     | RequestException _ => raises result Unexpected
     end)
  /\ (forall session_get days,
        let result :=
          get_forecast config set_iter local_date session_get city units days in
        match session_get (forecast_params config city units days) with
        | Response status text data =>
            (status = 404 -> raises result (NotFound city))
            /\ (status <> 404 -> status <> 200 ->
                result = WeatherAPIError
                           ("Forecast API error: " ++ str_of_int status)
                /\ raises result (ProviderError status))
        | Timeout e | ConnectionError e | RequestException e =>
            result = WeatherAPIError ("Forecast fetch error: " ++ e)
            /\ raises result Unexpected
        end).
Proof.
  split.
  - intros session_get now result. unfold result, get_current_weather.
    destruct (session_get _) as [status text data|e|e|e];
      try (eexists; split; [reflexivity | constructor]).
    repeat split.
    + intros ->. eexists. split; [reflexivity | constructor].
    + intros ->. eexists. split; [reflexivity | constructor].
    + intros H404 H401 H200.
      apply Z.eqb_neq in H404, H401, H200. rewrite H404, H401, H200.
      eexists. split; [reflexivity | constructor].
    + intros ->. reflexivity.
  - intros session_get days result. unfold result, get_forecast.
    destruct (session_get _) as [status text data|e|e|e];
      try (split; [reflexivity | eexists; split; [reflexivity | constructor]]).
    split.
    + intros ->. eexists. split; [reflexivity | constructor].
    + intros H404 H200. apply Z.eqb_neq in H404, H200. rewrite H404, H200.
      split; [reflexivity | eexists; split; [reflexivity | constructor]].
Qed.

Lemma C2_fault_classification_witness :
  raises (get_current_weather (num := Binary64.float)
            Examples.config
            (fun _ => Response 404 ""%string (Examples.payload None None))
            1704100000 "Nonexistentville"%string "metric"%string)
         (NotFound "Nonexistentville"%string)
  /\ raises (get_current_weather (num := Binary64.float)
               Examples.config
               (fun _ => Response 401 "anything"%string (Examples.payload None None))
               1704100000 "Nonexistentville"%string "metric"%string)
            Unauthorized.
Proof.
  destruct (C2_fault_classification (num := Binary64.float) Examples.config
              first_seen Examples.utc_date
              "Nonexistentville"%string "metric"%string) as [Hcurrent _].
  split.
  - pose proof (Hcurrent
                  (fun _ => Response 404 ""%string (Examples.payload None None))
                  1704100000) as H.
    cbv beta iota zeta in H. destruct H as (H404 & _). now apply H404.
  - pose proof (Hcurrent
                  (fun _ => Response 401 "anything"%string
                                     (Examples.payload None None))
                  1704100000) as H.
    cbv beta iota zeta in H. destruct H as (_ & H401 & _). now apply H401.
Defined.

(** C2 as stated fails for the forecast: a 401 is reported as the generic
    status error, a timeout and a refused connection as the generic fetch
    error; none of them is Unauthorized, Timeout or ConnectionFailure. *)
Lemma C2_forecast_has_no_unauthorized_or_timeout :
  let fetch session_get :=
    get_forecast (num := Binary64.float) Examples.config
                 first_seen Examples.utc_date session_get "Paris"%string "metric"%string 5 in
  fetch (fun _ => Response 401 "Invalid API key"%string [])
  = WeatherAPIError "Forecast API error: 401"%string
  /\ ~ raises (fetch (fun _ => Response 401 "Invalid API key"%string [])) Unauthorized
  /\ fetch (fun _ => Timeout "read timed out"%string)
     = WeatherAPIError "Forecast fetch error: read timed out"%string
  /\ ~ raises (fetch (fun _ => Timeout "read timed out"%string)) TimedOut
  /\ fetch (fun _ => ConnectionError "connection refused"%string)
     = WeatherAPIError "Forecast fetch error: connection refused"%string
  /\ ~ raises (fetch (fun _ => ConnectionError "connection refused"%string))
              ConnectionFailure.
Proof.
  cbv zeta. repeat split; try reflexivity;
    intros (msg & Hmsg & Hclass); vm_compute in Hmsg;
    injection Hmsg as <-; inversion Hclass.
Qed.




(** ** The session *)

Section Toggle.

Context {num : Type} {N : Number num}.

Lemma display_unit (ev : DisplayEvent num) (app : WeatherApp num) :
  temperature_unit (display ev app) = temperature_unit app.
Proof. reflexivity. Qed.

Lemma fetch_weather_unit (api : string -> string -> Result (WeatherSnapshot num))
      (city : string) (app : WeatherApp num) :
  temperature_unit (fetch_weather api city app) = temperature_unit app.
Proof. unfold fetch_weather. destruct (api _ _); reflexivity. Qed.

Lemma toggle_unit (api : string -> string -> Result (WeatherSnapshot num))
      (app : WeatherApp num) :
  temperature_unit (toggle_temperature_unit api app)
  = if String.eqb (temperature_unit app) "celsius"
    then "fahrenheit"%string else "celsius"%string.
Proof.
  unfold toggle_temperature_unit.
  destruct (String.eqb (temperature_unit app) "celsius");
    match goal with
    | |- context [String.eqb (current_city ?a) ""] =>
        destruct (String.eqb (current_city a) "")
    end;
    rewrite ?fetch_weather_unit; reflexivity.
Qed.

End Toggle.

(** C10: whatever the session's unit string was, and whatever the refresh that
    follows does, after one call of the toggle the unit is 'celsius' or
    'fahrenheit' ('fahrenheit' exactly when it was 'celsius'); hence toggling
    twice from 'celsius' gives 'celsius' and twice from 'fahrenheit' gives
    'fahrenheit'.  This holds in particular for a session started from any
    configured TEMPERATURE_UNIT. *)
Theorem C10_toggle_unit {num : Type} {N : Number num} :
  (forall api (app : WeatherApp num),
     temperature_unit (toggle_temperature_unit api app) = "celsius"%string
     \/ temperature_unit (toggle_temperature_unit api app) = "fahrenheit"%string)
  /\ (forall api1 api2 (app : WeatherApp num),
        temperature_unit app = "celsius"%string ->
        temperature_unit
          (toggle_temperature_unit api2 (toggle_temperature_unit api1 app))
        = "celsius"%string)
  /\ (forall api1 api2 (app : WeatherApp num),
        temperature_unit app = "fahrenheit"%string ->
        temperature_unit
          (toggle_temperature_unit api2 (toggle_temperature_unit api1 app))
        = "fahrenheit"%string)
  /\ (forall api key default_city unit_,
        let app := WeatherApp_init (num := num)
                     (Config_init key default_city unit_) in
        temperature_unit (toggle_temperature_unit api app) = "celsius"%string
        \/ temperature_unit (toggle_temperature_unit api app)
           = "fahrenheit"%string).
Proof.
  assert (Hone : forall api (app : WeatherApp num),
             temperature_unit (toggle_temperature_unit api app) = "celsius"%string
             \/ temperature_unit (toggle_temperature_unit api app)
                = "fahrenheit"%string).
  { intros api app. rewrite toggle_unit.
    destruct (String.eqb _ _); auto. }
  split; [exact Hone|]. split; [|split].
  - intros api1 api2 app H. rewrite !toggle_unit, H. reflexivity.
  - intros api1 api2 app H. rewrite !toggle_unit, H. reflexivity.
  - intros. apply Hone.
Qed.

Lemma C10_toggle_unit_witness :
  let api (_ _ : string) : Result (WeatherSnapshot Binary64.float) :=
    WeatherAPIError "Request timed out. Please check your internet connection." in
  let app := WeatherApp_init (Config_init (Some "demo-key"%string) None
                                          (Some "Kelvin"%string)) in
  temperature_unit app = "kelvin"%string
  /\ temperature_unit (toggle_temperature_unit api app) = "celsius"%string
  /\ temperature_unit
       (toggle_temperature_unit api
          (toggle_temperature_unit api (toggle_temperature_unit api app)))
     = "celsius"%string.
Proof.
  intros api app.
  destruct (C10_toggle_unit (num := Binary64.float)) as (_ & Htwice & _).
  split; [reflexivity|]. split; [reflexivity|].
  apply Htwice. reflexivity.
Defined.

(** * Further properties of the aggregator *)

Lemma runs_from_collapse {num : Type} {N : Number num} (local_date : Z -> Z)
      (items : list (Sample num)) : forall run d,
  run <> [] -> run_date local_date run = d ->
  map (run_date local_date) (runs_from local_date run d items)
  = collapse (d :: map (sample_date local_date) items).
Proof.
  induction items as [|item items IH]; intros run d Hne Hd.
  - simpl. now rewrite Hd.
  - cbn [runs_from map collapse]. rewrite (Z.eqb_sym d).
    destruct (Z.eqb_spec (sample_date local_date item) d) as [He|He].
    + rewrite (IH (run ++ [item]) d).
      * now rewrite He.
      * destruct run; simpl; congruence.
      * now rewrite run_date_app.
    + cbn [map]. rewrite Hd. f_equal. apply IH; [congruence | reflexivity].
Qed.

Lemma run_dates_collapse {num : Type} {N : Number num} (local_date : Z -> Z)
      (items : list (Sample num)) :
  map (run_date local_date) (runs local_date items)
  = collapse (map (sample_date local_date) items).
Proof.
  destruct items as [|item items]; [reflexivity|].
  cbn [runs]. apply runs_from_collapse; [congruence | reflexivity].
Qed.

(** X1: the dates of a returned forecast are the first [days] dates of the
    input's date sequence with adjacent repeats collapsed.  Grouping is by
    adjacency only: a date that comes back after another date gets a second
    entry, and the forecast has min(days, number of date blocks) entries. *)
Theorem X1_forecast_dates_are_collapsed_input_dates
    {num : Type} {N : Number num}
    (set_iter : list string -> list string) (local_date : Z -> Z)
    (items : list (Sample num)) (days : Z) (out : list (ForecastDay num)) :
  SetOrder set_iter ->
  _process_forecast set_iter local_date items days = inr out ->
  let blocks := collapse (map (sample_date local_date) items) in
  map fd_date out = firstn (Z.to_nat days) blocks
  /\ List.length out = Nat.min (Z.to_nat days) (List.length blocks).
Proof.
  intros Hset Hout blocks.
  pose proof (process_forecast_dates set_iter local_date Hset items days out Hout)
    as Hdates.
  rewrite run_dates_collapse in Hdates. fold blocks in Hdates.
  split; [exact Hdates|].
  now rewrite <- (length_map fd_date), Hdates, length_firstn.
Qed.

Lemma mapM_firstn {A B} (f : A -> Py.M B) (n : nat) (l : list A) (out : list B) :
  Py.mapM f l = inr out -> Py.mapM f (firstn n l) = inr (firstn n out).
Proof.
  revert n out. induction l as [|x l IH]; intros n out H.
  - simpl in H. injection H as <-. now rewrite !firstn_nil.
  - simpl in H. destruct (f x) as [e|y] eqn:Hx; simpl in H; [discriminate|].
    destruct (Py.mapM f l) as [e|ys] eqn:Hl; simpl in H; [discriminate|].
    injection H as <-. destruct n as [|n]; [reflexivity|].
    simpl. rewrite Hx. simpl. now rewrite (IH n ys eq_refl).
Qed.

(** X2: asking for fewer days gives a prefix.  If the forecast for [days']
    is returned, the forecast for any [days <= days'] is returned too and is
    its first [days] entries. *)
Theorem X2_fewer_days_give_a_prefix {num : Type} {N : Number num}
    (set_iter : list string -> list string) (local_date : Z -> Z)
    (items : list (Sample num)) (days days' : Z)
    (out' : list (ForecastDay num)) :
  days <= days' ->
  _process_forecast set_iter local_date items days' = inr out' ->
  _process_forecast set_iter local_date items days
  = inr (firstn (Z.to_nat days) out').
Proof.
  intros Hle Hout. unfold _process_forecast in *.
  rewrite process_forecast_with_runs in *.
  apply (mapM_firstn _ (Z.to_nat days)) in Hout.
  rewrite firstn_firstn in Hout.
  replace (Nat.min (Z.to_nat days) (Z.to_nat days')) with (Z.to_nat days)
    in Hout by lia.
  exact Hout.
Qed.

Lemma find_first {A} (p : A -> bool) (l : list A) (x : A) :
  find p l = Some x ->
  exists before after,
    l = before ++ x :: after /\ p x = true
    /\ forall y, In y before -> p y = false.
Proof.
  induction l as [|a l IH]; simpl; [discriminate|].
  destruct (p a) eqn:Ha.
  - intros [= <-]. exists [], l. repeat split; auto. intros y [].
  - intro H. destruct (IH H) as (before & after & -> & Hx & Hb).
    exists (a :: before), after. repeat split; auto.
    intros y [<-|Hy]; auto.
Qed.

(** X4: the description and the icon of a day come from one and the same
    sample: the first sample of the run whose condition group is the day's
    main condition. *)
Theorem X4_description_and_icon_from_first_match {num : Type} {N : Number num}
    (set_iter : list string -> list string) (local_date : Z -> Z)
    (run : list (Sample num)) (fd : ForecastDay num) :
  SetOrder set_iter ->
  _aggregate_day_forecast set_iter local_date run = inr fd ->
  exists before item after,
    run = before ++ item :: after
    /\ w_main (weather item) = fd_main fd
    /\ (forall x, In x before -> w_main (weather x) <> fd_main fd)
    /\ fd_description fd = title (w_description (weather item))
    /\ fd_icon fd = w_icon (weather item).
Proof.
  intros Hset Hfd. destruct run as [|x rest].
  - rewrite (aggregate_empty set_iter local_date Hset) in Hfd. discriminate.
  - destruct (aggregate_nonempty set_iter local_date Hset x rest)
      as (c & item & _ & Hfind & Hagg).
    rewrite Hagg in Hfd. destruct (round0 _); [|discriminate].
    injection Hfd as <-. unfold first_matching in Hfind.
    apply find_first in Hfind.
    destruct Hfind as (before & after & Heq & Hx & Hb).
    exists before, item, after. cbn [day_record fd_main fd_description fd_icon].
    split; [exact Heq|]. split; [now apply String.eqb_eq|].
    split; [|split; reflexivity].
    intros y Hy. apply String.eqb_neq. now apply Hb.
Qed.

Lemma dominant_condition_of_run {num : Type} {N : Number num}
      (set_iter : list string -> list string) (local_date : Z -> Z)
      (run : list (Sample num)) :
  SetOrder set_iter -> run <> [] ->
  exists c,
    main_condition_of set_iter (conditions_of run) = inr c
    /\ (forall c', (py_count (conditions_of run) c'
                    <= py_count (conditions_of run) c)%nat)
    /\ (forall fd, _aggregate_day_forecast set_iter local_date run = inr fd ->
                   fd_main fd = c).
Proof.
  intros Hset Hne. destruct run as [|x rest]; [congruence|].
  destruct (main_condition_spec set_iter Hset (conditions_of (x :: rest)))
    as (c & _ & _ & Hmax & _ & Hcount & _); [discriminate|].
  exists c. split; [exact Hmax|]. split; [exact Hcount|].
  intros fd Hfd.
  destruct (aggregate_nonempty set_iter local_date Hset x rest)
    as (c' & item & Hc' & _ & Hagg).
  rewrite Hmax in Hc'. injection Hc' as <-.
  rewrite Hagg in Hfd. destruct (round0 _); [|discriminate].
  now injection Hfd as <-.
Qed.

(** X5: when one condition group occurs strictly more often in a run than
    every other group, it is the main condition of the day whatever order the
    interpreter iterates the set in. *)
Theorem X5_strict_plurality_wins {num : Type} {N : Number num}
    (set_iter : list string -> list string) (local_date : Z -> Z)
    (run : list (Sample num)) (c : string) :
  SetOrder set_iter ->
  In c (conditions_of run) ->
  (forall c', c' <> c ->
     (py_count (conditions_of run) c' < py_count (conditions_of run) c)%nat) ->
  main_condition_of set_iter (conditions_of run) = inr c
  /\ forall fd, _aggregate_day_forecast set_iter local_date run = inr fd ->
                fd_main fd = c.
Proof.
  intros Hset Hin Hmore.
  assert (Hne : run <> []) by (intros ->; destruct Hin).
  destruct (dominant_condition_of_run set_iter local_date run Hset Hne)
    as (c0 & Hc0 & Hcount & Hfd).
  assert (c0 = c).
  { destruct (string_dec c0 c) as [|Hdiff]; [assumption|].
    specialize (Hmore c0 Hdiff). specialize (Hcount c). lia. }
  subst c0. split; [exact Hc0 | exact Hfd].
Qed.

(** ** Exact arithmetic: bounds kept by the reductions *)

Module ExactBounds.

Local Open Scope Q_scope.

Lemma mean_lower (lo : Q) (x : Q) (l : list Q) :
  Forall (fun y => lo <= y) (x :: l) -> lo <= mean (x :: l).
Proof.
  intro H. pose proof (ExactFacts.len_positive x l) as Hn.
  unfold mean, py_sum. cbn [true_div add of_int Exact.number].
  apply Qle_shift_div_l; [exact Hn|].
  pose proof (ExactFacts.sum_lower lo (x :: l) (inject_Z 0) H) as Hs.
  change (inject_Z 0) with 0 in *. rewrite Qmult_comm.
  rewrite Qplus_0_l in Hs. exact Hs.
Qed.

Lemma mean_upper (hi : Q) (x : Q) (l : list Q) :
  Forall (fun y => y <= hi) (x :: l) -> mean (x :: l) <= hi.
Proof.
  intro H. pose proof (ExactFacts.len_positive x l) as Hn.
  unfold mean, py_sum. cbn [true_div add of_int Exact.number].
  apply Qle_shift_div_r; [exact Hn|].
  pose proof (ExactFacts.sum_upper hi (x :: l) (inject_Z 0) H) as Hs.
  change (inject_Z 0) with 0 in *. rewrite Qmult_comm.
  rewrite Qplus_0_l in Hs. exact Hs.
Qed.

Lemma round_lower (lo : Z) (x : Q) :
  inject_Z lo <= x -> (lo <= rne_div (Qnum x) (Zpos (Qden x)))%Z.
Proof.
  unfold Qle. cbn [Qnum Qden inject_Z]. intro H.
  apply Z.le_trans with (rne_div (lo * 1) 1).
  - rewrite rne_div_exact; lia.
  - apply rne_div_mono; lia.
Qed.

Lemma round_upper (hi : Z) (x : Q) :
  x <= inject_Z hi -> (rne_div (Qnum x) (Zpos (Qden x)) <= hi)%Z.
Proof.
  unfold Qle. cbn [Qnum Qden inject_Z]. intro H.
  apply Z.le_trans with (rne_div (hi * 1) 1).
  - apply rne_div_mono; lia.
  - rewrite rne_div_exact; lia.
Qed.

(** Rounding half-even moves a fraction by at most one half. *)
Lemma rne_div_error (a b : Z) :
  (0 < b -> - b <= 2 * (b * rne_div a b - a) <= b)%Z.
Proof.
  intro Hb. unfold rne_div.
  pose proof (Z.div_mod a b ltac:(lia)) as Ha.
  pose proof (Z.mod_pos_bound a b Hb) as Hr.
  set (q := (a / b)%Z) in *. set (r := (a mod b)%Z) in *.
  destruct (Z.compare_spec (2 * r) b); try destruct (Z.even q); nia.
Qed.

Lemma round1_error (x : Q) :
  x - (1 # 20) <= Exact.round1 x /\ Exact.round1 x <= x + (1 # 20).
Proof.
  destruct x as [n d]. unfold Exact.round1. cbn [Qnum Qden].
  pose proof (rne_div_error (10 * n) (Zpos d) ltac:(lia)) as H.
  set (r := rne_div (10 * n) (Z.pos d)) in *.
  unfold Qle, Qminus, Qplus, Qopp. cbn [Qnum Qden].
  rewrite !Pos2Z.inj_mul. split; nia.
Qed.

Lemma round1_idempotent (x : Q) :
  Exact.round1 (Exact.round1 x) = Exact.round1 x.
Proof.
  unfold Exact.round1. cbn [Qnum Qden].
  rewrite (Z.mul_comm 10 (rne_div _ _)), rne_div_exact by lia. reflexivity.
Qed.

End ExactBounds.

(** X6: in exact arithmetic the day's humidity stays within the range of the
    samples: if every sample humidity of a run lies between the integers [lo]
    and [hi] (say 0 and 100), so does the rounded mean. *)
Theorem X6_exact_humidity_within_sample_range
    (set_iter : list string -> list string) (local_date : Z -> Z)
    (run : list (Sample Q)) (lo hi : Z) (fd : ForecastDay Q) :
  SetOrder set_iter ->
  _aggregate_day_forecast set_iter local_date run = inr fd ->
  Forall (fun x => (inject_Z lo <= humidity x)%Q /\ (humidity x <= inject_Z hi)%Q)
         run ->
  lo <= fd_humidity fd <= hi.
Proof.
  intros Hset Hfd Hall. destruct run as [|x rest].
  - rewrite (aggregate_empty set_iter local_date Hset) in Hfd. discriminate.
  - destruct (aggregate_nonempty set_iter local_date Hset x rest)
      as (c & item & _ & _ & Hagg).
    assert (Hlo : (inject_Z lo <= mean (map humidity (x :: rest)))%Q).
    { apply ExactBounds.mean_lower. change (Forall (fun y => (inject_Z lo <= y)%Q)
                                              (map humidity (x :: rest))).
      rewrite Forall_map. eapply Forall_impl; [|exact Hall]. simpl. tauto. }
    assert (Hhi : (mean (map humidity (x :: rest)) <= inject_Z hi)%Q).
    { apply ExactBounds.mean_upper. change (Forall (fun y => (y <= inject_Z hi)%Q)
                                              (map humidity (x :: rest))).
      rewrite Forall_map. eapply Forall_impl; [|exact Hall]. simpl. tauto. }
    remember (mean (map humidity (x :: rest))) as m eqn:Hm.
    rewrite Hagg in Hfd. cbn [round0 Exact.number Exact.round0] in Hfd.
    injection Hfd as <-. cbn [day_record fd_humidity]. split.
    + now apply ExactBounds.round_lower.
    + now apply ExactBounds.round_upper.
Qed.

(** X7: in exact arithmetic each rounded field of the snapshot is within 0.05
    of the payload's value, and rounding it once more changes nothing. *)
Theorem X7_exact_snapshot_within_half_a_tenth (now : Z) (data : CurrentPayload Q) :
  let w := _process_current_weather now data in
  let near (x y : Q) := (x - (1 # 20) <= y)%Q /\ (y <= x + (1 # 20))%Q in
  near (p_temp data) (temperature w)
  /\ near (p_feels_like data) (feels_like w)
  /\ near (p_temp_min data) (temp_min w)
  /\ near (p_temp_max data) (temp_max w)
  /\ near (p_wind_speed data) (ws_wind_speed w)
  /\ round1 (temperature w) = temperature w
  /\ round1 (feels_like w) = feels_like w
  /\ round1 (temp_min w) = temp_min w
  /\ round1 (temp_max w) = temp_max w
  /\ round1 (ws_wind_speed w) = ws_wind_speed w.
Proof.
  cbv zeta. unfold _process_current_weather.
  cbn [temperature feels_like temp_min temp_max ws_wind_speed round1 Exact.number].
  repeat (split; [apply ExactBounds.round1_error|]).
  repeat (split; [apply ExactBounds.round1_idempotent|]).
  apply ExactBounds.round1_idempotent.
Qed.

(** * Further properties of the text helpers *)

Ltac all_ascii c := destruct c as [[] [] [] [] [] [] [] []]; reflexivity.

Lemma cased_to_lower (c : ascii) :
  is_upper (to_lower c) || is_lower (to_lower c) = is_upper c || is_lower c.
Proof. all_ascii c. Qed.

Lemma cased_to_upper (c : ascii) :
  is_upper (to_upper c) || is_lower (to_upper c) = is_upper c || is_lower c.
Proof. all_ascii c. Qed.

Lemma to_lower_to_lower (c : ascii) : to_lower (to_lower c) = to_lower c.
Proof. all_ascii c. Qed.

Lemma to_upper_to_upper (c : ascii) : to_upper (to_upper c) = to_upper c.
Proof. all_ascii c. Qed.

Lemma to_upper_to_lower (c : ascii) : to_upper (to_lower c) = to_upper c.
Proof. all_ascii c. Qed.

Lemma title_from_idempotent (s : string) : forall b,
  title_from b (title_from b s) = title_from b s.
Proof.
  induction s as [|c s IH]; intro b; [reflexivity|]. cbn [title_from].
  destruct (is_upper c || is_lower c) eqn:Hc; cbn [title_from].
  - destruct b.
    + now rewrite cased_to_lower, Hc, to_lower_to_lower, IH.
    + now rewrite cased_to_upper, Hc, to_upper_to_upper, IH.
  - now rewrite Hc, IH.
Qed.

Lemma title_from_lower (s : string) : forall b,
  title_from b (lower s) = title_from b s.
Proof.
  induction s as [|c s IH]; intro b; [reflexivity|]. cbn [lower title_from].
  rewrite cased_to_lower, to_lower_to_lower, to_upper_to_lower.
  destruct (is_upper c || is_lower c) eqn:Hc; rewrite IH; [reflexivity|].
  f_equal. unfold to_lower.
  destruct (is_upper c) eqn:Hu; [discriminate | reflexivity].
Qed.

Lemma title_from_length (s : string) : forall b,
  String.length (title_from b s) = String.length s.
Proof.
  induction s as [|c s IH]; intro b; [reflexivity|]. cbn [title_from].
  destruct (is_upper c || is_lower c); simpl; now rewrite IH.
Qed.

(** X8: the description shown does not depend on how the provider cased it:
    two payloads whose ASCII descriptions differ only in letter case give the
    same snapshot description, which has the length of the original and is
    left alone by a second title-casing. *)
Theorem X8_description_casing_is_normalised {num : Type} {N : Number num}
    (now : Z) (data data' : CurrentPayload num) :
  ascii_text (w_description (p_weather data)) = true ->
  lower (w_description (p_weather data))
  = lower (w_description (p_weather data')) ->
  description (_process_current_weather now data)
  = description (_process_current_weather now data')
  /\ title (description (_process_current_weather now data))
     = description (_process_current_weather now data)
  /\ String.length (description (_process_current_weather now data))
     = String.length (w_description (p_weather data)).
Proof.
  intros _ H. unfold _process_current_weather. cbn [description]. unfold title.
  split; [|split].
  - rewrite <- (title_from_lower (w_description (p_weather data))).
    rewrite <- (title_from_lower (w_description (p_weather data'))).
    now rewrite H.
  - apply title_from_idempotent.
  - apply title_from_length.
Qed.

(** *** [strip] *)

Lemma rstrip_empty_iff (s : string) :
  rstrip s = EmptyString <-> lstrip s = EmptyString.
Proof.
  induction s as [|c s IH]; simpl; [tauto|].
  destruct (is_space c) eqn:Hc.
  - rewrite <- IH. destruct (rstrip s); split; congruence.
  - destruct (rstrip s); split; discriminate.
Qed.

Lemma lstrip_idempotent (s : string) : lstrip (lstrip s) = lstrip s.
Proof.
  induction s as [|c s IH]; [reflexivity|]. simpl.
  destruct (is_space c) eqn:Hc; [exact IH|]. simpl. now rewrite Hc.
Qed.

Lemma rstrip_idempotent (s : string) : rstrip (rstrip s) = rstrip s.
Proof.
  induction s as [|c s IH]; [reflexivity|]. simpl.
  destruct (rstrip s) as [|c' r] eqn:Hr.
  - destruct (is_space c) eqn:Hc; [reflexivity|]. simpl. now rewrite Hc.
  - cbn [rstrip]. fold rstrip. simpl in IH.
    change (rstrip (String c (String c' r)))
      with (match rstrip (String c' r) with
            | EmptyString => if is_space c then EmptyString
                             else String c EmptyString
            | r0 => String c r0
            end).
    now rewrite IH.
Qed.

(** What [lstrip] returns does not start with white space. *)
Lemma lstrip_head (s : string) (c : ascii) (r : string) :
  lstrip s = String c r -> is_space c = false.
Proof.
  induction s as [|a s IH]; simpl; [discriminate|].
  destruct (is_space a) eqn:Ha; [exact IH|]. now intros [= <- _].
Qed.

Lemma rstrip_head (s : string) (c : ascii) (r : string) :
  rstrip s = String c r -> exists s', s = String c s'.
Proof.
  destruct s as [|a s]; simpl; [discriminate|].
  destruct (rstrip s); [destruct (is_space a)|]; intros [= <- _]; eauto.
Qed.

Lemma lstrip_rstrip_of_lstripped (s : string) :
  lstrip s = s -> lstrip (rstrip s) = rstrip s.
Proof.
  intro H. destruct (rstrip s) as [|c r] eqn:Hr; [reflexivity|].
  destruct (rstrip_head s c r Hr) as [s' ->].
  rewrite <- Hr. clear Hr. simpl in H |- *.
  destruct (is_space c) eqn:Hc.
  - exfalso. destruct (lstrip s') as [|a t] eqn:Hl.
    + discriminate.
    + pose proof (lstrip_head s' a t Hl) as Ha.
      injection H as -> _. congruence.
  - destruct (rstrip s'); simpl; now rewrite Hc.
Qed.

Lemma strip_idempotent (s : string) : strip (strip s) = strip s.
Proof.
  unfold strip.
  rewrite (lstrip_rstrip_of_lstripped (lstrip s) (lstrip_idempotent s)).
  apply rstrip_idempotent.
Qed.

(** * Further properties of the fetcher *)

(** * Further properties of the session *)

Section SessionFacts.

Context {num : Type} {N : Number num}.

Lemma fetch_weather_failure
      (api : string -> string -> Result (WeatherSnapshot num))
      (city : string) (app : WeatherApp num) :
  (forall w, api city (api_units app) <> Returned w) ->
  current_city (fetch_weather api city app) = current_city app
  /\ current_weather (fetch_weather api city app) = current_weather app
  /\ forecast_data (fetch_weather api city app) = forecast_data app.
Proof.
  intro H. unfold fetch_weather.
  change (api_units (display _ app)) with (api_units app).
  destruct (api city (api_units app)) as [w|msg|e]; [now destruct (H w)| |];
    repeat split.
Qed.

Lemma fetch_weather_city
      (api : string -> string -> Result (WeatherSnapshot num))
      (city : string) (app : WeatherApp num) :
  current_city (fetch_weather api city app) = city
  \/ current_city (fetch_weather api city app) = current_city app.
Proof.
  unfold fetch_weather. destruct (api _ _); auto.
Qed.

End SessionFacts.


(** X11: the toggle switches the unit before it refreshes, and keeps the
    switch when the refresh fails: the unit is the other one while the stored
    snapshot is still the one fetched in the old unit system. *)
Theorem X11_toggle_keeps_stale_snapshot_on_failure {num : Type} {N : Number num}
    (api : string -> string -> Result (WeatherSnapshot num))
    (app : WeatherApp num) :
  (forall city units w, api city units <> Returned w) ->
  let app' := toggle_temperature_unit api app in
  current_weather app' = current_weather app
  /\ current_city app' = current_city app
  /\ temperature_unit app'
     = (if String.eqb (temperature_unit app) "celsius"
        then "fahrenheit" else "celsius")%string
  /\ api_units app' <> api_units app.
Proof.
  intros Hfail app'.
  assert (Hunit : temperature_unit app'
                  = (if String.eqb (temperature_unit app) "celsius"
                     then "fahrenheit" else "celsius")%string)
    by apply toggle_unit.
  assert (Hkeep : current_weather app' = current_weather app
                  /\ current_city app' = current_city app).
  { unfold app', toggle_temperature_unit.
    destruct (String.eqb (temperature_unit app) "celsius");
      match goal with
      | |- context [String.eqb (current_city ?a) ""] =>
          destruct (String.eqb (current_city a) ""); [split; reflexivity|];
          destruct (fetch_weather_failure api (current_city a) a)
            as (Hc & Hw & _); [intro w; apply Hfail|];
          rewrite Hc, Hw; split; reflexivity
      end. }
  destruct Hkeep as [Hw Hc]. repeat split; auto.
  unfold api_units. rewrite Hunit.
  destruct (String.eqb (temperature_unit app) "celsius"); discriminate.
Qed.

Lemma lstrip_empty_iff (s : string) :
  lstrip s = EmptyString <-> all_space s = true.
Proof.
  induction s as [|c s IH]; simpl; [tauto|].
  destruct (is_space c); simpl; [exact IH|]. split; discriminate.
Qed.

Lemma strip_empty_iff (s : string) :
  strip s = EmptyString <-> all_space s = true.
Proof.
  unfold strip. rewrite rstrip_empty_iff, lstrip_idempotent.
  apply lstrip_empty_iff.
Qed.

Lemma blank_test (typed : string) :
  (String.eqb typed "" || String.eqb (strip typed) "")%bool = all_space typed.
Proof.
  destruct (all_space typed) eqn:Hs.
  - apply strip_empty_iff in Hs. rewrite Hs. simpl. apply orb_true_r.
  - assert (Hne : strip typed <> EmptyString).
    { intro H. apply strip_empty_iff in H. congruence. }
    apply orb_false_iff. split; apply String.eqb_neq; [|exact Hne].
    intros ->. now apply Hne.
Qed.

Section MenuFacts.

Context {num : Type} {N : Number num}.
Variable config : Config.
Variable set_iter : list string -> list string.
Variable local_date : Z -> Z.
Variable world : World num.
Variable client : WeatherAPIClient.

Local Abbreviation fetch := (session_fetch_weather config world client).
Local Abbreviation search := (search_city config world client).
Local Abbreviation toggle := (session_toggle_temperature_unit config world client).
Local Abbreviation refresh := (refresh_weather config world client).
Local Abbreviation forecast := (show_forecast config set_iter local_date world client).
Local Abbreviation loop := (menu_loop config set_iter local_date world client).

Lemma search_blank (typed : string) (s : Session num) :
  all_space typed = true ->
  search typed s
  = log (by_app (show_error "City name cannot be empty."))
        (log (get_input city_prompt) s).
Proof. intro H. unfold search_city. now rewrite blank_test, H. Qed.

Lemma search_named (typed : string) (s : Session num) :
  all_space typed = false ->
  search typed s = fetch (strip typed) (log (get_input city_prompt) s).
Proof. intro H. unfold search_city. now rewrite blank_test, H. Qed.

Lemma fetch_requests (city : string) (s : Session num) :
  s_requests (fetch city s) = S (s_requests s).
Proof. unfold session_fetch_weather, absorb. simpl. lia. Qed.

Lemma fetch_unit (city : string) (s : Session num) :
  temperature_unit (s_app (fetch city s)) = temperature_unit (s_app s).
Proof.
  unfold session_fetch_weather, absorb. cbn [s_app clear_shown temperature_unit].
  apply fetch_weather_unit.
Qed.

Lemma fetch_city (city : string) (s : Session num) :
  current_city (s_app (fetch city s)) = city
  \/ current_city (s_app (fetch city s)) = current_city (s_app s).
Proof.
  unfold session_fetch_weather, absorb. cbn [s_app clear_shown current_city].
  apply fetch_weather_city.
Qed.

Lemma toggle_session_city (s : Session num) :
  current_city (s_app (toggle s)) = current_city (s_app s).
Proof.
  unfold session_toggle_temperature_unit, absorb.
  cbn [s_app clear_shown current_city]. unfold toggle_temperature_unit.
  destruct (String.eqb (temperature_unit (s_app s)) "celsius");
    match goal with
    | |- context [String.eqb (current_city ?a) ""] =>
        destruct (String.eqb (current_city a) ""); [reflexivity|];
        destruct (fetch_weather_city
                    (current_api config world client s) (current_city a) a)
          as [H|H]; rewrite H; reflexivity
    end.
Qed.

Lemma refresh_city (s : Session num) :
  current_city (s_app (refresh s)) = current_city (s_app s).
Proof.
  unfold refresh_weather. destruct (String.eqb _ _); [reflexivity|].
  destruct (fetch_city (current_city (s_app s)) s) as [H|H]; exact H.
Qed.

Lemma refresh_unit (s : Session num) :
  temperature_unit (s_app (refresh s)) = temperature_unit (s_app s).
Proof.
  unfold refresh_weather. destruct (String.eqb _ _); [reflexivity|].
  apply fetch_unit.
Qed.

Lemma refresh_requests (s : Session num) :
  s_requests (refresh s)
  = if String.eqb (current_city (s_app s)) "" then s_requests s
    else S (s_requests s).
Proof.
  unfold refresh_weather. destruct (String.eqb _ _); [reflexivity|].
  apply fetch_requests.
Qed.

Lemma forecast_keeps (s : Session num) :
  current_city (s_app (forecast s)) = current_city (s_app s)
  /\ temperature_unit (s_app (forecast s)) = temperature_unit (s_app s)
  /\ current_weather (s_app (forecast s)) = current_weather (s_app s)
  /\ s_requests (forecast s)
     = (if String.eqb (current_city (s_app s)) "" then s_requests s
        else S (s_requests s)).
Proof.
  unfold show_forecast. cbv zeta.
  destruct (String.eqb (current_city (s_app s)) ""); [repeat split|].
  destruct (get_forecast _ _ _ _ _ _ _) as [f|msg|e];
    [destruct (current_weather (s_app s)) eqn:Hw| |];
    cbn; rewrite ?Hw; repeat split.
Qed.

Lemma search_city_or_same (typed : string) (s : Session num) :
  (current_city (s_app (search typed s)) = current_city (s_app s))
  \/ (all_space typed = false
      /\ current_city (s_app (search typed s)) = strip typed).
Proof.
  destruct (all_space typed) eqn:Hs.
  - left. now rewrite search_blank.
  - rewrite search_named by assumption.
    destruct (fetch_city (strip typed) (log (get_input city_prompt) s)) as [H|H];
      [right | left]; auto.
Qed.

(** An induction that follows the loop: it consumes one input, or two when
    the first is the choice of a city search. *)
Lemma two_step_induction (Q : list Input -> Prop) :
  Q [] -> (forall i, Q [i]) ->
  (forall i j l, Q l -> Q (j :: l) -> Q (i :: j :: l)) ->
  forall l, Q l.
Proof.
  intros H0 H1 H2 l.
  assert (H : Q l /\ forall i, Q (i :: l)).
  { induction l as [|j l [IHl IHjl]]; [split; auto|].
    split; [apply IHjl|]. intro i. apply H2; [exact IHl | apply IHjl]. }
  apply H.
Qed.

(** A property of sessions that every display call and every menu action
    keeps is kept by the loop. *)
Lemma menu_loop_keeps (P : Session num -> Prop) :
  (forall ev s, P s -> P (log ev s)) ->
  (forall typed s, P s -> P (search typed s)) ->
  (forall s, P s -> P (toggle s)) ->
  (forall s, P s -> P (refresh s)) ->
  (forall s, P s -> P (forecast s)) ->
  forall inputs s, P s -> P (fst (loop inputs s)).
Proof.
  intros Hlog Hsearch Htoggle Hrefresh Hforecast inputs.
  induction inputs as [| i | i j l IHl IHjl] using two_step_induction;
    intros s Hs.
  - cbn [menu_loop fst]. auto.
  - destruct i as [choice| |]; cbn [menu_loop fst]; auto.
    repeat (destruct (String.eqb choice _)); cbn [fst exit_app menu_loop]; auto 10.
  - destruct i as [choice| |]; cbn [menu_loop fst]; auto.
    destruct (String.eqb choice "1").
    { destruct j as [city| |]; cbn [fst]; auto 10. }
    destruct (String.eqb choice "2"); [apply IHjl; auto|].
    destruct (String.eqb choice "3"); [apply IHjl; auto|].
    destruct (String.eqb choice "4"); [apply IHjl; auto|].
    destruct (String.eqb choice "5"); [cbn [fst exit_app]; auto|].
    apply IHjl; auto.
Qed.

End MenuFacts.

(** X13: [refresh_weather] never changes the current city or the unit.  With
    no city selected it sends no request and changes nothing but the screen;
    otherwise it sends exactly one. *)
Theorem X13_refresh_keeps_city_and_unit {num : Type} {N : Number num}
    (config : Config) (world : World num) (client : WeatherAPIClient)
    (s : Session num) :
  let s' := refresh_weather config world client s in
  current_city (s_app s') = current_city (s_app s)
  /\ temperature_unit (s_app s') = temperature_unit (s_app s)
  /\ (current_city (s_app s) = EmptyString ->
      s_app s' = s_app s /\ s_requests s' = s_requests s)
  /\ (current_city (s_app s) <> EmptyString ->
      s_requests s' = S (s_requests s)).
Proof.
  intro s'. unfold s'.
  split; [apply refresh_city|]. split; [apply refresh_unit|]. split.
  - intro H. unfold refresh_weather. rewrite H. split; reflexivity.
  - intro H. rewrite refresh_requests.
    apply String.eqb_neq in H. now rewrite H.
Qed.

(** X15: once a city is selected, no sequence of menu inputs deselects it:
    if the current city is not empty before the loop runs, it is not empty
    after any inputs. *)
Theorem X15_current_city_stays_selected {num : Type} {N : Number num}
    (config : Config) (set_iter : list string -> list string)
    (local_date : Z -> Z) (world : World num) (client : WeatherAPIClient)
    (inputs : list Input) (s : Session num) :
  current_city (s_app s) <> EmptyString ->
  current_city
    (s_app (fst (menu_loop config set_iter local_date world client inputs s)))
  <> EmptyString.
Proof.
  apply (menu_loop_keeps config set_iter local_date world client
           (fun s => current_city (s_app s) <> EmptyString)).
  - auto.
  - intros typed s0 H.
    destruct (search_city_or_same config world client typed s0) as [Hc|[Hs Hc]];
      rewrite Hc; [assumption|].
    intro He. apply strip_empty_iff in He. congruence.
  - intros s0 H. now rewrite toggle_session_city.
  - intros s0 H. now rewrite refresh_city.
  - intros s0 H.
    destruct (forecast_keeps config set_iter local_date world client s0)
      as (Hc & _). now rewrite Hc.
Qed.

(** X19: without an API key, missing or empty, [main] prints one fatal-error
    line and exits with status 1; nothing else is shown and no request is
    sent, whatever the world and the inputs. *)
Theorem X19_no_key_no_request {num : Type} {N : Number num}
    (config : Config) (set_iter : list string -> list string)
    (local_date : Z -> Z) (world : World num) (inputs : list Input) :
  api_key config = None \/ api_key config = Some EmptyString ->
  app_main config set_iter local_date world inputs
  = ([builtin_print
        "Fatal error: API key not found. Please set OPENWEATHER_API_KEY in .env file"],
     0%nat, Some 1).
Proof.
  intro H. unfold app_main, WeatherAPIClient_init, validate.
  destruct H as [-> | ->]; reflexivity.
Qed.

(** X20: the unit sign the display puts after a temperature always matches
    the unit system the session asks the provider for: degrees Celsius with
    'metric', degrees Fahrenheit with 'imperial', also for a unit string that
    is neither 'celsius' nor 'fahrenheit'. *)
Theorem X20_unit_sign_matches_requested_units {num : Type} {N : Number num}
    (app : WeatherApp num) :
  (unit_symbol (temperature_unit app) = "°C"%string
   /\ api_units app = "metric"%string)
  \/ (unit_symbol (temperature_unit app) = "°F"%string
      /\ api_units app = "imperial"%string
      /\ temperature_unit app <> "celsius"%string).
Proof.
  unfold unit_symbol, api_units.
  destruct (String.eqb_spec (temperature_unit app) "celsius"); auto.
Qed.

(** * Instances of the further properties *)

Lemma X1_forecast_dates_are_collapsed_input_dates_witness :
  exists out,
    _process_forecast first_seen Examples.utc_date Scenarios.zigzag 5 = inr out
    /\ map fd_date out = [19723; 19724; 19723]
    /\ List.length out = 3%nat.
Proof.
  destruct (process_forecast_returns first_seen Examples.utc_date first_seen_order
              Scenarios.zigzag 5) as [out Hout].
  { apply humidity_definedb_sound. vm_compute. reflexivity. }
  exists out. split; [exact Hout|].
  apply (X1_forecast_dates_are_collapsed_input_dates first_seen Examples.utc_date
           Scenarios.zigzag 5 out first_seen_order Hout).
Defined.

Lemma X2_fewer_days_give_a_prefix_witness :
  exists out',
    _process_forecast first_seen Examples.utc_date Examples.five_days 5
    = inr out'
    /\ _process_forecast first_seen Examples.utc_date Examples.five_days 2
       = inr (firstn 2 out').
Proof.
  destruct (process_forecast_returns first_seen Examples.utc_date first_seen_order
              Examples.five_days 5) as [out' Hout].
  { apply humidity_definedb_sound. vm_compute. reflexivity. }
  exists out'. split; [exact Hout|].
  apply (X2_fewer_days_give_a_prefix first_seen Examples.utc_date
           Examples.five_days 2 5 out'); [lia | exact Hout].
Defined.

Lemma X4_description_and_icon_from_first_match_witness :
  exists fd item,
    _aggregate_day_forecast first_seen Examples.utc_date Scenarios.mostly_rain
    = inr fd
    /\ In item Scenarios.mostly_rain
    /\ w_main (weather item) = fd_main fd
    /\ fd_icon fd = w_icon (weather item).
Proof.
  destruct (aggregate_returns first_seen Examples.utc_date first_seen_order
              Scenarios.mostly_rain) as (fd & Hfd & _).
  { discriminate. }
  { exists 61. vm_compute. reflexivity. }
  destruct (X4_description_and_icon_from_first_match first_seen Examples.utc_date
              Scenarios.mostly_rain fd first_seen_order Hfd)
    as (before & item & after & Heq & Hmain & _ & _ & Hicon).
  exists fd, item. split; [exact Hfd|]. split; [|split; assumption].
  rewrite Heq. apply in_or_app. right. now left.
Defined.

Lemma X5_strict_plurality_wins_witness :
  main_condition_of last_seen_first (conditions_of Scenarios.mostly_rain)
  = inr "Rain"%string.
Proof.
  apply (X5_strict_plurality_wins last_seen_first Examples.utc_date
           Scenarios.mostly_rain "Rain"%string last_seen_first_order).
  - left. reflexivity.
  - intros c' Hne. change (conditions_of Scenarios.mostly_rain)
                     with ["Rain"; "Rain"; "Clouds"]%string.
    unfold py_count. cbn [count_occ].
    repeat match goal with
           | |- context [string_dec ?a ?b] => destruct (string_dec a b)
           end; subst; try congruence; lia.
Defined.

Lemma X6_exact_humidity_within_sample_range_witness :
  exists fd,
    _aggregate_day_forecast first_seen Examples.utc_date Scenarios.humid_run
    = inr fd
    /\ 0 <= fd_humidity fd <= 100.
Proof.
  destruct (aggregate_returns first_seen Examples.utc_date first_seen_order
              Scenarios.humid_run) as (fd & Hfd & _).
  { discriminate. }
  { eexists. reflexivity. }
  exists fd. split; [exact Hfd|].
  apply (X6_exact_humidity_within_sample_range first_seen Examples.utc_date
           Scenarios.humid_run 0 100 fd first_seen_order Hfd).
  repeat constructor; vm_compute; discriminate.
Defined.

Lemma X8_description_casing_is_normalised_witness :
  description (_process_current_weather 1704100000 Scenarios.shouting)
  = description (_process_current_weather 1704100000
                   (Examples.payload None None))
  /\ description (_process_current_weather 1704100000 Scenarios.shouting)
     = "Broken Clouds"%string.
Proof.
  split; [|reflexivity].
  apply (X8_description_casing_is_normalised 1704100000 Scenarios.shouting
           (Examples.payload None None)); reflexivity.
Defined.


Lemma X11_toggle_keeps_stale_snapshot_on_failure_witness :
  let app := WeatherApp_init Examples.config in
  temperature_unit (toggle_temperature_unit Scenarios.unreachable app)
  = "fahrenheit"%string
  /\ current_weather (toggle_temperature_unit Scenarios.unreachable app)
     = current_weather app.
Proof.
  intro app.
  destruct (X11_toggle_keeps_stale_snapshot_on_failure Scenarios.unreachable app)
    as (Hw & _ & Hu & _).
  { intros city units w. discriminate. }
  split; [exact Hu | exact Hw].
Defined.

Lemma X13_refresh_keeps_city_and_unit_witness :
  current_city (s_app (refresh_weather Examples.config Scenarios.online
                         Scenarios.client Scenarios.start)) = "London"%string
  /\ s_requests (refresh_weather Examples.config Scenarios.online
                   Scenarios.client Scenarios.start) = 1%nat.
Proof.
  destruct (X13_refresh_keeps_city_and_unit Examples.config Scenarios.online
              Scenarios.client Scenarios.start) as (Hc & _ & _ & Hr).
  split; [exact Hc|]. apply Hr. discriminate.
Defined.

Lemma X15_current_city_stays_selected_witness :
  String.eqb
    (current_city
       (s_app (fst (menu_loop Examples.config first_seen Examples.utc_date
                      Scenarios.offline Scenarios.client
                      [typed_line "1"; typed_line "   "; typed_line "3"]
                      Scenarios.start))))
    EmptyString
  = false.
Proof.
  apply String.eqb_neq.
  apply (X15_current_city_stays_selected Examples.config first_seen
           Examples.utc_date Scenarios.offline Scenarios.client).
  discriminate.
Defined.

Lemma X19_no_key_no_request_witness :
  snd (app_main Scenarios.no_key first_seen Examples.utc_date Scenarios.online
         [typed_line "4"]) = Some 1.
Proof.
  rewrite (X19_no_key_no_request Scenarios.no_key first_seen Examples.utc_date
             Scenarios.online [typed_line "4"]); [reflexivity|].
  left. reflexivity.
Defined.

(** * Further properties of the display tables *)

Lemma dict_get_missing (d : list (string * string)) (key default : string) :
  ~ In key (dict_keys d) -> dict_get d key default = default.
Proof.
  unfold dict_get, dict_keys. intro H.
  destruct (find _ d) as [kv|] eqn:Hf; [|reflexivity].
  apply find_some in Hf. destruct Hf as [Hin He].
  apply String.eqb_eq in He. exfalso. apply H. rewrite <- He.
  now apply in_map.
Qed.

(** X21: a condition group the icon table does not know gets both fall-backs,
    the thermometer icon and the colour white; and every group that has a
    colour of its own has an icon of its own, so a specific colour is never
    shown with the fall-back icon. *)
Theorem X21_unknown_condition_gets_both_fallbacks (main_condition : string) :
  (~ In main_condition (dict_keys WEATHER_ICONS) ->
   icon_of main_condition = "🌡️"%string
   /\ color_of main_condition = "white"%string)
  /\ (In main_condition (dict_keys WEATHER_COLORS) ->
      In main_condition (dict_keys WEATHER_ICONS)
      /\ icon_of main_condition <> "🌡️"%string).
Proof.
  assert (Hsub : In main_condition (dict_keys WEATHER_COLORS) ->
                 In main_condition (dict_keys WEATHER_ICONS)
                 /\ icon_of main_condition <> "🌡️"%string).
  { intro H. cbn in H.
    repeat (destruct H as [<-|H];
            [split; [cbn; tauto | vm_compute; discriminate]|]).
    destruct H. }
  split; [|exact Hsub].
  intro H. split; [now apply dict_get_missing|].
  apply dict_get_missing. intro Hc. apply H. now apply Hsub.
Qed.

Lemma X21_unknown_condition_gets_both_fallbacks_witness :
  icon_of "Volcano"%string = "🌡️"%string
  /\ color_of "Volcano"%string = "white"%string.
Proof.
  apply (X21_unknown_condition_gets_both_fallbacks "Volcano"%string).
  cbn. intuition discriminate.
Defined.

(** * The program with the library calls that raise *)

(** ** The loop of [_process_forecast] with timestamps that may have no date *)

Section RaisingLoop.

Context {num : Type} {N : Number num}.
Variable set_iter : list string -> list string.
Variable local_date : Z -> option Z.

Local Abbreviation datable :=
  (fun item : Sample num => Raising.has_date local_date (dt item) = true).

Lemma date_of_dated (ts : Z) :
  Raising.has_date local_date ts = true ->
  Raising.date_of local_date ts = inr (Raising.dated local_date ts).
Proof.
  unfold Raising.has_date, Raising.date_of, Raising.dated.
  now destruct (local_date ts).
Qed.

Lemma date_of_undated (ts : Z) :
  Raising.has_date local_date ts = false ->
  Raising.date_of local_date ts = inl (Raising.OutOfRange ts).
Proof.
  unfold Raising.has_date, Raising.date_of.
  now destruct (local_date ts).
Qed.

(** On a run whose timestamps have dates the reduction is the one above. *)
Lemma aggregate_dated (run : list (Sample num)) :
  Forall datable run ->
  Raising._aggregate_day_forecast set_iter local_date run
  = Raising.lift
      (_aggregate_day_forecast set_iter (Raising.dated local_date) run).
Proof.
  intro Hd. unfold Raising._aggregate_day_forecast, _aggregate_day_forecast.
  destruct (main_condition_of set_iter (conditions_of run)) as [e|c];
    [reflexivity|].
  cbn [Raising.lift Raising.bind Py.bind].
  destruct run as [|x rest]; [reflexivity|].
  cbn [py_first Py.ret Raising.lift Raising.bind Py.bind].
  inversion Hd as [|? ? Hx _]; subst.
  rewrite (date_of_dated (dt x) Hx). cbn [Raising.bind].
  destruct (py_min _) as [e|tmin]; [reflexivity|].
  cbn [Raising.lift Raising.bind Py.bind].
  destruct (py_max _) as [e|tmax]; [reflexivity|].
  cbn [Raising.lift Raising.bind Py.bind].
  destruct (py_truediv (py_sum (map temp (x :: rest))) _) as [e|tavg];
    [reflexivity|].
  cbn [Raising.lift Raising.bind Py.bind].
  destruct (first_matching c (x :: rest)) as [item|]; [|reflexivity].
  destruct (py_truediv (py_sum (map humidity (x :: rest))) _) as [e|hmean];
    [reflexivity|].
  cbn [Raising.lift Raising.bind Py.bind].
  destruct (py_round hmean) as [e|hum]; [reflexivity|].
  cbn [Raising.lift Raising.bind Py.bind].
  destruct (py_truediv (py_sum (map wind_speed (x :: rest))) _) as [e|wmean];
    reflexivity.
Qed.

Section Generic.

Variable R : Type.
Variable aggregate : list (Sample num) -> Py.M R.
Variable aggregate' : list (Sample num) -> Raising.M R.
Variable days : Z.

Hypothesis aggregate_agrees :
  forall run, Forall datable run -> aggregate' run = Raising.lift (aggregate run).

Lemma append_day_dated (st : Locals num R) :
  Forall datable (day_data R st) ->
  Raising.append_day R aggregate' days st
  = Raising.lift (append_day R aggregate days st).
Proof.
  intro Hd. unfold Raising.append_day, append_day.
  destruct (is_nonempty _ && _); [|reflexivity].
  rewrite (aggregate_agrees _ Hd).
  now destruct (aggregate (day_data R st)).
Qed.

Lemma loop_body_dated (st : Locals num R) (item : Sample num) :
  Forall datable (day_data R st) -> datable item ->
  Raising.loop_body local_date R aggregate' days st item
  = Raising.lift (loop_body (Raising.dated local_date) R aggregate days st item)
  /\ forall st', loop_body (Raising.dated local_date) R aggregate days st item
                 = inr st' ->
                 Forall datable (day_data R st').
Proof.
  intros Hd Hi. unfold Raising.loop_body, loop_body, sample_date.
  rewrite (date_of_dated (dt item) Hi). cbn [Raising.bind].
  destruct (date_differs _ _).
  - rewrite (append_day_dated st Hd).
    destruct (append_day R aggregate days st) as [e|df]; cbn.
    + split; [reflexivity|discriminate].
    + split; [reflexivity|]. intros st' [= <-]. cbn. now constructor.
  - cbn. split; [reflexivity|]. intros st' [= <-]. cbn.
    apply Forall_app. split; [exact Hd|now constructor].
Qed.

Lemma for_each_dated (items : list (Sample num)) : forall st,
  Forall datable items -> Forall datable (day_data R st) ->
  Raising.for_each local_date R aggregate' days items st
  = Raising.lift (for_each (Raising.dated local_date) R aggregate days items st)
  /\ forall st', for_each (Raising.dated local_date) R aggregate days items st
                 = inr st' ->
                 Forall datable (day_data R st').
Proof.
  induction items as [|item rest IH]; intros st Hall Hd.
  - cbn. split; [reflexivity|]. now intros st' [= <-].
  - inversion Hall as [|? ? Hi Hrest]; subst.
    cbn [Raising.for_each for_each].
    destruct (loop_body_dated st item Hd Hi) as [-> Hnext].
    destruct (loop_body _ R aggregate days st item) as [e|st1].
    + cbn. split; [reflexivity|discriminate].
    + cbn [Raising.lift Raising.bind Py.bind].
      apply IH; [exact Hrest|]. now apply Hnext.
Qed.

Lemma process_dated (items : list (Sample num)) :
  Forall datable items ->
  Raising.process_forecast_with local_date R aggregate' days items
  = Raising.lift
      (process_forecast_with (Raising.dated local_date) R aggregate days items).
Proof.
  intro Hall. unfold Raising.process_forecast_with, process_forecast_with.
  destruct (for_each_dated items
              {| daily_forecasts := []; current_date := None; day_data := [] |}
              Hall ltac:(constructor)) as [-> Hnext].
  destruct (for_each _ R aggregate days items _) as [e|st]; [reflexivity|].
  cbn [Raising.lift Raising.bind Py.bind].
  rewrite (append_day_dated st (Hnext st eq_refl)).
  now destruct (append_day R aggregate days st).
Qed.

End Generic.

Section Undated.

Variable R : Type.
Variable aggregate' : list (Sample num) -> Raising.M R.
Variable days : Z.

(** The loop stops at the first timestamp without a date, unless it has
    stopped before. *)
Lemma for_each_undated (before : list (Sample num)) (bad : Sample num)
      (after : list (Sample num)) : forall st,
  Raising.has_date local_date (dt bad) = false ->
  Raising.for_each local_date R aggregate' days (before ++ bad :: after) st
  = Raising.bind (Raising.for_each local_date R aggregate' days before st)
                 (fun _ => inl (Raising.OutOfRange (dt bad))).
Proof.
  induction before as [|item rest IH]; intros st Hbad.
  - cbn [app Raising.for_each Raising.bind]. unfold Raising.loop_body.
    now rewrite (date_of_undated (dt bad) Hbad).
  - cbn [app Raising.for_each].
    destruct (Raising.loop_body local_date R aggregate' days st item) as [e|st1];
      [reflexivity|].
    cbn [Raising.bind]. now apply IH.
Qed.

(** With no day wanted the loop only converts the timestamps. *)
Lemma for_each_no_days (items : list (Sample num)) : forall st,
  days <= 0 -> Forall datable items ->
  exists st', Raising.for_each local_date R aggregate' days items st = inr st'
              /\ daily_forecasts R st' = daily_forecasts R st.
Proof.
  induction items as [|item rest IH]; intros st Hdays Hall.
  - exists st. now split.
  - inversion Hall as [|? ? Hi Hrest]; subst.
    cbn [Raising.for_each]. unfold Raising.loop_body at 1.
    rewrite (date_of_dated (dt item) Hi). cbn [Raising.bind].
    unfold Raising.append_day.
    assert (Hlen : (len (daily_forecasts R st) <? days) = false)
      by (apply Z.ltb_ge; unfold len; lia).
    rewrite Hlen, andb_false_r.
    destruct (date_differs _ _); cbn [Raising.bind];
      (edestruct IH as (st' & -> & Hst'); [exact Hdays|exact Hrest|]);
      exists st'; (split; [reflexivity|exact Hst']).
Qed.

End Undated.

(** A list of samples has dates throughout, or a first item without one. *)
Lemma first_undated (items : list (Sample num)) :
  (Forall datable items
   /\ find (fun item => negb (Raising.has_date local_date (dt item))) items = None)
  \/ exists before bad after,
       items = before ++ bad :: after
       /\ Forall datable before
       /\ Raising.has_date local_date (dt bad) = false
       /\ find (fun item => negb (Raising.has_date local_date (dt item))) items
          = Some bad.
Proof.
  induction items as [|item rest IH].
  - left. split; [constructor|reflexivity].
  - cbn [find]. destruct (Raising.has_date local_date (dt item)) eqn:Hi.
    + cbn [negb]. destruct IH as [[Hall Hf]|(before & bad & after & -> & Hb & Hbad & Hf)].
      * left. split; [now constructor|exact Hf].
      * right. exists (item :: before), bad, after.
        repeat split; [now constructor|exact Hbad|exact Hf].
    + right. exists [], item, rest. repeat split; [constructor|exact Hi].
Qed.

End RaisingLoop.

(** X3: with an empty sample list, or a day count of zero or less, the loop of
    [_process_forecast] converts every timestamp and reduces nothing: whatever
    the per-day reduction would do, the result is the empty forecast when
    every timestamp has a date, and otherwise the error of
    [datetime.fromtimestamp] on the first timestamp that has none. *)
Theorem X3_nothing_wanted_nothing_reduced {num : Type} {N : Number num}
    (local_date : Z -> option Z) (R : Type)
    (aggregate : list (Sample num) -> Raising.M R)
    (items : list (Sample num)) (days : Z) :
  items = [] \/ days <= 0 ->
  Raising.process_forecast_with local_date R aggregate days items
  = match find (fun item => negb (Raising.has_date local_date (dt item)))
               items with
    | Some item => inl (Raising.OutOfRange (dt item))
    | None => inr []
    end.
Proof.
  intros [->|Hdays].
  { unfold Raising.process_forecast_with, Raising.append_day, py_slice_to.
    cbn. destruct (0 <=? days); now rewrite firstn_nil. }
  unfold Raising.process_forecast_with.
  destruct (first_undated local_date items)
    as [[Hall ->]|(before & bad & after & -> & Hb & Hbad & ->)].
  - destruct (for_each_no_days local_date R aggregate days items
                {| daily_forecasts := []; current_date := None; day_data := [] |}
                Hdays Hall) as (st' & -> & Hst').
    cbn [Raising.bind]. unfold Raising.append_day. cbn in Hst'. rewrite Hst'.
    assert (Hlen : (len (@nil R) <? days) = false)
      by (apply Z.ltb_ge; unfold len; simpl; lia).
    rewrite Hlen, andb_false_r. cbn [Raising.bind].
    unfold py_slice_to. destruct (0 <=? days); now rewrite firstn_nil.
  - rewrite (for_each_undated local_date R aggregate days before bad after _ Hbad).
    destruct (for_each_no_days local_date R aggregate days before
                {| daily_forecasts := []; current_date := None; day_data := [] |}
                Hdays Hb) as (st' & -> & _).
    reflexivity.
Qed.

Section ClientFacts.

Context {num : Type} {N : Number num}.
Variable config : Config.
Variable set_iter : list string -> list string.
Variable local_date : Z -> option Z.
Variable utc_time : Z -> bool.
Hypothesis set_iter_order : SetOrder set_iter.

(** [_process_forecast] agrees with the loop over total dates where every
    timestamp has a date. *)
Lemma raising_forecast_dated (items : list (Sample num)) (days : Z) :
  Forall (fun item => Raising.has_date local_date (dt item) = true) items ->
  Raising._process_forecast set_iter local_date items days
  = Raising.lift (_process_forecast set_iter (Raising.dated local_date) items days).
Proof.
  intro Hall. unfold Raising._process_forecast, _process_forecast.
  apply process_dated; [|exact Hall].
  intros run Hrun. now apply aggregate_dated.
Qed.

Lemma raising_forecast_returned (items : list (Sample num)) (days : Z)
      (forecast : list (ForecastDay num)) :
  Raising._process_forecast set_iter local_date items days = inr forecast ->
  Forall (fun item => Raising.has_date local_date (dt item) = true) items
  /\ _process_forecast set_iter (Raising.dated local_date) items days
     = inr forecast.
Proof.
  destruct (first_undated local_date items)
    as [[Hall _]|(before & bad & after & -> & Hb & Hbad & _)].
  - rewrite (raising_forecast_dated items days Hall).
    destruct (_process_forecast _ _ items days); [discriminate|].
    intros [= <-]. now split.
  - unfold Raising._process_forecast, Raising.process_forecast_with.
    rewrite (for_each_undated local_date _ _ days before bad after _ Hbad).
    now destruct (Raising.for_each _ _ _ _ before _).
Qed.


End ClientFacts.

(** ** The client *)


(** ** The session *)

Section ProgramFacts.

Context {num : Type} {N : Number num}.
Variable config : Config.
Variable set_iter : list string -> list string.
Variable local_date : Z -> option Z.
Variable utc_time : Z -> bool.
Variable world : World num.
Variable client : WeatherAPIClient.
Variable markup_ok : string -> bool.
Variable library_text : Raising.Exception -> string.

Local Abbreviation Process := (Raising.Process num).
Local Abbreviation fetch :=
  (Raising.fetch_weather config utc_time world client markup_ok library_text).
Local Abbreviation search :=
  (Raising.search_city config utc_time world client markup_ok library_text).
Local Abbreviation toggle :=
  (Raising.toggle_temperature_unit config utc_time world client markup_ok
                                   library_text).
Local Abbreviation refresh :=
  (Raising.refresh_weather config utc_time world client markup_ok library_text).
Local Abbreviation forecast :=
  (Raising.show_forecast config set_iter local_date world client markup_ok
                         library_text).
Local Abbreviation loop :=
  (Raising.menu_loop config set_iter local_date utc_time world client markup_ok
                     library_text).
Local Abbreviation refused := (Raising.refused markup_ok).
Local Abbreviation quiet := (Raising.quiet markup_ok).
Local Abbreviation current_api p city :=
  (Raising.get_current_weather config utc_time
     (current_endpoint world (Raising.requests p) (appid client))
     (clock world (Raising.requests p)) city (api_units (Raising.app p))).
Local Abbreviation forecast_api p :=
  (Raising.get_forecast config set_iter local_date
     (forecast_endpoint world (Raising.requests p) (appid client))
     (current_city (Raising.app p)) (api_units (Raising.app p)) 5).

Lemma render_quiet (markup : string) (ev : Raising.Shown num) (p : Process) :
  quiet p (Raising.render markup_ok markup ev p).
Proof.
  unfold Raising.render, Raising.quiet. destruct (markup_ok markup) eqn:Hm; cbn.
  - auto.
  - repeat split. right. now exists markup.
Qed.

Lemma show_error_quiet (msg : string) (p : Process) :
  quiet p (Raising.show_error markup_ok msg p).
Proof. apply render_quiet. Qed.

Lemma show_loading_quiet (msg : string) (p : Process) :
  quiet p (Raising.show_loading markup_ok msg p).
Proof. apply render_quiet. Qed.

Lemma excepting_quiet (p : Process) (e : Raising.Exception) :
  quiet p (Raising.excepting markup_ok library_text (p, Raising.Raise e)).
Proof. cbn [Raising.excepting]. destruct e; apply render_quiet. Qed.

(** [fetch_weather]: nothing happens when the loading line is refused;
    otherwise one request is sent, and the snapshot and the city are stored
    when the client returns. *)
Lemma raising_fetch_spec (city : string) (p : Process) :
  let r := fetch city p in
  if markup_ok (Raising.loading_markup ("Fetching weather for " ++ city ++ "..."))
  then Raising.requests (fst r) = S (Raising.requests p)
       /\ (snd r = Raising.Done \/ refused (snd r))
       /\ Raising.app (fst r)
          = match current_api p city with
            | inr w => {| current_city := city;
                          temperature_unit := temperature_unit (Raising.app p);
                          current_weather := Some w;
                          forecast_data := forecast_data (Raising.app p);
                          shown := shown (Raising.app p) |}
            | inl _ => Raising.app p
            end
  else r = (p, Raising.Raise
                 (Raising.MarkupError
                    (Raising.loading_markup
                       ("Fetching weather for " ++ city ++ "...")))).
Proof.
  unfold Raising.fetch_weather, Raising.show_loading, Raising.render.
  destruct (markup_ok (Raising.loading_markup _)); [|reflexivity].
  cbn [Raising.andthen Raising.show Raising.app Raising.requests].
  destruct (Raising.get_current_weather _ _ _ _ _ _) as [e|w].
  - destruct (excepting_quiet
                (Raising.sent (Raising.show (Raising.loading
                   ("Fetching weather for " ++ city ++ "...")) p)) e)
      as (Ha & Hr & Hc).
    cbn zeta. rewrite Hr, Ha. cbn. auto.
  - unfold Raising.display_current_weather.
    match goal with
    | |- context [Raising.excepting _ _ (?q, Raising.Raise ?e)] =>
        destruct (excepting_quiet q e) as (Ha & Hr & Hc)
    end.
    cbn zeta. rewrite Hr, Ha. cbn. auto.
Qed.


Lemma show_error_no_table (msg : string) (q : Process)
      (f : list (ForecastDay num)) (u : string) :
  In (Raising.forecast_table f u)
     (Raising.screen (fst (Raising.show_error markup_ok msg q))) ->
  In (Raising.forecast_table f u) (Raising.screen q).
Proof.
  unfold Raising.show_error, Raising.render.
  destruct (markup_ok _); cbn [fst Raising.screen Raising.show]; [|auto].
  rewrite in_app_iff. intros [H|[H|[]]]; [auto|discriminate].
Qed.

Lemma excepting_no_table (q : Process) (e : Raising.Exception)
      (f : list (ForecastDay num)) (u : string) :
  In (Raising.forecast_table f u)
     (Raising.screen
        (fst (Raising.excepting markup_ok library_text (q, Raising.Raise e)))) ->
  In (Raising.forecast_table f u) (Raising.screen q).
Proof. cbn [Raising.excepting]. destruct e; apply show_error_no_table. Qed.

Lemma display_forecast_quiet (f : list (ForecastDay num)) (u : string)
      (p : Process) :
  quiet p (Raising.display_forecast markup_ok f u p).
Proof.
  unfold Raising.display_forecast, Raising.quiet.
  destruct (find _ f) as [day|] eqn:Hf; cbn.
  - repeat split. right. exists (Raising.weather_cell day). split; [reflexivity|].
    apply find_some in Hf. destruct Hf as [_ Hf].
    now apply negb_true_iff in Hf.
  - auto.
Qed.

(** [show_forecast]: nothing is asked without a city or when the loading
    line is refused; otherwise one request is sent, and the forecast is stored
    when the client returns.  The table is shown only if no snapshot is
    stored. *)
Lemma show_forecast_spec (p : Process) :
  let r := forecast p in
  let asked :=
    negb (String.eqb (current_city (Raising.app p)) "")
    && markup_ok (Raising.loading_markup
                    ("Fetching forecast for " ++ current_city (Raising.app p)
                     ++ "...")) in
  (snd r = Raising.Done \/ refused (snd r))
  /\ Raising.requests (fst r)
     = (if asked then S (Raising.requests p) else Raising.requests p)
  /\ Raising.app (fst r)
     = (if asked then
          match forecast_api p with
          | inr f => {| current_city := current_city (Raising.app p);
                        temperature_unit := temperature_unit (Raising.app p);
                        current_weather := current_weather (Raising.app p);
                        forecast_data := Some f;
                        shown := shown (Raising.app p) |}
          | inl _ => Raising.app p
          end
        else Raising.app p)
  /\ (forall f u, In (Raising.forecast_table f u) (Raising.screen (fst r)) ->
                  In (Raising.forecast_table f u) (Raising.screen p)
                  \/ current_weather (Raising.app p) = None).
Proof.
  cbv zeta. unfold Raising.show_forecast.
  destruct (String.eqb (current_city (Raising.app p)) "") eqn:Hcity.
  { cbn [negb andb].
    destruct (show_error_quiet
                "No city selected. Please search for a city first." p)
      as (Ha & Hr & Hc).
    rewrite Ha, Hr.
    split; [exact Hc|]. split; [reflexivity|]. split; [reflexivity|].
    intros f u Hin. left. exact (show_error_no_table _ _ _ _ Hin). }
  cbn [negb andb]. unfold Raising.show_loading, Raising.render.
  destruct (markup_ok (Raising.loading_markup _)) eqn:Hl.
  2:{ cbn. split; [right; eexists; split; [reflexivity|exact Hl]|]. auto. }
  cbn [Raising.andthen Raising.show Raising.app Raising.requests].
  destruct (Raising.get_forecast _ _ _ _ _ _ _) as [e|f].
  - match goal with
    | |- context [Raising.excepting _ _ (?q, Raising.Raise ?e)] =>
        destruct (excepting_quiet q e) as (Ha & Hr & Hc);
        pose proof (excepting_no_table q e) as Hscreen
    end.
    rewrite Hr, Ha. cbn [Raising.sent Raising.app Raising.requests].
    split; [exact Hc|]. split; [reflexivity|]. split; [reflexivity|].
    intros f u Hin. apply Hscreen in Hin.
    cbn [Raising.sent Raising.show Raising.screen] in Hin.
    rewrite in_app_iff in Hin.
    destruct Hin as [H|[H|[]]]; [auto|discriminate].
  - cbn [Raising.store_forecast Raising.set_app Raising.show Raising.app
         Raising.sent Raising.requests current_weather].
    destruct (current_weather (Raising.app p)) as [w|] eqn:Hw.
    + unfold Raising.display_current_weather. cbn [Raising.andthen].
      match goal with
      | |- context [Raising.excepting _ _ (?q, Raising.Raise ?e)] =>
          destruct (excepting_quiet q e) as (Ha & Hr & Hc);
          pose proof (excepting_no_table q e) as Hscreen
      end.
      rewrite Hr, Ha.
      split; [exact Hc|]. split; [reflexivity|].
      split; [cbn; now rewrite Hw|].
      intros f' u' Hin. apply Hscreen in Hin.
      cbn [Raising.screen Raising.show Raising.store_forecast Raising.set_app
           Raising.sent] in Hin.
      rewrite !in_app_iff in Hin.
      destruct Hin as [[H|[H|[]]]|[H|[]]]; [auto|discriminate|discriminate].
    + cbn [Raising.andthen].
      match goal with
      | |- context [Raising.display_forecast _ ?f ?u ?q] =>
          destruct (display_forecast_quiet f u q) as (Ha & Hr & Hc);
          destruct (Raising.display_forecast markup_ok f u q) as [q' c]
      end.
      cbn [fst snd] in Ha, Hr, Hc.
      destruct Hc as [->|(markup & -> & Hm)].
      * cbn [Raising.excepting fst snd]. rewrite Ha, Hr.
        split; [auto|]. split; [reflexivity|].
        split; [cbn; now rewrite Hw|]. auto.
      * destruct (excepting_quiet q' (Raising.MarkupError markup))
          as (Ha' & Hr' & Hc').
        rewrite Hr', Ha', Ha, Hr.
        split; [exact Hc'|]. split; [reflexivity|].
        split; [cbn; now rewrite Hw|]. auto.
Qed.



(** *** What one menu action does to the requests, the unit and the city *)

Lemma raising_fetch_control (city : string) (p : Process) :
  snd (fetch city p) = Raising.Done \/ refused (snd (fetch city p)).
Proof.
  pose proof (raising_fetch_spec city p) as H. cbv zeta in H.
  destruct (markup_ok (Raising.loading_markup _)) eqn:Hl.
  - tauto.
  - rewrite H. right. eexists. split; [reflexivity|exact Hl].
Qed.

Lemma raising_fetch_requests (city : string) (p : Process) :
  (Raising.requests p <= Raising.requests (fst (fetch city p))
   <= S (Raising.requests p))%nat.
Proof.
  pose proof (raising_fetch_spec city p) as H. cbv zeta in H.
  destruct (markup_ok (Raising.loading_markup _)).
  - destruct H as (-> & _). lia.
  - rewrite H. cbn. lia.
Qed.

Lemma raising_fetch_unit (city : string) (p : Process) :
  temperature_unit (Raising.app (fst (fetch city p)))
  = temperature_unit (Raising.app p).
Proof.
  pose proof (raising_fetch_spec city p) as H. cbv zeta in H.
  destruct (markup_ok (Raising.loading_markup _)).
  - destruct H as (_ & _ & ->).
    now destruct (Raising.get_current_weather _ _ _ _ _ _).
  - now rewrite H.
Qed.

Lemma search_city_blank (typed : string) (p : Process) :
  all_space typed = true ->
  search typed p
  = Raising.show_error markup_ok "City name cannot be empty."
      (Raising.show
         (Raising.prompt "Enter city name (e.g., London or London,UK):") p).
Proof.
  intro H. unfold Raising.search_city.
  now rewrite (blank_test typed), H.
Qed.

Lemma search_city_named (typed : string) (p : Process) :
  all_space typed = false ->
  search typed p
  = fetch (strip typed)
      (Raising.show
         (Raising.prompt "Enter city name (e.g., London or London,UK):") p).
Proof.
  intro H. unfold Raising.search_city.
  now rewrite (blank_test typed), H.
Qed.


Local Abbreviation plain_step := (Raising.plain_step markup_ok).

Lemma quiet_plain (a : Process -> Process * Raising.Control) :
  (forall p, quiet p (a p)) -> plain_step a.
Proof.
  intros H p. destruct (H p) as (Ha & Hr & Hc).
  split; [exact Hc|]. rewrite Hr, Ha. split; [lia|reflexivity].
Qed.

Lemma fetch_plain (city : Process -> string) : plain_step (fun p => fetch (city p) p).
Proof.
  intro p. split; [apply raising_fetch_control|].
  split; [apply raising_fetch_requests | apply raising_fetch_unit].
Qed.

Lemma shown_plain (ev : Raising.Shown num)
      (a : Process -> Process * Raising.Control) :
  plain_step a -> plain_step (fun p => a (Raising.show ev p)).
Proof. intros H p. exact (H (Raising.show ev p)). Qed.

Lemma search_plain (typed : string) : plain_step (search typed).
Proof.
  intro p. unfold Raising.search_city.
  destruct (_ || _).
  - apply (shown_plain _ _ (quiet_plain _ (show_error_quiet _))).
  - apply (shown_plain _ (fun q => fetch (strip typed) q) (fetch_plain _)).
Qed.

Lemma refresh_plain : plain_step refresh.
Proof.
  intro p. unfold Raising.refresh_weather.
  destruct (String.eqb _ _).
  - apply (quiet_plain _ (show_error_quiet _)).
  - apply (fetch_plain (fun q => current_city (Raising.app q))).
Qed.

Lemma forecast_plain : plain_step forecast.
Proof.
  intro p. destruct (show_forecast_spec p) as (Hc & Hr & Ha & _).
  split; [exact Hc|]. rewrite Hr, Ha.
  destruct (_ && _).
  - split; [lia|]. now destruct (Raising.get_forecast _ _ _ _ _ _ _).
  - split; [lia|reflexivity].
Qed.

Lemma toggle_step (p : Process) :
  (snd (toggle p) = Raising.Done \/ refused (snd (toggle p)))
  /\ (Raising.requests p <= Raising.requests (fst (toggle p))
      <= S (Raising.requests p))%nat
  /\ temperature_unit (Raising.app (fst (toggle p)))
     = (if String.eqb (temperature_unit (Raising.app p)) "celsius"
        then "fahrenheit" else "celsius")%string.
Proof.
  unfold Raising.toggle_temperature_unit.
  destruct (String.eqb (temperature_unit (Raising.app p)) "celsius");
    cbv zeta iota beta;
    match goal with
    | |- context [if String.eqb (current_city (Raising.app ?q)) "" then _ else _] =>
        destruct (String.eqb (current_city (Raising.app q)) "");
        [cbn; repeat split; auto; lia|
         destruct (fetch_plain (fun x => current_city (Raising.app x)) q)
           as (Hc & Hr & Hu);
         split; [exact Hc|]; split; [exact Hr|]; rewrite Hu; reflexivity]
    end.
Qed.

Lemma andthen_cases (r : Process * Raising.Control)
      (k : Process -> Process * Raising.Control) :
  (snd r = Raising.Done /\ Raising.andthen r k = k (fst r))
  \/ (snd r <> Raising.Done /\ Raising.andthen r k = r).
Proof.
  destruct r as [q []]; cbn; [left; auto|right..]; split; congruence.
Qed.

End ProgramFacts.

Section LoopFacts.

Context {num : Type} {N : Number num}.
Variable config : Config.
Variable set_iter : list string -> list string.
Variable local_date : Z -> option Z.
Variable utc_time : Z -> bool.
Variable world : World num.
Variable client : WeatherAPIClient.
Variable markup_ok : string -> bool.
Variable library_text : Raising.Exception -> string.

Local Abbreviation Process := (Raising.Process num).
Local Abbreviation fetch :=
  (Raising.fetch_weather config utc_time world client markup_ok library_text).
Local Abbreviation search :=
  (Raising.search_city config utc_time world client markup_ok library_text).
Local Abbreviation toggle :=
  (Raising.toggle_temperature_unit config utc_time world client markup_ok
                                   library_text).
Local Abbreviation refresh :=
  (Raising.refresh_weather config utc_time world client markup_ok library_text).
Local Abbreviation forecast :=
  (Raising.show_forecast config set_iter local_date world client markup_ok
                         library_text).
Local Abbreviation loop :=
  (Raising.menu_loop config set_iter local_date utc_time world client markup_ok
                     library_text).
Local Abbreviation refused := (Raising.refused markup_ok).
Local Abbreviation plain_step := (Raising.plain_step markup_ok).
Local Abbreviation unit_of p := (temperature_unit (Raising.app p)).

Local Abbreviation summary := (Raising.loop_summary markup_ok).

Lemma raising_loop_typed (choice : string) (rest : list Input) (p : Process) :
  loop (typed_line choice :: rest) p
  = let p := Raising.show (Raising.prompt "Enter your choice (1-5):")
                          (Raising.show Raising.menu p) in
    if String.eqb choice "1" then
      match rest with
      | [] =>
          (Raising.show
             (Raising.prompt "Enter city name (e.g., London or London,UK):") p,
           Raising.Blocked)
      | ctrl_c :: _ =>
          (Raising.show
             (Raising.prompt "Enter city name (e.g., London or London,UK):") p,
           Raising.Interrupt)
      | end_of_input :: _ =>
          (Raising.show
             (Raising.prompt "Enter city name (e.g., London or London,UK):") p,
           Raising.Raise Raising.EOFError)
      | typed_line city :: rest' =>
          Raising.andthen (search city p) (loop rest')
      end
    else if String.eqb choice "2" then Raising.andthen (toggle p) (loop rest)
    else if String.eqb choice "3" then Raising.andthen (refresh p) (loop rest)
    else if String.eqb choice "4" then Raising.andthen (forecast p) (loop rest)
    else if String.eqb choice "5" then
      Raising.andthen (Raising.exit_app p) (loop rest)
    else
      Raising.andthen
        (Raising.show_error markup_ok
           "Invalid choice. Please enter a number between 1 and 5." p)
        (loop rest).
Proof. destruct rest; reflexivity. Qed.

(** A plain step, then the loop on the inputs left. *)
Lemma plain_then_loop (a : Process -> Process * Raising.Control)
      (used inputs : list Input) (p q : Process) :
  plain_step a ->
  (Raising.requests q = Raising.requests p) -> unit_of q = unit_of p ->
  (1 <= List.length used)%nat ->
  (forall p', summary inputs p' (loop inputs p')) ->
  summary (used ++ inputs) p (Raising.andthen (a q) (loop inputs)).
Proof.
  intros Ha Hr Hu Hused IH. destruct (Ha q) as (Hc & Hreq & Hunit).
  unfold Raising.loop_summary in *. rewrite length_app.
  destruct (andthen_cases (a q) (loop inputs)) as [[Hd ->]|[Hn ->]].
  - destruct (IH (fst (a q))) as (Hreq' & Hunit' & Hc').
    split; [lia|]. split.
    + destruct Hunit' as [->|[Hin Hv]]; [left; congruence|].
      right. split; [apply in_or_app; now right|exact Hv].
    + destruct Hc' as [H|[H|[[H Hin]|[[H Hin]|[H Hin]]]]]; auto;
        right; right; [left|right; left|right; right];
        (split; [exact H|apply in_or_app; now right]).
  - split; [lia|]. split; [left; congruence|].
    destruct Hc as [Hc|Hc]; [contradiction|auto].
Qed.

(** The loop stops at a prompt. *)
Lemma summary_at_prompt (inputs : list Input) (p q : Process)
      (c : Raising.Control) :
  Raising.requests q = Raising.requests p -> unit_of q = unit_of p ->
  c = Raising.Blocked
  \/ (c = Raising.Interrupt /\ In ctrl_c inputs)
  \/ (c = Raising.Raise Raising.EOFError /\ In end_of_input inputs) ->
  summary inputs p (q, c).
Proof.
  intros Hr Hu Hc. unfold Raising.loop_summary. cbn [fst snd].
  split; [lia|]. split; [now left|]. tauto.
Qed.

Lemma exit_then_loop (inputs rest : list Input) (p q : Process) :
  Raising.requests q = Raising.requests p -> unit_of q = unit_of p ->
  In (typed_line "5") inputs ->
  summary inputs p (Raising.andthen (Raising.exit_app q) (loop rest)).
Proof.
  intros Hr Hu Hin. unfold Raising.loop_summary. cbn.
  split; [lia|]. split; [now left|]. auto.
Qed.

Lemma toggle_then_loop (inputs : list Input) (p q : Process) :
  Raising.requests q = Raising.requests p -> unit_of q = unit_of p ->
  (forall p', summary inputs p' (loop inputs p')) ->
  summary (typed_line "2" :: inputs) p (Raising.andthen (toggle q) (loop inputs)).
Proof.
  intros Hr Hu IH.
  destruct (toggle_step config utc_time world client markup_ok library_text q)
    as (Hc & Hreq & Hunit).
  assert (Hv : unit_of (fst (toggle q)) = "celsius"%string
               \/ unit_of (fst (toggle q)) = "fahrenheit"%string)
    by (rewrite Hunit; destruct (String.eqb _ _); auto).
  unfold Raising.loop_summary in *. cbn [List.length].
  destruct (andthen_cases (toggle q) (loop inputs)) as [[Hd ->]|[Hn ->]].
  - destruct (IH (fst (toggle q))) as (Hreq' & Hunit' & Hc').
    split; [lia|]. split.
    + right. split; [now left|].
      destruct Hunit' as [->|[_ H]]; [exact Hv|exact H].
    + destruct Hc' as [H|[H|[[H Hin]|[[H Hin]|[H Hin]]]]]; auto;
        right; right; [left|right; left|right; right];
        (split; [exact H|now right]).
  - split; [lia|]. split; [right; split; [now left|exact Hv]|].
    destruct Hc as [Hc|Hc]; [contradiction|auto].
Qed.

Lemma raising_loop_summary (inputs : list Input) : forall p : Process,
  summary inputs p (loop inputs p).
Proof.
  induction inputs as [| i | i j l IHl IHjl] using two_step_induction; intro p.
  - apply summary_at_prompt; auto.
  - assert (IH0 : forall p', summary [] p' (loop [] p'))
      by (intro p'; apply summary_at_prompt; auto).
    destruct i as [choice| |];
      [|apply summary_at_prompt; cbn; auto 10..].
    rewrite raising_loop_typed. cbv zeta.
    destruct (String.eqb_spec choice "1");
      [apply summary_at_prompt; auto|].
    destruct (String.eqb_spec choice "2") as [->|];
      [apply toggle_then_loop; auto|].
    destruct (String.eqb_spec choice "3");
      [apply (plain_then_loop refresh [typed_line choice] []); auto;
       apply refresh_plain|].
    destruct (String.eqb_spec choice "4");
      [apply (plain_then_loop forecast [typed_line choice] []); auto;
       apply forecast_plain|].
    destruct (String.eqb_spec choice "5") as [->|];
      [apply exit_then_loop; cbn; auto|].
    apply (plain_then_loop _ [typed_line choice] []); auto.
    apply quiet_plain. intro q. apply show_error_quiet.
  - destruct i as [choice| |];
      [|apply summary_at_prompt; cbn; auto 10..].
    rewrite raising_loop_typed. cbv zeta.
    destruct (String.eqb_spec choice "1").
    { destruct j as [city| |];
        [|apply summary_at_prompt; cbn; auto 10..].
      apply (plain_then_loop (search city) [typed_line choice; typed_line city] l);
        cbn [List.length]; auto; try lia. apply search_plain. }
    destruct (String.eqb_spec choice "2") as [->|];
      [apply toggle_then_loop; auto|].
    destruct (String.eqb_spec choice "3");
      [apply (plain_then_loop refresh [typed_line choice] (j :: l)); auto;
       apply refresh_plain|].
    destruct (String.eqb_spec choice "4");
      [apply (plain_then_loop forecast [typed_line choice] (j :: l)); auto;
       apply forecast_plain|].
    destruct (String.eqb_spec choice "5") as [->|];
      [apply exit_then_loop; cbn; auto|].
    apply (plain_then_loop _ [typed_line choice] (j :: l)); auto.
    apply quiet_plain. intro q. apply show_error_quiet.
Qed.

End LoopFacts.

Lemma raising_forecast_length {num : Type} {N : Number num}
      (config : Config) (set_iter : list string -> list string)
      (local_date : Z -> option Z)
      (session_get : Request -> Outcome (list (Sample num)))
      (city units : string) (days : Z) (f : list (ForecastDay num)) :
  Raising.get_forecast config set_iter local_date session_get city units days
  = inr f ->
  (List.length f <= Z.to_nat days)%nat.
Proof.
  unfold Raising.get_forecast.
  destruct (session_get _) as [status text data| | |]; try discriminate.
  destruct (status =? 404); [discriminate|].
  destruct (negb (status =? 200)); [discriminate|].
  intro Hp. apply raising_forecast_returned in Hp. destruct Hp as [_ Hp].
  unfold _process_forecast in Hp.
  rewrite process_forecast_with_runs in Hp. apply mapM_length in Hp.
  rewrite Hp. apply firstn_le_length.
Qed.

(** X12: [search_city] rejects an ASCII line that is empty or all white space:
    it puts up the error panel and sends no request, and the application
    object is as before.  Any other line is stripped of its surrounding white
    space and, never empty, handed to [fetch_weather].  If [rich] renders the
    loading line for that name, one request is sent, and the current city is
    the name or, when nothing was stored, the application object is as before;
    if [rich] refuses the line, a name that holds a closing tag for one,
    [MarkupError] leaves [search_city] before any request is sent. *)
Theorem X12_search_city_strips_and_rejects_blank {num : Type} {N : Number num}
    (config : Config) (utc_time : Z -> bool) (world : World num)
    (client : WeatherAPIClient) (markup_ok : string -> bool)
    (library_text : Raising.Exception -> string)
    (typed : string) (p : Raising.Process num) :
  ascii_text typed = true ->
  let asked :=
    Raising.show (Raising.prompt "Enter city name (e.g., London or London,UK):")
                 p in
  let text :=
    Raising.loading_markup ("Fetching weather for " ++ strip typed ++ "...") in
  let r := Raising.search_city config utc_time world client markup_ok
                               library_text typed p in
  (all_space typed = true ->
     r = Raising.show_error markup_ok "City name cannot be empty." asked
     /\ Raising.app (fst r) = Raising.app p
     /\ Raising.requests (fst r) = Raising.requests p)
  /\ (all_space typed = false ->
        strip typed <> EmptyString
        /\ strip (strip typed) = strip typed
        /\ r = Raising.fetch_weather config utc_time world client markup_ok
                                     library_text (strip typed) asked
        /\ (markup_ok text = true ->
            Raising.requests (fst r) = S (Raising.requests p)
            /\ (current_city (Raising.app (fst r)) = strip typed
                \/ Raising.app (fst r) = Raising.app p))
        /\ (markup_ok text = false ->
            r = (asked, Raising.Raise (Raising.MarkupError text)))).
Proof.
  intros _ asked text r. split; intro H.
  - unfold r. rewrite search_city_blank by assumption. fold asked.
    split; [reflexivity|].
    destruct (show_error_quiet markup_ok "City name cannot be empty." asked)
      as (Ha & Hr & _).
    now rewrite Ha, Hr.
  - split; [intro He; apply strip_empty_iff in He; congruence|].
    split; [apply strip_idempotent|].
    unfold r. rewrite search_city_named by assumption. fold asked.
    split; [reflexivity|].
    pose proof (raising_fetch_spec config utc_time world client markup_ok
                  library_text (strip typed) asked) as Hf.
    cbv zeta in Hf. fold text in Hf.
    split; intro Ht; rewrite Ht in Hf.
    + destruct Hf as (-> & _ & ->). split; [reflexivity|].
      destruct (Raising.get_current_weather _ _ _ _ _ _); [now right|now left].
    + exact Hf.
Qed.

(** X14: [show_forecast] never changes the city, the unit or the stored
    snapshot.  It sends one request if a city is selected and [rich] renders
    the loading line, and none otherwise.  The stored forecast is replaced
    exactly when that request was sent and the client returned a forecast,
    which has at most 5 days; it is kept when the client raised, also after
    the error panel.  The forecast table is put on the screen only while no
    snapshot is stored, because [display_current_weather] raises before
    [display_forecast] is reached.  The call returns or leaves with the
    [MarkupError] of a text that [rich] refuses. *)
Theorem X14_show_forecast_stores_at_most_five_days {num : Type} {N : Number num}
    (config : Config) (set_iter : list string -> list string)
    (local_date : Z -> option Z) (world : World num)
    (client : WeatherAPIClient) (markup_ok : string -> bool)
    (library_text : Raising.Exception -> string) (p : Raising.Process num) :
  let asked :=
    negb (String.eqb (current_city (Raising.app p)) "")
    && markup_ok (Raising.loading_markup
                    ("Fetching forecast for " ++ current_city (Raising.app p)
                     ++ "...")) in
  let answer :=
    Raising.get_forecast config set_iter local_date
      (forecast_endpoint world (Raising.requests p) (appid client))
      (current_city (Raising.app p)) (api_units (Raising.app p)) 5 in
  let r := Raising.show_forecast config set_iter local_date world client
                                 markup_ok library_text p in
  current_city (Raising.app (fst r)) = current_city (Raising.app p)
  /\ temperature_unit (Raising.app (fst r)) = temperature_unit (Raising.app p)
  /\ current_weather (Raising.app (fst r)) = current_weather (Raising.app p)
  /\ Raising.requests (fst r)
     = (if asked then S (Raising.requests p) else Raising.requests p)
  /\ forecast_data (Raising.app (fst r))
     = (if asked then
          match answer with
          | inr f => Some f
          | inl _ => forecast_data (Raising.app p)
          end
        else forecast_data (Raising.app p))
  /\ (forall f, answer = inr f -> (List.length f <= 5)%nat)
  /\ (forall f u,
        In (Raising.forecast_table f u) (Raising.screen (fst r)) ->
        In (Raising.forecast_table f u) (Raising.screen p)
        \/ current_weather (Raising.app p) = None)
  /\ (snd r = Raising.Done \/ Raising.refused markup_ok (snd r)).
Proof.
  intros asked answer r.
  destruct (show_forecast_spec config set_iter local_date world client markup_ok
              library_text p) as (Hc & Hr & Ha & Hs).
  fold r asked answer in Hc, Hr, Ha, Hs.
  rewrite Ha, Hr.
  assert (Hlen : forall f, answer = inr f -> (List.length f <= 5)%nat).
  { intros f Hf. apply raising_forecast_length in Hf. exact Hf. }
  destruct asked; [destruct answer|]; cbn; auto 10.
Qed.

(** X16: only the toggle changes the unit.  After [run] on any inputs the
    unit is the one the process started with, unless the line 2 was typed, in
    which case it is that one or one of 'celsius' and 'fahrenheit'. *)
Theorem X16_unit_changes_only_by_toggle {num : Type} {N : Number num}
    (config : Config) (set_iter : list string -> list string)
    (local_date : Z -> option Z) (utc_time : Z -> bool) (world : World num)
    (client : WeatherAPIClient) (markup_ok : string -> bool)
    (library_text : Raising.Exception -> string)
    (inputs : list Input) (p : Raising.Process num) :
  let unit_after :=
    temperature_unit
      (Raising.app
         (fst (Raising.run config set_iter local_date utc_time world client
                           markup_ok library_text inputs p))) in
  unit_after = temperature_unit (Raising.app p)
  \/ (In (typed_line "2") inputs
      /\ (unit_after = "celsius"%string \/ unit_after = "fahrenheit"%string)).
Proof.
  cbv zeta. unfold Raising.run.
  match goal with
  | |- context [Raising.andthen ?r ?k] =>
      destruct (andthen_cases r k) as [[Hd ->]|[Hn ->]];
      pose proof (raising_fetch_unit config utc_time world client markup_ok
                    library_text
                    (current_city
                       (Raising.app
                          (Raising.show Raising.welcome
                             (Raising.show Raising.cleared p))))
                    (Raising.show Raising.welcome
                                  (Raising.show Raising.cleared p))) as Hu
  end.
  - match goal with
    | |- context [Raising.menu_loop _ _ _ _ _ _ _ _ inputs ?q] =>
        destruct (raising_loop_summary config set_iter local_date utc_time world
                    client markup_ok library_text inputs q) as (_ & Hunit & _)
    end.
    destruct Hunit as [->|H]; [left; exact Hu|right; exact H].
  - left. exact Hu.
Qed.

(** X17: [run] on [n] inputs sends at most [n + 1] requests.  It sends the
    first one, for the default city, if [rich] renders the loading line of
    that city; if not, [MarkupError] leaves [run] at once and no request has
    been sent. *)
Theorem X17_at_most_one_request_per_input {num : Type} {N : Number num}
    (config : Config) (set_iter : list string -> list string)
    (local_date : Z -> option Z) (utc_time : Z -> bool) (world : World num)
    (client : WeatherAPIClient) (markup_ok : string -> bool)
    (library_text : Raising.Exception -> string)
    (inputs : list Input) (p : Raising.Process num) :
  let text :=
    Raising.loading_markup
      ("Fetching weather for " ++ current_city (Raising.app p) ++ "...") in
  let r := Raising.run config set_iter local_date utc_time world client
                       markup_ok library_text inputs p in
  (Raising.requests p <= Raising.requests (fst r)
   <= Raising.requests p + 1 + List.length inputs)%nat
  /\ (if markup_ok text
      then (Raising.requests p + 1 <= Raising.requests (fst r))%nat
      else Raising.requests (fst r) = Raising.requests p
           /\ snd r = Raising.Raise (Raising.MarkupError text)).
Proof.
  intros text r. unfold r, Raising.run. cbv zeta.
  set (q := Raising.show Raising.welcome (Raising.show Raising.cleared p)).
  change (current_city (Raising.app q)) with (current_city (Raising.app p)).
  pose proof (raising_fetch_spec config utc_time world client markup_ok
                library_text (current_city (Raising.app p)) q) as Hf.
  cbv zeta in Hf. fold text in Hf.
  destruct (markup_ok text).
  - destruct Hf as (Hreq & Hc & _).
    change (Raising.requests q) with (Raising.requests p) in Hreq.
    match goal with
    | |- context [Raising.andthen ?a ?k] =>
        destruct (andthen_cases a k) as [[Hd ->]|[Hn ->]]
    end.
    + match goal with
      | |- context [Raising.menu_loop _ _ _ _ _ _ _ _ inputs ?s] =>
          destruct (raising_loop_summary config set_iter local_date utc_time world
                      client markup_ok library_text inputs s) as (Hr & _)
      end.
      lia.
    + lia.
  - rewrite Hf. cbn [Raising.andthen fst snd].
    change (Raising.requests q) with (Raising.requests p).
    split; [lia|auto].
Qed.



(** ** Instances *)

Lemma X3_nothing_wanted_nothing_reduced_witness :
  Raising._process_forecast first_seen Scenarios.local Scenarios.undated_third 0
  = inl (Raising.OutOfRange (Scenarios.year_31690 + 21600)).
Proof.
  unfold Raising._process_forecast.
  rewrite (X3_nothing_wanted_nothing_reduced Scenarios.local _
             (Raising._aggregate_day_forecast first_seen Scenarios.local)
             Scenarios.undated_third 0); [reflexivity|].
  right. lia.
Defined.


Lemma X12_search_city_strips_and_rejects_blank_witness :
  Raising.requests
    (fst (Raising.search_city Examples.config Scenarios.in_range
            Scenarios.online Scenarios.client Scenarios.rich Scenarios.texts
            " [/x] "%string Scenarios.launched)) = 0%nat
  /\ exists markup,
       snd (Raising.search_city Examples.config Scenarios.in_range
              Scenarios.online Scenarios.client Scenarios.rich Scenarios.texts
              " [/x] "%string Scenarios.launched)
       = Raising.Raise (Raising.MarkupError markup).
Proof.
  destruct (X12_search_city_strips_and_rejects_blank Examples.config
              Scenarios.in_range Scenarios.online Scenarios.client
              Scenarios.rich Scenarios.texts " [/x] "%string Scenarios.launched
              eq_refl) as [_ Hnamed].
  destruct (Hnamed eq_refl) as (_ & _ & _ & _ & Hrefused).
  rewrite (Hrefused eq_refl). split; [reflexivity|]. eexists. reflexivity.
Defined.

